(** * The per-camera WebRTC session engine of docker-wyze-bridge

    A shallow embedding of [app/wyzebridge/kvs_signaling.py] (the KVS
    signaling client) and [app/wyzebridge/webrtc_stream.py] (the stream
    session), with the properties of the session state machine, of the
    reconnect back-off, of stopping and of the signaling envelope.

    Conventions of the embedding.
    - A Python [str] or [bytes] value is a [string] of bytes (UTF-8 for text).
    - A method that mutates [self] is a computation in the monad [M], which
      threads a world (the object, the file system, the effects performed so
      far) and ends by returning, by raising, or suspended at an [await]
      that only another party can complete ([Pending]).
    - Calls to the logger have no effect on any modelled value and are left out.
    - What the environment decides (the credentials the cloud returns,
      whether a subprocess starts, what the worker thread does while the
      caller waits in [join]) is an explicit argument of the function that
      consumes it.
    - A coroutine is cut at its suspension point: [_connect_webrtc] runs up
      to its wait loop and is resumed from there, inside the same
      [try ... except ... finally].
    - Times are whole seconds; the file system is the set of the paths that
      exist, and removing an existing path succeeds. *)

From Stdlib Require Import ZArith String Ascii List Lia Bool.
From stdpp Require Import base gmap strings list.
Import ListNotations.
Open Scope Z_scope.
Open Scope string_scope.
Open Scope list_scope.
Set Warnings "-register-all".

(** ** Python values, exceptions and the effect monad *)

(** The exception classes the two modules raise, catch or suppress. *)
Inductive pyexn :=
  | Exception_
  | RuntimeError
  | ValueError
  | AttributeError
  | KeyError
  | TypeError
  | OSError
  | FileExistsError
  | JSONDecodeError
  | BinasciiError
  | UnicodeDecodeError
  | TimeoutExpired
  | ConnectionClosed
  | CancelledError.

#[global] Instance pyexn_eq_dec : EqDecision pyexn.
Proof. solve_decision. Defined.

(** [isinstance e cls]: the class hierarchy of the standard library.
    [CancelledError] derives from [BaseException] only. *)
Definition isinstance (e cls : pyexn) : bool :=
  bool_decide (e = cls) ||
  match cls, e with
  | Exception_, CancelledError => false
  | Exception_, _ => true
  | ValueError, (JSONDecodeError | BinasciiError | UnicodeDecodeError) => true
  | OSError, FileExistsError => true
  | _, _ => false
  end.

(** The values [json.loads] produces and dictionaries hold. A float keeps
    only what the code can observe of it, its truth value. *)
Inductive pyval :=
  | PNone
  | PBool (b : bool)
  | PInt (n : Z)
  | PFloat (nonzero : bool)
  | PStr (s : string)
  | PList (l : list pyval)
  | PDict (d : list (string * pyval)).

(** Truth value of an object in a condition. *)
Definition truthy (v : pyval) : bool :=
  match v with
  | PNone => false
  | PBool b => b
  | PInt n => negb (Z.eqb n 0)
  | PFloat nz => nz
  | PStr s => negb (String.eqb s "")
  | PList l => match l with [] => false | _ => true end
  | PDict d => match d with [] => false | _ => true end
  end.

(** [d.get(k)] on the items of a dictionary. *)
Fixpoint dict_get (k : string) (d : list (string * pyval)) : option pyval :=
  match d with
  | [] => None
  | (k', v) :: d' => if String.eqb k k' then Some v else dict_get k d'
  end.

(** [needle in hay] on strings. *)
Fixpoint contains (needle hay : string) : bool :=
  String.prefix needle hay ||
  match hay with
  | EmptyString => false
  | String _ hay' => contains needle hay'
  end.

(** How a computation ends. *)
Inductive outcome (A : Type) :=
  | Return (a : A)
  | Raise (e : pyexn)
  | Pending.
Arguments Return {A} a.
Arguments Raise {A} e.
Arguments Pending {A}.

Definition M (S A : Type) : Type := S -> outcome A * S.

#[global] Instance M_ret {S} : MRet (M S) := fun A a s => (Return a, s).

#[global] Instance M_bind {S} : MBind (M S) := fun A B f m s =>
  match m s with
  | (Return a, s') => f a s'
  | (Raise e, s') => (Raise e, s')
  | (Pending, s') => (Pending, s')
  end.

Definition raise {S A} (e : pyexn) : M S A := fun s => (Raise e, s).

Definition suspend {S A} : M S A := fun s => (Pending, s).

Definition gets {S A} (f : S -> A) : M S A := fun s => (Return (f s), s).

Definition modify {S} (f : S -> S) : M S unit := fun s => (Return tt, f s).

Definition when {S} (b : bool) (m : M S unit) : M S unit :=
  if b then m else mret tt.

(** [try: body except cls: handler]. *)
Definition try_except {S A} (body : M S A) (cls : pyexn) (handler : M S A) : M S A :=
  fun s =>
    match body s with
    | (Raise e, s') => if isinstance e cls then handler s' else (Raise e, s')
    | r => r
    end.

(** [try: body except: handler], the bare clause that catches everything. *)
Definition try_except_all {S A} (body : M S A) (handler : M S A) : M S A :=
  fun s =>
    match body s with
    | (Raise e, s') => handler s'
    | r => r
    end.

(** [try: body finally: final]. A suspended body has not reached its
    [finally] block yet. *)
Definition try_finally {S A} (body : M S A) (final : M S unit) : M S A :=
  fun s =>
    match body s with
    | (Pending, s') => (Pending, s')
    | (r, s') =>
        match final s' with
        | (Return _, s'') => (r, s'')
        | (Raise e, s'') => (Raise e, s'')
        | (Pending, s'') => (Pending, s'')
        end
    end.

(** [with contextlib.suppress(c1, c2, ...): body]. *)
Definition suppress {S} (classes : list pyexn) (body : M S unit) : M S unit :=
  fun s =>
    match body s with
    | (Raise e, s') =>
        if existsb (isinstance e) classes then (Return tt, s') else (Raise e, s')
    | r => r
    end.

(** ** [kvs_signaling.py]: the signaling client *)

(** The codecs of the standard library the client calls. The module does
    not define them; every property below holds for any choice of them.
    [None] stands for the exception the codec raises on input it rejects. *)
Class Codecs := {
  json_loads : string -> option pyval;
  json_dumps : pyval -> string;
  b64decode : string -> option string;
  b64encode : string -> string;
  utf8_decode : string -> option string;
  str_strip : string -> string
}.

Module Kvs.

(** [urllib.parse.quote(s, safe='')]: the bytes of [_ALWAYS_SAFE] are kept,
    every other byte becomes [%XX] in upper-case hexadecimal. *)
Definition always_safe (c : ascii) : bool :=
  let n := nat_of_ascii c in
  ((65 <=? n) && (n <=? 90))%nat || ((97 <=? n) && (n <=? 122))%nat ||
  ((48 <=? n) && (n <=? 57))%nat ||
  Ascii.eqb c "_" || Ascii.eqb c "." || Ascii.eqb c "-" || Ascii.eqb c "~".

Definition hex_digit (n : nat) : ascii :=
  match String.get n "0123456789ABCDEF" with
  | Some c => c
  | None => "0"%char
  end.

Definition quote_byte (c : ascii) : string :=
  if always_safe c then String c ""
  else
    let n := nat_of_ascii c in
    String "%" (String (hex_digit (n / 16)) (String (hex_digit (n mod 16)) "")).

Fixpoint quote (s : string) : string :=
  match s with
  | EmptyString => ""
  | String c s' => quote_byte c +:+ quote s'
  end.

(** The open socket: the URL it was opened on. *)
Record WebSocketClientProtocol := { remote : string }.

(** A registered callback: applied to its argument it completes ([None])
    or raises. *)
Definition callback := pyval -> option pyexn.

(** The slots of [KvsSignalingClient]. *)
Record KvsSignalingClient := mkClient {
  url : string;
  client_id : string;
  ws : option WebSocketClientProtocol;
  on_answer : option callback;
  on_ice_candidate : option callback;
  _receive_task : bool
}.

(** [KvsSignalingClient.__init__]. *)
Definition __init__ (signaling_url client_id token : string) : KvsSignalingClient :=
  let url :=
    if contains "X-Amz-" signaling_url then signaling_url
    else
      let sep := if contains "?" signaling_url then "&" else "?" in
      signaling_url +:+ sep +:+ "ClientId=" +:+ quote client_id
        +:+ "&signalToken=" +:+ quote token in
  {| url := url; client_id := client_id; ws := None;
     on_answer := None; on_ice_candidate := None; _receive_task := false |}.

(** What the callbacks were called with, in order. *)
Inductive call :=
  | AnswerCall (sdp : pyval)
  | CandidateCall (candidate : pyval).

(** The client together with what it did to the outside: the frames it
    sent and the callbacks it invoked. *)
Record Channel := mkChannel {
  client : KvsSignalingClient;
  sent : list string;
  calls : list call
}.

Definition set_ws (w : option WebSocketClientProtocol) (c : KvsSignalingClient) :=
  mkClient (url c) (client_id c) w (on_answer c) (on_ice_candidate c) (_receive_task c).

Definition set_receive_task (b : bool) (c : KvsSignalingClient) :=
  mkClient (url c) (client_id c) (ws c) (on_answer c) (on_ice_candidate c) b.

Definition set_callbacks (a i : option callback) (c : KvsSignalingClient) :=
  mkClient (url c) (client_id c) (ws c) a i (_receive_task c).

Definition on_client (f : KvsSignalingClient -> KvsSignalingClient) : M Channel unit :=
  modify (fun ch => mkChannel (f (client ch)) (sent ch) (calls ch)).

Definition ws_send (frame : string) : M Channel unit :=
  modify (fun ch => mkChannel (client ch) (sent ch ++ [frame]) (calls ch)).

(** [await cb(arg)]: the call is made, then it returns or raises. *)
Definition invoke (c : call) (r : option pyexn) : M Channel unit :=
  fun ch =>
    let ch' := mkChannel (client ch) (sent ch) (calls ch ++ [c]) in
    match r with
    | None => (Return tt, ch')
    | Some e => (Raise e, ch')
    end.

(** [connect]: [websockets.connect] raises ([Some e]) or hands the
    socket over; then the receive task is created. *)
Definition connect (refused : option pyexn) : M Channel unit :=
  u ← gets (url ∘ client);
  match refused with
  | Some e => raise e
  | None =>
      on_client (set_ws (Some {| remote := u |}));;
      on_client (set_receive_task true)
  end.

Section WithCodecs.
Context `{Codecs}.

Definition envelope (action payload recipient : string) : pyval :=
  PDict [("action", PStr action); ("messagePayload", PStr payload);
         ("recipientClientId", PStr recipient)].

(** [send_offer]. *)
Definition send_offer (sdp : string) : M Channel unit :=
  c ← gets client;
  match ws c with
  | None => raise RuntimeError
  | Some _ =>
      let payload := PDict [("type", PStr "offer"); ("sdp", PStr sdp)] in
      let encoded_payload := b64encode (json_dumps payload) in
      ws_send (json_dumps (envelope "SDP_OFFER" encoded_payload (client_id c)))
  end.

(** [send_ice_candidate]. *)
Definition send_ice_candidate (candidate : pyval) : M Channel unit :=
  c ← gets client;
  match ws c with
  | None => raise RuntimeError
  | Some _ =>
      let encoded_payload := b64encode (json_dumps candidate) in
      ws_send (json_dumps (envelope "ICE_CANDIDATE" encoded_payload (client_id c)))
  end.

(** [data.get(key)]; only a dictionary has the method. *)
Definition py_get (data : pyval) (key : string) : M Channel pyval :=
  match data with
  | PDict d => mret (default PNone (dict_get key d))
  | _ => raise AttributeError
  end.

Definition is_str (v : pyval) (s : string) : bool :=
  match v with
  | PStr s' => String.eqb s' s
  | _ => false
  end.

(** [base64.b64decode(encoded_payload).decode('utf-8')]. *)
Definition decode_payload (encoded_payload : pyval) : M Channel string :=
  match encoded_payload with
  | PStr s =>
      match b64decode s with
      | None => raise BinasciiError
      | Some bytes =>
          match utf8_decode bytes with
          | None => raise UnicodeDecodeError
          | Some text => mret text
          end
      end
  | _ => raise TypeError
  end.

Definition loads (text : string) : M Channel pyval :=
  match json_loads text with
  | None => raise JSONDecodeError
  | Some v => mret v
  end.

(** [_handle_message]. *)
Definition _handle_message (data : pyval) : M Channel unit :=
  msg_type ← py_get data "messageType";
  if is_str msg_type "SDP_ANSWER" then
    cb ← gets (on_answer ∘ client);
    match cb with
    | Some f =>
        try_except
          (encoded_payload ← py_get data "messagePayload";
           if truthy encoded_payload then
             decoded ← decode_payload encoded_payload;
             payload ← loads decoded;
             let sdp :=
               match payload with
               | PDict d => default PNone (dict_get "sdp" d)
               | _ => PStr decoded
               end in
             invoke (AnswerCall sdp) (f sdp)
           else mret tt)
          Exception_ (mret tt)
    | None => mret tt
    end
  else if is_str msg_type "ICE_CANDIDATE" then
    cb ← gets (on_ice_candidate ∘ client);
    match cb with
    | Some f =>
        try_except
          (encoded_payload ← py_get data "messagePayload";
           if truthy encoded_payload then
             decoded ← decode_payload encoded_payload;
             candidate ← loads decoded;
             invoke (CandidateCall candidate) (f candidate)
           else mret tt)
          Exception_ (mret tt)
    | None => mret tt
    end
  else mret tt.

(** A frame of the socket: text or binary. *)
Inductive frame :=
  | Text (s : string)
  | Binary (b : string).

(** The body of the [async for] of [_receive_loop], for one frame. The two
    [except] clauses only log, so trying them in turn is the same as
    nesting them. *)
Definition receive_one (message : frame) : M Channel unit :=
  try_except
    (try_except
       (message ←
          match message with
          | Binary b =>
              match utf8_decode b with
              | None => raise UnicodeDecodeError
              | Some s => mret s
              end
          | Text s => mret s
          end;
        if String.eqb message "" || String.eqb (str_strip message) "" then mret tt
        else
          data ← loads message;
          _handle_message data)
       JSONDecodeError (mret tt))
    Exception_ (mret tt).

Fixpoint receive_all (frames : list frame) : M Channel unit :=
  match frames with
  | [] => mret tt
  | message :: rest => receive_one message;; receive_all rest
  end.

(** [_receive_loop] over the frames the socket delivers until it ends,
    quietly ([None]) or by raising; again both [except] clauses only log. *)
Definition _receive_loop (frames : list frame) (ending : option pyexn) : M Channel unit :=
  try_except
    (try_except
       (receive_all frames;;
        match ending with
        | Some e => raise e
        | None => mret tt
        end)
       ConnectionClosed (mret tt))
    Exception_ (mret tt).

End WithCodecs.

(** [close]. Cancelling the receive task changes no slot: [_receive_task]
    keeps the cancelled task. *)
Definition close : M Channel unit :=
  c ← gets client;
  match ws c with
  | Some _ => on_client (set_ws None)
  | None => mret tt
  end.

End Kvs.

(** ** [webrtc_stream.py]: the stream session *)

(** The constants of the class [StreamStatus]. *)
Module StreamStatus.

Inductive t :=
  | OFFLINE
  | STOPPING
  | DISABLED
  | STOPPED
  | CONNECTING
  | CONNECTED
  | INITIALIZING.

Definition value (s : t) : Z :=
  match s with
  | OFFLINE => -90
  | STOPPING => -1
  | DISABLED => 0
  | STOPPED => 1
  | CONNECTING => 2
  | CONNECTED => 3
  | INITIALIZING => -2
  end.

#[global] Instance eq_dec : EqDecision t.
Proof. solve_decision. Defined.

End StreamStatus.

Module WebRtc.
Import StreamStatus.

(** What the session reads of its collaborators. *)
Record WyzeCamera := { name_uri : string; nickname : string }.

Record WyzeStreamOptions := { audio : bool; reconnect : bool; bitrate : Z }.

Record RTCIceServer := {
  urls : pyval;
  username : option pyval;
  credential : option pyval
}.

(** The peer connection: its configuration, its transceivers and the two
    states the transport reports. *)
Record RTCPeerConnection := mkPc {
  iceServers : list RTCIceServer;
  transceivers : list (string * string);
  iceConnectionState : string;
  connectionState : string;
  localDescription : option string
}.

Record MediaStreamTrack := { kind : string }.

(** The remux subprocess: its command line, the exit status [poll] would
    report, and whether it exits within the wait that follows [terminate]. *)
Record Popen := {
  args : list string;
  returncode : option Z;
  heeds_terminate : bool
}.

Record EventLoop := { is_running : bool }.

(** The slots of [WebRtcStream]. [api] and [user] are opaque to the class;
    the one call made on [api] is answered by the environment. Times are in
    whole seconds. *)
Record WebRtcStream := mkStream {
  camera : WyzeCamera;
  uri : string;
  options : WyzeStreamOptions;
  state : StreamStatus.t;
  start_time : Z;
  motion_ts : Z;
  loop_thread : option string;
  loop : option EventLoop;
  pc : option RTCPeerConnection;
  signaling : option Kvs.KvsSignalingClient;
  ffmpeg_process : option Popen;
  video_pipe : option string;
  audio_pipe : option string;
  _stop_event : bool;
  _video_track : option MediaStreamTrack;
  _audio_track : option MediaStreamTrack;
  _reconnect_count : Z
}.

Definition set_state (v : StreamStatus.t) (s : WebRtcStream) : WebRtcStream :=
  mkStream (camera s) (uri s) (options s) v (start_time s) (motion_ts s) (loop_thread s) (loop s) (pc s) (signaling s) (ffmpeg_process s) (video_pipe s) (audio_pipe s) (_stop_event s) (_video_track s) (_audio_track s) (_reconnect_count s).

Definition set_start_time (v : Z) (s : WebRtcStream) : WebRtcStream :=
  mkStream (camera s) (uri s) (options s) (state s) v (motion_ts s) (loop_thread s) (loop s) (pc s) (signaling s) (ffmpeg_process s) (video_pipe s) (audio_pipe s) (_stop_event s) (_video_track s) (_audio_track s) (_reconnect_count s).

Definition set_loop_thread (v : option string) (s : WebRtcStream) : WebRtcStream :=
  mkStream (camera s) (uri s) (options s) (state s) (start_time s) (motion_ts s) v (loop s) (pc s) (signaling s) (ffmpeg_process s) (video_pipe s) (audio_pipe s) (_stop_event s) (_video_track s) (_audio_track s) (_reconnect_count s).

Definition set_loop (v : option EventLoop) (s : WebRtcStream) : WebRtcStream :=
  mkStream (camera s) (uri s) (options s) (state s) (start_time s) (motion_ts s) (loop_thread s) v (pc s) (signaling s) (ffmpeg_process s) (video_pipe s) (audio_pipe s) (_stop_event s) (_video_track s) (_audio_track s) (_reconnect_count s).

Definition set_pc (v : option RTCPeerConnection) (s : WebRtcStream) : WebRtcStream :=
  mkStream (camera s) (uri s) (options s) (state s) (start_time s) (motion_ts s) (loop_thread s) (loop s) v (signaling s) (ffmpeg_process s) (video_pipe s) (audio_pipe s) (_stop_event s) (_video_track s) (_audio_track s) (_reconnect_count s).

Definition set_signaling (v : option Kvs.KvsSignalingClient) (s : WebRtcStream) : WebRtcStream :=
  mkStream (camera s) (uri s) (options s) (state s) (start_time s) (motion_ts s) (loop_thread s) (loop s) (pc s) v (ffmpeg_process s) (video_pipe s) (audio_pipe s) (_stop_event s) (_video_track s) (_audio_track s) (_reconnect_count s).

Definition set_ffmpeg_process (v : option Popen) (s : WebRtcStream) : WebRtcStream :=
  mkStream (camera s) (uri s) (options s) (state s) (start_time s) (motion_ts s) (loop_thread s) (loop s) (pc s) (signaling s) v (video_pipe s) (audio_pipe s) (_stop_event s) (_video_track s) (_audio_track s) (_reconnect_count s).

Definition set_video_pipe (v : option string) (s : WebRtcStream) : WebRtcStream :=
  mkStream (camera s) (uri s) (options s) (state s) (start_time s) (motion_ts s) (loop_thread s) (loop s) (pc s) (signaling s) (ffmpeg_process s) v (audio_pipe s) (_stop_event s) (_video_track s) (_audio_track s) (_reconnect_count s).

Definition set_audio_pipe (v : option string) (s : WebRtcStream) : WebRtcStream :=
  mkStream (camera s) (uri s) (options s) (state s) (start_time s) (motion_ts s) (loop_thread s) (loop s) (pc s) (signaling s) (ffmpeg_process s) (video_pipe s) v (_stop_event s) (_video_track s) (_audio_track s) (_reconnect_count s).

Definition set_stop_event (v : bool) (s : WebRtcStream) : WebRtcStream :=
  mkStream (camera s) (uri s) (options s) (state s) (start_time s) (motion_ts s) (loop_thread s) (loop s) (pc s) (signaling s) (ffmpeg_process s) (video_pipe s) (audio_pipe s) v (_video_track s) (_audio_track s) (_reconnect_count s).

Definition set_video_track (v : option MediaStreamTrack) (s : WebRtcStream) : WebRtcStream :=
  mkStream (camera s) (uri s) (options s) (state s) (start_time s) (motion_ts s) (loop_thread s) (loop s) (pc s) (signaling s) (ffmpeg_process s) (video_pipe s) (audio_pipe s) (_stop_event s) v (_audio_track s) (_reconnect_count s).

Definition set_audio_track (v : option MediaStreamTrack) (s : WebRtcStream) : WebRtcStream :=
  mkStream (camera s) (uri s) (options s) (state s) (start_time s) (motion_ts s) (loop_thread s) (loop s) (pc s) (signaling s) (ffmpeg_process s) (video_pipe s) (audio_pipe s) (_stop_event s) (_video_track s) v (_reconnect_count s).

Definition set_reconnect_count (v : Z) (s : WebRtcStream) : WebRtcStream :=
  mkStream (camera s) (uri s) (options s) (state s) (start_time s) (motion_ts s) (loop_thread s) (loop s) (pc s) (signaling s) (ffmpeg_process s) (video_pipe s) (audio_pipe s) (_stop_event s) (_video_track s) (_audio_track s) v.

(** What the session does to the outside, in order. [Assign] records every
    assignment to [self.state]. *)
Inductive effect :=
  | Assign (s : StreamStatus.t)
  | ThreadStart (name : string)
  | LoopStop
  | Join (name : string)
  | Sleep (seconds : Z)
  | GetKvsSignal (uri : string)
  | WsSend (frame : string)
  | WsClose
  | PcClose
  | CreateTask
  | Mkfifo (path : string)
  | Remove (path : string)
  | Spawn (cmd : list string)
  | Terminate
  | Kill.

(** The session in its environment: the object, the names present in the
    file system, the effects so far, and the local [_media_started] of the
    running coroutine. *)
Record World := mkWorld {
  self : WebRtcStream;
  files : gset string;
  trace : list effect;
  _media_started : bool
}.

Definition update (f : WebRtcStream -> WebRtcStream) : M World unit :=
  modify (fun w => mkWorld (f (self w)) (files w) (trace w) (_media_started w)).

Definition perform (e : effect) : M World unit :=
  modify (fun w => mkWorld (self w) (files w) (trace w ++ [e]) (_media_started w)).

Definition set_files (f : gset string -> gset string) : M World unit :=
  modify (fun w => mkWorld (self w) (f (files w)) (trace w) (_media_started w)).

Definition set_media_started (b : bool) : M World unit :=
  modify (fun w => mkWorld (self w) (files w) (trace w) b).

Definition read {A} (f : WebRtcStream -> A) : M World A := gets (f ∘ self).

(** [self.state = s]. *)
Definition assign_state (s : StreamStatus.t) : M World unit :=
  update (set_state s);; perform (Assign s).

(** The properties [connected] and [enabled]. *)
Definition connected (s : WebRtcStream) : bool :=
  bool_decide (state s = CONNECTED).

Definition enabled (s : WebRtcStream) : bool :=
  negb (bool_decide (state s = DISABLED)).

(** The property [motion], at time [now]. *)
Definition motion (now : Z) (s : WebRtcStream) : bool :=
  negb (Z.eqb (motion_ts s) 0) && Z.ltb (now - motion_ts s) 60.

(** [init]. *)
Definition init : M World bool :=
  assign_state INITIALIZING;; mret true.

(** [start]. *)
Definition start : M World bool :=
  st ← read state;
  if negb (bool_decide (st ∈ [STOPPED; INITIALIZING])) then mret false
  else
    assign_state CONNECTING;;
    update (set_stop_event false);;
    u ← read uri;
    update (set_loop_thread (Some ("webrtc_" +:+ u)));;
    perform (ThreadStart ("webrtc_" +:+ u));;
    mret true.

(** A method of [self.signaling], run on the client the session holds; the
    frames it sends join the trace. *)
Definition on_signaling {A} (m : M Kvs.Channel A) : M World A :=
  fun w =>
    match signaling (self w) with
    | None => (Raise AttributeError, w)
    | Some c =>
        let '(r, ch) := m (Kvs.mkChannel c [] []) in
        (r, mkWorld (set_signaling (Some (Kvs.client ch)) (self w)) (files w)
              (trace w ++ map WsSend (Kvs.sent ch)) (_media_started w))
    end.

(** [os.remove(path)]; the session is the only writer of its paths. *)
Definition os_remove (path : string) : M World unit :=
  set_files (fun fs => fs ∖ {[path]});; perform (Remove path).

(** [os.mkfifo(path)]. *)
Definition os_mkfifo (path : string) : M World unit :=
  fs ← gets files;
  if bool_decide (path ∈ fs) then raise FileExistsError
  else set_files (fun fs => fs ∪ {[path]});; perform (Mkfifo path).

(** One turn of the loop [for pipe in [self.video_pipe, self.audio_pipe]]. *)
Definition remove_pipe (pipe : option string) : M World unit :=
  match pipe with
  | Some path =>
      fs ← gets files;
      when (negb (String.eqb path "") && bool_decide (path ∈ fs))
        (suppress [OSError] (os_remove path))
  | None => mret tt
  end.

(** [self.ffmpeg_process.wait(timeout=3)]. *)
Definition wait (p : Popen) : M World unit :=
  if heeds_terminate p then mret tt else raise TimeoutExpired.

(** [_cleanup]. *)
Definition _cleanup : M World unit :=
  p ← read pc;
  when (bool_decide (is_Some p)) (perform PcClose;; update (set_pc None));;
  sg ← read signaling;
  when (bool_decide (is_Some sg))
    (on_signaling Kvs.close;; perform WsClose;; update (set_signaling None));;
  fp ← read ffmpeg_process;
  match fp with
  | Some proc =>
      perform Terminate;;
      try_except_all (wait proc) (perform Kill);;
      update (set_ffmpeg_process None)
  | None => mret tt
  end;;
  vp ← read video_pipe;
  ap ← read audio_pipe;
  remove_pipe vp;;
  remove_pipe ap;;
  update (set_video_pipe None);;
  update (set_audio_pipe None);;
  update (set_video_track None);;
  update (set_audio_track None);;
  st ← read state;
  when (negb (bool_decide (st ∈ [STOPPED; STOPPING]))) (assign_state STOPPED).

(** The loop [while not self._stop_event.is_set(): await asyncio.sleep(1)]:
    over once the event is set, suspended until then. *)
Definition wait_until_stopped : M World unit :=
  stopped ← read _stop_event;
  if stopped : bool then mret tt else suspend.

(** The [try ... except Exception ... finally] of [_connect_webrtc] around
    what is left of its body. *)
Definition connect_frame (body : M World unit) : M World unit :=
  try_finally (try_except body Exception_ (assign_state STOPPED)) _cleanup.

(** The [try ... except Exception ... finally] of [_run_event_loop] around
    [run_until_complete]. *)
Definition loop_frame (run_until_complete : M World unit) : M World unit :=
  try_finally
    (try_except run_until_complete Exception_ (assign_state STOPPED))
    (update (set_loop None)).

(** What the worker thread does while a caller waits in
    [self.loop_thread.join(timeout=5)]. *)
Inductive worker :=
  | CurrentThread
    (** the caller is the worker: [join] raises [RuntimeError] *)
  | StillRunning
    (** nothing: the thread had ended before, or the five seconds pass *)
  | Unwinds
    (** the coroutine sees the stop event, leaves its loop and returns
        through its [finally]; then [_run_event_loop] returns *)
  | LoopStopped.
    (** [loop.stop()] takes effect first: [run_until_complete] raises
        [RuntimeError] in [_run_event_loop]; the coroutine is not resumed *)

(** The work of another thread: its outcome is not the caller's. *)
Definition in_thread (m : M World unit) : M World unit :=
  fun w => (Return tt, snd (m w)).

Definition join (name : string) (wk : worker) : M World unit :=
  perform (Join name);;
  match wk with
  | CurrentThread => raise RuntimeError
  | StillRunning => mret tt
  | Unwinds => in_thread (loop_frame (connect_frame wait_until_stopped))
  | LoopStopped => in_thread (loop_frame (raise RuntimeError))
  end.

(** [stop]. *)
Definition stop (wk : worker) : M World bool :=
  st ← read state;
  if bool_decide (st = STOPPED) then mret true
  else
    assign_state STOPPING;;
    update (set_stop_event true);;
    lp ← read loop;
    when (match lp with Some l => is_running l | None => false end)
      (perform LoopStop);;
    th ← read loop_thread;
    match th with
    | Some name =>
        suppress [ValueError; AttributeError; RuntimeError] (join name wk);;
        update (set_loop_thread None)
    | None => mret tt
    end;;
    assign_state STOPPED;;
    mret true.

(** [enable]. *)
Definition enable : M World bool :=
  st ← read state;
  when (bool_decide (st = DISABLED)) (assign_state STOPPED);;
  mret true.

(** [disable]. *)
Definition disable (wk : worker) : M World bool :=
  stop wk;;
  assign_state DISABLED;;
  mret true.

(** The delay of [_handle_failure]: [min(2 ** self._reconnect_count, 60)]. *)
Definition backoff (reconnect_count : Z) : Z :=
  Z.min (2 ^ reconnect_count) 60.

(** [_handle_failure]. *)
Definition _handle_failure (wk : worker) : M World unit :=
  stop wk;;
  opts ← read options;
  when (reconnect opts)
    (n ← read _reconnect_count;
     update (set_reconnect_count (n + 1));;
     n ← read _reconnect_count;
     if Z.ltb n 10 then
       let delay := backoff n in
       perform (Sleep delay);;
       start;;
       mret tt
     else mret tt).

(** [health_check], at time [now]. *)
Definition health_check (now : Z) (wk : worker) : M World StreamStatus.t :=
  st ← read state;
  if bool_decide (st = CONNECTED) then
    fp ← read ffmpeg_process;
    if match fp with Some proc => bool_decide (is_Some (returncode proc)) | None => false end
    then _handle_failure wk;; read state
    else
      p ← read pc;
      match p with
      | Some conn =>
          let ice_state := iceConnectionState conn in
          if String.eqb ice_state "failed" || String.eqb ice_state "closed"
          then _handle_failure wk;; read state
          else read state
      | None => read state
      end
  else read state.

(** The dictionary [info] of [get_info], at time [now]. *)
Definition info (now : Z) (s : WebRtcStream) : list (string * pyval) :=
  [("uri", PStr (uri s));
   ("nickname", PStr (nickname (camera s)));
   ("state", PInt (value (state s)));
   ("connected", PBool (connected s));
   ("enabled", PBool (enabled s));
   ("motion", PBool (motion now s));
   ("uptime", PInt (if Z.eqb (start_time s) 0 then 0 else now - start_time s));
   ("reconnects", PInt (_reconnect_count s))].

(** [get_info]: [info.get(item) if item else info]. *)
Definition get_info (now : Z) (item : option string) (s : WebRtcStream) : pyval :=
  match item with
  | Some name =>
      if negb (String.eqb name "") then default PNone (dict_get name (info now s))
      else PDict (info now s)
  | None => PDict (info now s)
  end.

(** [status]. *)
Definition status (s : WebRtcStream) : string :=
  match state s with
  | OFFLINE => "offline"
  | STOPPING => "stopping"
  | DISABLED => "disabled"
  | STOPPED => "stopped"
  | CONNECTING => "connecting"
  | CONNECTED => "connected"
  | INITIALIZING => "initializing"
  end.

(** [get_webrtc_ffmpeg_cmd] of [ffmpeg.py]; the transport and the log level
    come from the process environment. *)
Definition get_webrtc_ffmpeg_cmd (rtsp_transport level uri : string) (has_audio : bool)
  : list string :=
  let video_input :=
    ["-thread_queue_size"; "8"; "-f"; "h264"; "-i"; "/tmp/" +:+ uri +:+ "_video.pipe"] in
  let audio_input :=
    if has_audio
    then ["-thread_queue_size"; "8"; "-f"; "aac"; "-i"; "/tmp/" +:+ uri +:+ "_audio.pipe"]
    else [] in
  let audio_map := if has_audio then ["-map"; "1:a"; "-c:a"; "copy"] else [] in
  ["ffmpeg"; "-hide_banner"; "-loglevel"; level]
    ++ video_input ++ audio_input
    ++ ["-map"; "0:v"; "-c:v"; "copy"]
    ++ audio_map
    ++ ["-f"; "rtsp"; "-rtsp_transport"; rtsp_transport]
    ++ ["rtsp://127.0.0.1:8554/" +:+ uri].

(** What the environment decides while media is set up. *)
Record MediaEnv := {
  rtsp_transport : string;
  log_level : string;
  popen_raises : option pyexn;
  (** [Popen] fails to start the subprocess *)
  obedient : bool;
  (** the subprocess, once started, exits on [terminate] *)
  pumps_raise : option pyexn
  (** [asyncio.gather] over the two pumps raises *)
}.

(** The truth value of a pipe attribute: a non-empty path. *)
Definition pipe_set (pipe : option string) : bool :=
  match pipe with
  | Some path => negb (String.eqb path "")
  | None => false
  end.

(** [_start_ffmpeg]. *)
Definition _start_ffmpeg (env : MediaEnv) : M World unit :=
  u ← read uri;
  ap ← read audio_pipe;
  let cmd := get_webrtc_ffmpeg_cmd (rtsp_transport env) (log_level env) u (pipe_set ap) in
  match popen_raises env with
  | Some e => raise e
  | None =>
      perform (Spawn cmd);;
      update (set_ffmpeg_process
                (Some {| args := cmd; returncode := None; heeds_terminate := obedient env |}))
  end.

(** [os.mkfifo(pipe)] on a pipe attribute. *)
Definition mkfifo_attr (pipe : option string) : M World unit :=
  match pipe with
  | Some path => os_mkfifo path
  | None => raise TypeError
  end.

(** [await asyncio.gather] over the pumps, which run until the stop event. *)
Definition gather_pumps (env : MediaEnv) : M World unit :=
  match pumps_raise env with
  | Some e => raise e
  | None => wait_until_stopped
  end.

(** [_handle_media_tracks]. *)
Definition _handle_media_tracks (env : MediaEnv) (wk : worker) : M World unit :=
  try_except
    (u ← read uri;
     update (set_video_pipe (Some ("/tmp/" +:+ u +:+ "_video.pipe")));;
     opts ← read options;
     at_ ← read _audio_track;
     when (audio opts && bool_decide (is_Some at_))
       (update (set_audio_pipe (Some ("/tmp/" +:+ u +:+ "_audio.pipe"))));;
     vp ← read video_pipe;
     suppress [FileExistsError] (mkfifo_attr vp);;
     ap ← read audio_pipe;
     when (pipe_set ap) (suppress [FileExistsError] (mkfifo_attr ap));;
     _start_ffmpeg env;;
     gather_pumps env)
    Exception_
    (_handle_failure wk).

(** The handler [on_track] of [_connect_webrtc]. *)
Definition on_track (track : MediaStreamTrack) : M World unit :=
  opts ← read options;
  (if String.eqb (kind track) "video" then update (set_video_track (Some track))
   else if String.eqb (kind track) "audio" && audio opts
        then update (set_audio_track (Some track))
        else mret tt);;
  started ← gets _media_started;
  vt ← read _video_track;
  at_ ← read _audio_track;
  when (negb started && bool_decide (is_Some vt)
        && (negb (audio opts) || bool_decide (is_Some at_)))
    (set_media_started true;; perform CreateTask).

(** The handler [on_ice_state_change] of [_connect_webrtc], at time [now]. *)
Definition on_ice_state_change (now : Z) : M World unit :=
  p ← read pc;
  match p with
  | None => mret tt
  | Some conn =>
      let ice_state := iceConnectionState conn in
      if String.eqb ice_state "connected" then
        assign_state CONNECTED;;
        update (set_start_time now);;
        update (set_reconnect_count 0)
      else if String.eqb ice_state "checking" then mret tt
      else if String.eqb ice_state "disconnected" then mret tt
      else if String.eqb ice_state "failed" || String.eqb ice_state "closed" then _cleanup
      else mret tt
  end.

(** The transport moves the ICE state of the live peer connection and fires
    the handler. *)
Definition ice_state_becomes (ice_state : string) (now : Z) : M World unit :=
  p ← read pc;
  match p with
  | None => mret tt
  | Some conn =>
      update (set_pc (Some (mkPc (iceServers conn) (transceivers conn) ice_state
                              (connectionState conn) (localDescription conn))));;
      on_ice_state_change now
  end.

(** The record [api.get_kvs_signal(uri)] returns; a key the dictionary
    lacks is [None]. *)
Record IceServerEntry := {
  entry_urls : option pyval;
  entry_username : option pyval;
  entry_credential : option pyval
}.

Record SignalData := {
  result : option string;
  signalingUrl : option string;
  ClientId : option string;
  signalToken : option string;
  servers : option (list IceServerEntry)
}.

(** What the environment decides during a connection attempt. *)
Record ConnectEnv := {
  kvs_signal : SignalData;
  ws_refused : option pyexn;
  (** [websockets.connect] raises *)
  offer : option string;
  (** the SDP of the local description; [None]: creating it raises *)
  answer_handler : Kvs.callback;
  candidate_handler : Kvs.callback
  (** the closures [on_answer] and [on_remote_ice_candidate] *)
}.

(** [d[key]]. *)
Definition subscript {A} (entry : option A) : M World A :=
  match entry with
  | Some v => mret v
  | None => raise KeyError
  end.

(** [RTCIceServer] applied to [ice_server_config]: [urls] is required. *)
Definition ice_server (e : IceServerEntry) : M World RTCIceServer :=
  match entry_urls e with
  | Some u => mret {| urls := u; username := entry_username e;
                      credential := entry_credential e |}
  | None => raise TypeError
  end.

Fixpoint ice_servers_of (entries : list IceServerEntry) : M World (list RTCIceServer) :=
  match entries with
  | [] => mret []
  | e :: rest =>
      srv ← ice_server e;
      more ← ice_servers_of rest;
      mret (srv :: more)
  end.

Definition add_transceiver (kind direction : string) : M World unit :=
  p ← read pc;
  match p with
  | Some conn =>
      update (set_pc (Some (mkPc (iceServers conn) (transceivers conn ++ [(kind, direction)])
                              (iceConnectionState conn) (connectionState conn)
                              (localDescription conn))))
  | None => raise AttributeError
  end.

Definition set_local_description (sdp : string) : M World unit :=
  p ← read pc;
  match p with
  | Some conn =>
      update (set_pc (Some (mkPc (iceServers conn) (transceivers conn)
                              (iceConnectionState conn) (connectionState conn) (Some sdp))))
  | None => raise AttributeError
  end.

Section WithCodecs.
Context `{Codecs}.

(** The [try] block of [_connect_webrtc]. *)
Definition connect_body (env : ConnectEnv) : M World unit :=
  u ← read uri;
  perform (GetKvsSignal u);;
  let signal_data := kvs_signal env in
  if negb (bool_decide (result signal_data = Some "ok")) then raise Exception_
  else
    signaling_url ← subscript (signalingUrl signal_data);
    client_id ← subscript (ClientId signal_data);
    token ← subscript (signalToken signal_data);
    update (set_signaling (Some (Kvs.__init__ signaling_url client_id token)));;
    on_signaling (Kvs.connect (ws_refused env));;
    ice_servers ← ice_servers_of (default [] (servers signal_data));
    let ice_servers :=
      match ice_servers with
      | [] => [{| urls := PStr "stun:stun.l.google.com:19302";
                  username := None; credential := None |}]
      | _ => ice_servers
      end in
    update (set_pc (Some (mkPc ice_servers [] "new" "new" None)));;
    add_transceiver "video" "sendrecv";;
    add_transceiver "audio" "sendrecv";;
    set_media_started false;;
    on_signaling (Kvs.on_client
      (Kvs.set_callbacks (Some (answer_handler env)) (Some (candidate_handler env))));;
    match offer env with
    | None => raise Exception_
    | Some sdp =>
        set_local_description sdp;;
        on_signaling (Kvs.send_offer sdp)
    end;;
    wait_until_stopped.

(** [_connect_webrtc]. *)
Definition _connect_webrtc (env : ConnectEnv) : M World unit :=
  connect_frame (connect_body env).

(** [_run_event_loop], the entry point of the worker thread. *)
Definition _run_event_loop (env : ConnectEnv) : M World unit :=
  update (set_loop (Some {| is_running := false |}));;
  update (set_loop (Some {| is_running := true |}));;
  loop_frame (_connect_webrtc env).

End WithCodecs.

(** [WebRtcStream.__init__]. *)
Definition __init__ (cam : WyzeCamera) (opts : WyzeStreamOptions) : WebRtcStream :=
  {| camera := cam; uri := name_uri cam; options := opts;
     state := STOPPED; start_time := 0; motion_ts := 0;
     loop_thread := None; loop := None; pc := None; signaling := None;
     ffmpeg_process := None; video_pipe := None; audio_pipe := None;
     _stop_event := false; _video_track := None; _audio_track := None;
     _reconnect_count := 0 |}.

End WebRtc.

(** ** [webrtc_stream.py]: the two pumps *)

(** [_write_video_track] and [_write_audio_track] encode the frames of a
    track and write the packets to a pipe. The encoder belongs to PyAV: it
    is a state [E] and a function [encode] that, for a frame or for [None]
    (the flush), returns packets or raises, and leaves a new state. *)
Module Pump.

(** What [await asyncio.wait_for(track.recv(), timeout)] comes back with. *)
Inductive recv (Frame : Type) :=
  | Got (frame : Frame)
  | TimedOut
    (** [asyncio.TimeoutError] *)
  | Failed (e : pyexn).
Arguments Got {Frame} frame.
Arguments TimedOut {Frame}.
Arguments Failed {Frame} e.

Section WithCodec.
Context {Frame Packet E : Type}.
Variable encode : option Frame -> E -> (list Packet + pyexn) * E.

(** The pump at work: the encoder once created, the packets written to the
    pipe so far, how many more the reader will take before the pipe breaks
    ([None]: it keeps reading), and the local [frame_count]. *)
Record Sink := mkSink {
  codec : option E;
  written : list Packet;
  room : option nat;
  frame_count : nat
}.

(** What the environment decides: whether creating and opening the
    encoder succeeds, and whether opening the pipe does. *)
Record PumpEnv := {
  codec_create : E + pyexn;
  open_raises : option pyexn
}.

(** [codec.encode(frame)]. *)
Definition codec_encode (frame : option Frame) : M Sink (list Packet) :=
  fun s =>
    match codec s with
    | None => (Raise AttributeError, s)
    | Some e =>
        let s' := mkSink (Some (snd (encode frame e))) (written s) (room s) (frame_count s) in
        match fst (encode frame e) with
        | inl packets => (Return packets, s')
        | inr ex => (Raise ex, s')
        end
    end.

(** [pipe.write(bytes(packet))]. *)
Definition pipe_write (packet : Packet) : M Sink unit :=
  fun s =>
    match room s with
    | Some O => (Raise OSError, s)
    | Some (S n) => (Return tt, mkSink (codec s) (written s ++ [packet]) (Some n) (frame_count s))
    | None => (Return tt, mkSink (codec s) (written s ++ [packet]) None (frame_count s))
    end.

(** [for packet in packets: pipe.write(bytes(packet))], then the flush of
    the file object. *)
Fixpoint write_all (packets : list Packet) : M Sink unit :=
  match packets with
  | [] => mret tt
  | packet :: rest => pipe_write packet;; write_all rest
  end.

Definition encode_and_write (frame : option Frame) : M Sink unit :=
  packets ← codec_encode frame;
  write_all packets.

Definition count_frame : M Sink unit :=
  modify (fun s => mkSink (codec s) (written s) (room s) (S (frame_count s))).

(** The loop [while not self._stop_event.is_set()] of the video pump over
    what [recv] delivers until the stop event is seen set: a timeout goes
    on to the next turn, any other [Exception] leaves the loop. *)
Fixpoint video_loop (feed : list (recv Frame)) : M Sink unit :=
  match feed with
  | [] => mret tt
  | TimedOut :: rest => video_loop rest
  | Failed e :: rest => if isinstance e Exception_ then mret tt else raise e
  | Got frame :: rest =>
      fun s =>
        match (count_frame;; encode_and_write (Some frame)) s with
        | (Return _, s') => video_loop rest s'
        | (Raise e, s') => if isinstance e Exception_ then (Return tt, s') else (Raise e, s')
        | (Pending, s') => (Pending, s')
        end
  end.

Definition create_codec (env : PumpEnv) : M Sink unit :=
  match codec_create env with
  | inl e => modify (fun s => mkSink (Some e) (written s) (room s) (frame_count s))
  | inr ex => raise ex
  end.

Definition open_pipe (env : PumpEnv) : M Sink unit :=
  match open_raises env with
  | Some ex => raise ex
  | None => mret tt
  end.

(** [_write_video_track]; [first] is what the wait for the first frame
    comes back with. Both [except] clauses of the outer [try] only log. *)
Definition _write_video_track (env : PumpEnv) (video_track : option WebRtc.MediaStreamTrack)
    (first : recv Frame) (feed : list (recv Frame)) : M Sink unit :=
  match video_track with
  | None => mret tt
  | Some _ =>
      try_except
        (match first with
         | TimedOut => mret tt
         | Failed e => raise e
         | Got first_frame =>
             create_codec env;;
             open_pipe env;;
             count_frame;;
             encode_and_write (Some first_frame);;
             video_loop feed;;
             encode_and_write None
         end)
        Exception_ (mret tt)
  end.

(** The loop of the audio pump. *)
Fixpoint audio_loop (feed : list (recv Frame)) : M Sink unit :=
  match feed with
  | [] => mret tt
  | TimedOut :: rest => audio_loop rest
  | Failed e :: rest => if isinstance e Exception_ then mret tt else raise e
  | Got frame :: rest =>
      fun s =>
        match encode_and_write (Some frame) s with
        | (Return _, s') => audio_loop rest s'
        | (Raise e, s') => if isinstance e Exception_ then (Return tt, s') else (Raise e, s')
        | (Pending, s') => (Pending, s')
        end
  end.

(** [_write_audio_track]: the encoder is created before the [try]. *)
Definition _write_audio_track (env : PumpEnv) (feed : list (recv Frame)) : M Sink unit :=
  create_codec env;;
  try_except
    (open_pipe env;;
     audio_loop feed;;
     encode_and_write None)
    Exception_ (mret tt).

(** A pump that has not started: nothing written, no encoder. *)
Definition idle (room : option nat) : Sink := mkSink None [] room 0.

End WithCodec.
End Pump.

(** ** [ffmpeg.py]: the log level and the transport *)

(** The log levels FFmpeg knows. *)
Definition ffmpeg_loglevels : list string :=
  ["quiet"; "panic"; "fatal"; "error"; "warning"; "info"; "verbose"; "debug"].

(** [get_log_level]; [level] is the value of [FFMPEG_LOGLEVEL] in lower
    case, as [env_bool] of [bridge_utils] and [str.lower] hand it over. *)
Definition get_log_level (level : string) : string :=
  if existsb (String.eqb level) ffmpeg_loglevels then level else "warning".

(** The transport [get_webrtc_ffmpeg_cmd] picks from the value of
    [MTX_RTSPTRANSPORTS]. *)
Definition webrtc_rtsp_transport (mtx_rtsptransports : string) : string :=
  if contains "udp" mtx_rtsptransports then "udp" else "tcp".

(** ** Vocabulary of the properties *)

Import WebRtc StreamStatus.

(** The values assigned to [self.state], in order. *)
Definition writes (effects : list effect) : list StreamStatus.t :=
  omap (fun e => match e with Assign s => Some s | _ => None end) effects.

(** What was performed between two worlds, and the states written then. *)
Definition new_effects (w w' : World) : list effect :=
  drop (length (trace w)) (trace w').

Definition history (w w' : World) : list StreamStatus.t :=
  writes (new_effects w w').

(** The transition table of the session state machine as the specification
    words it (section 4.2): [init] leads to Initializing from any state;
    [start] leads from Stopped or Initializing to Connecting; the transport
    reporting connected leads from Connecting to Connected; [stop] leads
    from any state but Stopped to Stopping and from there to Stopped;
    Disabled is entered from any state that is not Connecting; [enable]
    leads from Disabled to Stopped; Offline is entered when the camera is
    known unreachable. *)
Definition transition (a b : StreamStatus.t) : bool :=
  match b with
  | INITIALIZING => true
  | CONNECTING => bool_decide (a = STOPPED) || bool_decide (a = INITIALIZING)
  | CONNECTED => bool_decide (a = CONNECTING)
  | STOPPING => negb (bool_decide (a = STOPPED))
  | STOPPED => bool_decide (a = STOPPING) || bool_decide (a = DISABLED)
  | DISABLED => negb (bool_decide (a = CONNECTING))
  | OFFLINE => true
  end.

(** A sequence of writes that, from state [a], only re-assigns the current
    state or moves along a transition of the table. *)
Fixpoint follows (a : StreamStatus.t) (l : list StreamStatus.t) : bool :=
  match l with
  | [] => true
  | b :: l' => (bool_decide (a = b) || transition a b) && follows b l'
  end.

(** The calls of the public interface that drive the state machine, and the
    failure handling the session runs on its own. *)
Inductive api_call :=
  | CallInit
  | CallStart
  | CallStop (wk : worker)
  | CallDisable (wk : worker)
  | CallEnable
  | CallHealthCheck (now : Z) (wk : worker)
  | HandleFailure (wk : worker).

Definition perform_call (c : api_call) : M World unit :=
  match c with
  | CallInit => init;; mret tt
  | CallStart => start;; mret tt
  | CallStop wk => stop wk;; mret tt
  | CallDisable wk => disable wk;; mret tt
  | CallEnable => enable;; mret tt
  | CallHealthCheck now wk => health_check now wk;; mret tt
  | HandleFailure wk => _handle_failure wk
  end.

Fixpoint run_calls (calls : list api_call) (w : World) : World :=
  match calls with
  | [] => w
  | c :: rest => run_calls rest (snd (perform_call c w))
  end.

(** The session holds no transport, socket, subprocess, pipe or track. *)
Definition released (s : WebRtcStream) : Prop :=
  pc s = None ∧ signaling s = None ∧ ffmpeg_process s = None ∧
  video_pipe s = None ∧ audio_pipe s = None ∧
  _video_track s = None ∧ _audio_track s = None.

(** The paths [_handle_media_tracks] derives from the camera's URI. *)
Definition video_path (s : WebRtcStream) : string := "/tmp/" +:+ uri s +:+ "_video.pipe".

Definition audio_path (s : WebRtcStream) : string := "/tmp/" +:+ uri s +:+ "_audio.pipe".

(** The eight keys of the dictionary [get_info] builds. *)
Definition info_fields : list string :=
  ["uri"; "nickname"; "state"; "connected"; "enabled"; "motion"; "uptime"; "reconnects"].

(** Effects that start or restart work: none of them occurs while a
    session is only being stopped. *)
Definition calm (e : effect) : bool :=
  match e with
  | Sleep _ | ThreadStart _ | Mkfifo _ | Spawn _ | GetKvsSignal _ => false
  | _ => true
  end.

(** The characters a URL-encoded query value is made of. *)
Definition url_encoded_char (c : ascii) : bool :=
  Kvs.always_safe c || Ascii.eqb c "%".

Fixpoint string_forall (p : ascii -> bool) (s : string) : bool :=
  match s with
  | EmptyString => true
  | String c s' => p c && string_forall p s'
  end.

Section Undecodable.
Context `{Codecs}.

(** The text of a frame, when it has one. *)
Definition frame_text (m : Kvs.frame) : option string :=
  match m with
  | Kvs.Text s => Some s
  | Kvs.Binary b => utf8_decode b
  end.

(** A payload a decoder raises on: [b64decode] rejects it, or the bytes are
    not UTF-8, or [json.loads] rejects the decoded text. *)
Definition rejected_payload (encoded : string) : bool :=
  match b64decode encoded with
  | None => true
  | Some bytes =>
      match utf8_decode bytes with
      | None => true
      | Some text => negb (bool_decide (is_Some (json_loads text)))
      end
  end.

(** A signaling message one of the decoders the code calls raises on, or
    that has no payload: [json.loads] rejects the frame, or the envelope has
    no [messagePayload], or a decoder rejects the payload. This is not the
    same as a payload that is not valid base64: what [b64decode] accepts
    is for [b64decode] to say (see [Base64] below). *)
Definition undecodable (m : Kvs.frame) : bool :=
  match frame_text m with
  | None => true
  | Some text =>
      match json_loads text with
      | None => true
      | Some (PDict d) =>
          match dict_get "messagePayload" d with
          | None => true
          | Some (PStr encoded) => rejected_payload encoded
          | Some _ => false
          end
      | Some _ => false
      end
  end.

End Undecodable.

(** ** [base64.b64decode] as the handler calls it *)

(** [_handle_message] calls [base64.b64decode(encoded_payload)] and leaves
    [validate] at its default, [False]. That decoder of the standard
    library ([binascii.a2b_base64], not strict) is lenient: it skips every
    character outside the alphabet, stops at the padding that completes a
    group of four and ignores what follows it, and raises only when the
    data characters leave a group incomplete. Text that is not ASCII is
    refused before that. *)
Module Base64.

(** The value of a character of the alphabet [A-Z a-z 0-9 + /]. *)
Definition value (c : ascii) : option nat :=
  let n := nat_of_ascii c in
  if ((65 <=? n) && (n <=? 90))%nat then Some (n - 65)%nat
  else if ((97 <=? n) && (n <=? 122))%nat then Some (n - 71)%nat
  else if ((48 <=? n) && (n <=? 57))%nat then Some (n + 4)%nat
  else if Ascii.eqb c "+" then Some 62%nat
  else if Ascii.eqb c "/" then Some 63%nat
  else None.

(** The loop of [a2b_base64]: [quad_pos] characters of the current group
    have been read, [leftchar] holds their bits not yet written, and [pads]
    padding characters came since the last data character. *)
Fixpoint a2b (s : string) (quad_pos leftchar pads : nat) : option string :=
  match s with
  | EmptyString => if Nat.eqb quad_pos 0 then Some EmptyString else None
  | String c rest =>
      if Ascii.eqb c "=" then
        if (2 <=? quad_pos)%nat then
          if (4 <=? quad_pos + S pads)%nat then Some EmptyString
          else a2b rest quad_pos leftchar (S pads)
        else a2b rest quad_pos leftchar pads
      else
        match value c with
        | None => a2b rest quad_pos leftchar pads
        | Some v =>
            match quad_pos with
            | O => a2b rest 1 v 0
            | 1%nat =>
                option_map (String (ascii_of_nat (leftchar * 4 + v / 16)))
                  (a2b rest 2 (v mod 16) 0)
            | 2%nat =>
                option_map (String (ascii_of_nat (leftchar * 16 + v / 4)))
                  (a2b rest 3 (v mod 4) 0)
            | _ =>
                option_map (String (ascii_of_nat (leftchar * 64 + v)))
                  (a2b rest 0 0 0)
            end
        end
  end.

Fixpoint is_ascii (s : string) : bool :=
  match s with
  | EmptyString => true
  | String c rest => (nat_of_ascii c <? 128)%nat && is_ascii rest
  end.

(** [base64.b64decode(s)]; [None] stands for the exception it raises. *)
Definition b64decode (s : string) : option string :=
  if is_ascii s then a2b s 0 0 0 else None.

Definition in_alphabet (c : ascii) : bool :=
  match value c with Some _ => true | None => false end.

(** Valid base64 as RFC 4648 has it, and as [b64decode] with
    [validate=True] would require: groups of four characters of the
    alphabet, the last group padded with one or two [=]. *)
Fixpoint valid (s : string) : bool :=
  match s with
  | EmptyString => true
  | String a (String b (String c (String d rest))) =>
      in_alphabet a && in_alphabet b &&
      match rest with
      | EmptyString =>
          (in_alphabet c && (in_alphabet d || Ascii.eqb d "="))
          || (Ascii.eqb c "=" && Ascii.eqb d "=")
      | _ => in_alphabet c && in_alphabet d && valid rest
      end
  | _ => false
  end.

End Base64.

(** ** The closed form of [_cleanup] *)

(** The files left once the loop of [_cleanup] has handled [pipe]. *)
Definition drop_pipe (pipe : option string) (fs : gset string) : gset string :=
  match pipe with
  | Some path => if negb (String.eqb path "") && bool_decide (path ∈ fs) then fs ∖ {[path]} else fs
  | None => fs
  end.

(** The removal that turn of the loop performs. *)
Definition pipe_effects (pipe : option string) (fs : gset string) : list effect :=
  match pipe with
  | Some path => if negb (String.eqb path "") && bool_decide (path ∈ fs) then [Remove path] else []
  | None => []
  end.

(** The object [_cleanup] leaves behind. *)
Definition tidy (s : WebRtcStream) : WebRtcStream :=
  mkStream (camera s) (uri s) (options s)
    (if bool_decide (state s ∈ [STOPPED; STOPPING]) then state s else STOPPED)
    (start_time s) (motion_ts s) (loop_thread s) (loop s) None None None None None
    (_stop_event s) None None (_reconnect_count s).

(** What [_cleanup] performs, and the world it leaves behind. *)
Definition cleanup_effects (w : World) : list effect :=
  let s := self w in
  (if bool_decide (is_Some (pc s)) then [PcClose] else []) ++
  (if bool_decide (is_Some (signaling s)) then [WsClose] else []) ++
  match ffmpeg_process s with
  | Some p => Terminate :: (if heeds_terminate p then [] else [Kill])
  | None => []
  end ++
  pipe_effects (video_pipe s) (files w) ++
  pipe_effects (audio_pipe s) (drop_pipe (video_pipe s) (files w)) ++
  (if bool_decide (state s ∈ [STOPPED; STOPPING]) then [] else [Assign STOPPED]).

Definition cleaned (w : World) : World :=
  mkWorld (tidy (self w))
    (drop_pipe (audio_pipe (self w)) (drop_pipe (video_pipe (self w)) (files w)))
    (trace w ++ cleanup_effects w) (_media_started w).

(** ** A weakest-precondition calculus for [M] *)

(** [wp m Q s]: run from [s], [m] ends with an outcome and in a state that
    satisfy [Q]. *)
Definition wp {S A} (m : M S A) (Q : outcome A -> S -> Prop) (s : S) : Prop :=
  Q (fst (m s)) (snd (m s)).

(** ** Closed forms of the methods *)

(** A world with its object, or its trace, changed. *)
Definition with_self (f : WebRtcStream -> WebRtcStream) (w : World) : World :=
  mkWorld (f (self w)) (files w) (trace w) (_media_started w).

Definition with_effects (l : list effect) (w : World) : World :=
  mkWorld (self w) (files w) (trace w ++ l) (_media_started w).

(** [self.loop and self.loop.is_running()]. *)
Definition loop_running (s : WebRtcStream) : bool :=
  match loop s with
  | Some l => is_running l
  | None => false
  end.

(** The world a successful [start] leaves behind. *)
Definition started (w : World) : World :=
  mkWorld
    (set_loop_thread (Some ("webrtc_" +:+ uri (self w)))
       (set_stop_event false (set_state CONNECTING (self w))))
    (files w)
    (trace w ++ [Assign CONNECTING; ThreadStart ("webrtc_" +:+ uri (self w))])
    (_media_started w).

(** The world once the worker has done, during the wait of [join], what
    [wk] says it does. *)
Definition joined (wk : worker) (w : World) : World :=
  match wk with
  | CurrentThread | StillRunning => w
  | Unwinds => with_self (set_loop None) (cleaned w)
  | LoopStopped =>
      with_self (set_loop None)
        (with_effects [Assign STOPPED] (with_self (set_state STOPPED) w))
  end.

(** The world [stop] leaves behind. *)
Definition stopped (wk : worker) (w : World) : World :=
  if bool_decide (state (self w) = STOPPED) then w
  else
    let w1 :=
      with_effects (Assign STOPPING :: (if loop_running (self w) then [LoopStop] else []))
        (with_self (fun s => set_stop_event true (set_state STOPPING s)) w) in
    let w2 :=
      match loop_thread (self w1) with
      | Some name =>
          with_self (set_loop_thread None) (joined wk (with_effects [Join name] w1))
      | None => w1
      end in
    with_effects [Assign STOPPED] (with_self (set_state STOPPED) w2).

(** The states [stop] writes. *)
Definition stop_writes (wk : worker) (s : WebRtcStream) : list StreamStatus.t :=
  if bool_decide (state s = STOPPED) then []
  else
    STOPPING ::
      match loop_thread s, wk with
      | Some _, LoopStopped => [STOPPED]
      | _, _ => []
      end ++ [STOPPED].

(** The world [_handle_failure] leaves behind. *)
Definition failed (wk : worker) (w : World) : World :=
  let w1 := stopped wk w in
  if reconnect (options (self w1)) then
    let n := _reconnect_count (self w1) + 1 in
    let w2 := with_self (set_reconnect_count n) w1 in
    if Z.ltb n 10 then started (with_effects [Sleep (backoff n)] w2) else w2
  else w1.

(** One step of a run: the trace grows by writes that follow the table and
    the last of them is the state the session is left in. *)
Definition walks (w w' : World) : Prop :=
  exists suf : list effect,
    trace w' = trace w ++ suf /\
    follows (state (self w)) (writes suf) = true /\
    List.last (writes suf) (state (self w)) = state (self w').

(** The one effect that creates a pipe file. *)
Definition creates_pipe (e : effect) : bool :=
  match e with
  | Mkfifo _ => true
  | _ => false
  end.

(** The world a refused attempt leaves behind. *)
Definition refused (w : World) : World :=
  with_self (set_loop None)
    (cleaned
       (with_effects [GetKvsSignal (uri (self w)); Assign STOPPED]
          (with_self (fun s => set_state STOPPED (set_loop (Some {| is_running := true |}) s))
             w))).

(** [os.mkfifo] under [suppress(FileExistsError)]. *)
Definition mkfifo_tolerant (pipe : option string) : M World unit :=
  suppress [FileExistsError] (mkfifo_attr pipe).

(** The subprocess [_start_ffmpeg] starts. *)
Definition ffmpeg_of (env : MediaEnv) (s : WebRtcStream) : Popen :=
  {| args := get_webrtc_ffmpeg_cmd (rtsp_transport env) (log_level env) (uri s)
               (pipe_set (audio_pipe s));
     returncode := None; heeds_terminate := obedient env |}.

(** A channel with both callbacks registered. *)
Definition listening : Kvs.Channel :=
  Kvs.mkChannel
    (Kvs.set_callbacks (Some (fun _ => None)) (Some (fun _ => None))
       (Kvs.__init__ "wss://signal.example/v1" "phone 1" "t/k"))
    [] [].

(** ** Worked inputs *)

(** A codec that understands a handful of texts, enough to run the model. *)
Definition toy_codecs : Codecs := {|
  json_loads := fun s =>
    if String.eqb s "{}" then Some (PDict [])
    else if String.eqb s "answer"
    then Some (PDict [("messageType", PStr "SDP_ANSWER"); ("messagePayload", PStr "e30=")])
    else if String.eqb s "bare-answer"
    then Some (PDict [("messageType", PStr "SDP_ANSWER")])
    else None;
  json_dumps := fun _ => "{}";
  b64decode := fun s => if String.eqb s "e30=" then Some "{}" else None;
  b64encode := fun _ => "e30=";
  utf8_decode := fun s => Some s;
  str_strip := fun s => s
|}.

(** A JSON string literal without escapes. *)
Definition quoted (s : string) : string :=
  String (ascii_of_nat 34) (String.append s (String (ascii_of_nat 34) EmptyString)).

(** The text [{"messageType": "SDP_ANSWER", "messagePayload": <payload>}]. *)
Definition answer_envelope (payload : string) : string :=
  String.concat EmptyString
    ["{"; quoted "messageType"; ": "; quoted "SDP_ANSWER"; ", ";
     quoted "messagePayload"; ": "; quoted payload; "}"].

(** The codec of the standard library on the texts of the examples:
    [b64decode] is [Base64.b64decode]; [json.loads] is given on the
    texts they use ([NaN] is no JSON, yet [json.loads] reads it as a
    float). *)
Definition lenient_codecs : Codecs := {|
  json_loads := fun s =>
    if String.eqb s "{}" then Some (PDict [])
    else if String.eqb s "NaN" then Some (PFloat true)
    else if String.eqb s (answer_envelope "e30=!!!!")
    then Some (PDict [("messageType", PStr "SDP_ANSWER"); ("messagePayload", PStr "e30=!!!!")])
    else if String.eqb s (answer_envelope "TmFO")
    then Some (PDict [("messageType", PStr "SDP_ANSWER"); ("messagePayload", PStr "TmFO")])
    else if String.eqb s (answer_envelope "e30")
    then Some (PDict [("messageType", PStr "SDP_ANSWER"); ("messagePayload", PStr "e30")])
    else None;
  json_dumps := fun _ => "{}";
  b64decode := Base64.b64decode;
  b64encode := fun _ => "e30=";
  utf8_decode := fun s => Some s;
  str_strip := fun s => s
|}.

Definition front_door : WyzeCamera := {| name_uri := "front-door"; nickname := "Front Door" |}.

Definition with_audio : WyzeStreamOptions := {| audio := true; reconnect := true; bitrate := 180 |}.

(** A freshly constructed session on an empty [/tmp]. *)
Definition fresh : World := mkWorld (__init__ front_door with_audio) ∅ [] false.

Definition credentials_ok : ConnectEnv := {|
  kvs_signal := {| result := Some "ok"; signalingUrl := Some "wss://signal.example/v1";
                   ClientId := Some "phone 1"; signalToken := Some "t/k";
                   servers := None |};
  ws_refused := None;
  offer := Some "v=0";
  answer_handler := fun _ => None;
  candidate_handler := fun _ => None
|}.

Definition credentials_denied : ConnectEnv := {|
  kvs_signal := {| result := Some "denied"; signalingUrl := None; ClientId := None;
                   signalToken := None; servers := None |};
  ws_refused := None;
  offer := None;
  answer_handler := fun _ => None;
  candidate_handler := fun _ => None
|}.

Definition ffmpeg_runs : MediaEnv := {|
  rtsp_transport := "tcp"; log_level := "fatal";
  popen_raises := None; obedient := true; pumps_raise := None
|}.

(** The world an event leaves behind. *)
Definition after {A} (m : M World A) (w : World) : World := snd (m w).

(** The session once started, its worker suspended in the wait loop. *)
Definition connecting : World :=
  after (@_run_event_loop toy_codecs credentials_ok) (after start fresh).

(** The session once connected, with both tracks received. *)
Definition with_tracks : World :=
  after (on_track {| kind := "audio" |})
    (after (on_track {| kind := "video" |})
       (after (ice_state_becomes "connected" 100) connecting)).

(** The same with the pipes and the subprocess set up. *)
Definition streaming : World :=
  after (_handle_media_tracks ffmpeg_runs CurrentThread) with_tracks.

(** ** Vocabulary of the further properties *)

(** What handling frames may do to a channel: the client and the frames
    sent stay as they are, and at most [n] callbacks are called. *)
Definition only_calls (n : nat) (ch ch' : Kvs.Channel) : Prop :=
  Kvs.client ch' = Kvs.client ch /\
  Kvs.sent ch' = Kvs.sent ch /\
  exists suf : list Kvs.call, Kvs.calls ch' = Kvs.calls ch ++ suf /\ (length suf <= n)%nat.

(** An outcome no [except Exception] clause lets through. *)
Definition returns_or_cancelled {A} (r : outcome A) : Prop :=
  match r with
  | Return _ => True
  | Raise e => isinstance e Exception_ = false
  | Pending => False
  end.

(** A callback that swallows nothing [except Exception] would not. *)
Definition well_behaved (r : option pyexn) : Prop :=
  forall e, r = Some e -> isinstance e Exception_ = true.

(** What [on_answer] is called with: the [sdp] entry of the decoded
    object, or the decoded text itself when the payload is no object. *)
Definition answer_argument (payload : pyval) (decoded : string) : pyval :=
  match payload with
  | PDict d => default PNone (dict_get "sdp" d)
  | _ => PStr decoded
  end.

(** What [health_check] looks at in a Connected session: the subprocess,
    if any, has not exited, and the transport, if any, does not report
    [failed] or [closed]. *)
Definition healthy (s : WebRtcStream) : bool :=
  match ffmpeg_process s with
  | Some proc => negb (bool_decide (is_Some (returncode proc)))
  | None => true
  end &&
  match pc s with
  | Some conn =>
      negb (String.eqb (iceConnectionState conn) "failed"
            || String.eqb (iceConnectionState conn) "closed")
  | None => true
  end.

(** The peer connection once the transport has moved its ICE state. *)
Definition with_ice_state (ice_state : string) (conn : RTCPeerConnection) : RTCPeerConnection :=
  mkPc (iceServers conn) (transceivers conn) ice_state (connectionState conn)
    (localDescription conn).

(** The handler [on_track] fired for each track the transport delivers. *)
Definition receive_tracks (tracks : list MediaStreamTrack) (w : World) : World :=
  foldl (fun w track => after (on_track track) w) w tracks.

(** What holds between the world [w0] in which [_media_started] was reset
    and any world reached from it by tracks arriving. *)
Definition tracks_seen (w0 w : World) : Prop :=
  options (self w) = options (self w0) /\
  trace w = trace w0 ++ (if _media_started w then [CreateTask] else []) /\
  (_media_started w = true ->
   is_Some (_video_track (self w)) /\
   (audio (options (self w)) = true -> is_Some (_audio_track (self w)))) /\
  (audio (options (self w0)) = false -> _audio_track (self w) = _audio_track (self w0)).

(** Whether a track of the given kind is among [tracks]. *)
Definition has_kind (k : string) (tracks : list MediaStreamTrack) : bool :=
  existsb (fun track => String.eqb (kind track) k) tracks.

(** The condition of [on_track] on the tracks the session holds. *)
Definition holds_required_tracks (w : World) : bool :=
  bool_decide (is_Some (_video_track (self w)))
  && (negb (audio (options (self w))) || bool_decide (is_Some (_audio_track (self w)))).

(** The threads started in a run of effects. *)
Definition restarts (l : list effect) : nat :=
  length (omap (fun e => match e with ThreadStart name => Some name | _ => None end) l).

(** The configuration [_connect_webrtc] builds from the ICE servers of the
    signal data: [None] when an entry lacks [urls]. *)
Fixpoint ice_config (entries : list IceServerEntry) : option (list RTCIceServer) :=
  match entries with
  | [] => Some []
  | e :: rest =>
      match entry_urls e, ice_config rest with
      | Some u, Some more =>
          Some ({| urls := u; username := entry_username e;
                   credential := entry_credential e |} :: more)
      | _, _ => None
      end
  end.

(** The public STUN server used when the signal data names no server. *)
Definition stun_fallback (ice_servers : list RTCIceServer) : list RTCIceServer :=
  match ice_servers with
  | [] => [{| urls := PStr "stun:stun.l.google.com:19302";
              username := None; credential := None |}]
  | _ => ice_servers
  end.

(** The client once connected and listening. *)
Definition listening_client (env : ConnectEnv) (signaling_url client_id token : string)
  : Kvs.KvsSignalingClient :=
  let c := Kvs.__init__ signaling_url client_id token in
  Kvs.set_callbacks (Some (answer_handler env)) (Some (candidate_handler env))
    (Kvs.set_receive_task true (Kvs.set_ws (Some {| Kvs.remote := Kvs.url c |}) c)).

(** The characters of a string that [quote] has to encode. *)
Fixpoint reserved (s : string) : nat :=
  match s with
  | EmptyString => 0
  | String c s' => ((if Kvs.always_safe c then 0 else 1) + reserved s')%nat
  end.

(** What happens to a session: calls from outside, the worker running its
    attempt, the transport reporting an ICE state or delivering a track,
    the media task. *)
Inductive event :=
  | Called (c : api_call)
  | WorkerRuns (env : ConnectEnv)
  | IceReports (ice_state : string) (now : Z)
  | TrackArrives (track : MediaStreamTrack)
  | MediaTaskRuns (env : MediaEnv) (wk : worker).

(** The event that sets the start time. *)
Definition reports_connected (e : event) : bool :=
  match e with
  | IceReports ice_state _ => String.eqb ice_state "connected"
  | _ => false
  end.

(** What every event keeps: the camera, the URI, the options and the
    motion time stamp; a reconnect counter that is not negative stays so;
    [with_time] adds the start time. *)
Definition kept (with_time : bool) (w w' : World) : Prop :=
  camera (self w') = camera (self w) /\
  uri (self w') = uri (self w) /\
  options (self w') = options (self w) /\
  motion_ts (self w') = motion_ts (self w) /\
  (0 <= _reconnect_count (self w) -> 0 <= _reconnect_count (self w')) /\
  (with_time = true -> start_time (self w') = start_time (self w)).

(** The files a command line names as inputs: the arguments after [-i]. *)
Fixpoint inputs (cmd : list string) : list string :=
  match cmd with
  | [] => []
  | flag :: rest =>
      if String.eqb flag "-i"
      then match rest with
           | path :: rest' => path :: inputs rest'
           | [] => []
           end
      else inputs rest
  end.

Section WithCodecs.
Context `{Codecs}.

(** The offer as it goes out on the socket. *)
Definition offer_frame (sdp client_id : string) : string :=
  json_dumps
    (Kvs.envelope "SDP_OFFER"
       (b64encode (json_dumps (PDict [("type", PStr "offer"); ("sdp", PStr sdp)])))
       client_id).

(** The world in which the worker waits once its offer is out. *)
Definition offering (env : ConnectEnv) (signaling_url client_id token sdp : string)
    (ice_servers : list RTCIceServer) (w : World) : World :=
  mkWorld
    (set_signaling (Some (listening_client env signaling_url client_id token))
       (set_pc (Some (mkPc (stun_fallback ice_servers)
                        [("video", "sendrecv"); ("audio", "sendrecv")] "new" "new" (Some sdp)))
          (set_loop (Some {| is_running := true |}) (self w))))
    (files w)
    (trace w ++ [GetKvsSignal (uri (self w)); WsSend (offer_frame sdp client_id)])
    false.

(** One event. *)
Definition happen (e : event) : M World unit :=
  match e with
  | Called c => perform_call c
  | WorkerRuns env => _run_event_loop env
  | IceReports ice_state now => ice_state_becomes ice_state now
  | TrackArrives track => on_track track
  | MediaTaskRuns env wk => _handle_media_tracks env wk
  end.

Definition run_events (events : list event) (w : World) : World :=
  foldl (fun w e => after (happen e) w) w events.

End WithCodecs.

Section PumpVocabulary.
Context {Frame Packet E : Type}.

(** The frames a loop of a pump takes from what [recv] delivers: those
    before the first failure, the timeouts skipped. *)
Fixpoint frames_received (feed : list (Pump.recv Frame)) : list Frame :=
  match feed with
  | [] => []
  | Pump.Got frame :: rest => frame :: frames_received rest
  | Pump.TimedOut :: rest => frames_received rest
  | Pump.Failed _ :: _ => []
  end.

(** No failure of the feed is a cancellation. *)
Definition uncancelled (feed : list (Pump.recv Frame)) : bool :=
  forallb (fun r => match r with
                    | Pump.Failed e => isinstance e Exception_
                    | _ => true
                    end) feed.

(** The sink only grows: what was written stays, in place. *)
Definition grows (s s' : @Pump.Sink Packet E) : Prop :=
  exists suf : list Packet, Pump.written s' = Pump.written s ++ suf.

(** What every part of a pump satisfies: it ends (it is the loop that
    waits, not its turns), and the sink has only grown. *)
Definition steady (m : M (@Pump.Sink Packet E) unit) : Prop :=
  forall s, fst (m s) <> Pending /\ grows s (snd (m s)).

(** A loop lets no [Exception] out. *)
Definition guarded (m : M (@Pump.Sink Packet E) unit) : Prop :=
  forall s, returns_or_cancelled (fst (m s)).

(** An encoder [enc] that never raises, as [encode]. *)
Definition reliable (enc : option Frame -> E -> list Packet * E)
    (frame : option Frame) (e : E) : (list Packet + pyexn) * E :=
  (inl (fst (enc frame e)), snd (enc frame e)).

(** The packets of a run of frames, encoded one after the other. *)
Fixpoint encode_all (enc : option Frame -> E -> list Packet * E)
    (frames : list Frame) (e : E) : list Packet * E :=
  match frames with
  | [] => ([], e)
  | frame :: rest =>
      let '(packets, e1) := enc (Some frame) e in
      let '(more, e2) := encode_all enc rest e1 in
      (packets ++ more, e2)
  end.

(** The stream a pump should produce from its frames: their packets in
    order, then what the flush of the encoder gives. *)
Definition encoded_stream (enc : option Frame -> E -> list Packet * E)
    (frames : list Frame) (e : E) : list Packet :=
  fst (encode_all enc frames e) ++ fst (enc None (snd (encode_all enc frames e))).

End PumpVocabulary.

(** ** Further worked inputs *)

(** A codec that also understands one trickled candidate. *)
Definition trickle_codecs : Codecs := {|
  json_loads := fun s =>
    if String.eqb s "{}" then Some (PDict [])
    else if String.eqb s "candidate"
    then Some (PDict [("messageType", PStr "ICE_CANDIDATE"); ("messagePayload", PStr "e30=")])
    else if String.eqb s "text-answer"
    then Some (PDict [("messageType", PStr "SDP_ANSWER"); ("messagePayload", PStr "dj0w")])
    else if String.eqb s "7" then Some (PInt 7)
    else None;
  json_dumps := fun _ => "{}";
  b64decode := fun s =>
    if String.eqb s "e30=" then Some "{}" else if String.eqb s "dj0w" then Some "7" else None;
  b64encode := fun _ => "e30=";
  utf8_decode := fun s => Some s;
  str_strip := fun s => s
|}.

(** A toy encoder on numbers: one packet for a frame, its value plus the
    number of frames seen before; the flush gives that number. *)
Definition toy_enc (frame : option nat) (seen : nat) : list nat * nat :=
  match frame with
  | Some n => ([(n + seen)%nat], S seen)
  | None => ([seen], seen)
  end.

Definition pump_env : @Pump.PumpEnv nat := {|
  Pump.codec_create := inl 0%nat;
  Pump.open_raises := None
|}.

(** Three frames, one timeout and, after the failure, a frame that is
    never received. *)
Definition toy_feed : list (Pump.recv nat) :=
  [Pump.Got 20%nat; Pump.TimedOut; Pump.Got 30%nat; Pump.Failed OSError; Pump.Got 40%nat].

Arguments wp : simpl never.

Section Wp.
Context {S : Type}.
Implicit Types s : S.

Lemma wp_bind {A B} (m : M S A) (f : A -> M S B) Q s :
  wp (m ≫= f) Q s =
  wp m (fun r s' => match r with
                    | Return a => wp (f a) Q s'
                    | Raise e => Q (Raise e) s'
                    | Pending => Q Pending s'
                    end) s.
Proof. unfold wp, mbind, M_bind. destruct (m s) as [[a|e|] s']; reflexivity. Qed.

Lemma wp_ret {A} (a : A) Q s : wp (mret a) Q s = Q (Return a) s.
Proof. reflexivity. Qed.

Lemma wp_raise {A} e (Q : outcome A -> S -> Prop) s : wp (raise e) Q s = Q (Raise e) s.
Proof. reflexivity. Qed.

Lemma wp_suspend {A} (Q : outcome A -> S -> Prop) s : wp suspend Q s = Q Pending s.
Proof. reflexivity. Qed.

Lemma wp_gets {A} (f : S -> A) Q s : wp (gets f) Q s = Q (Return (f s)) s.
Proof. reflexivity. Qed.

Lemma wp_modify (f : S -> S) Q s : wp (modify f) Q s = Q (Return tt) (f s).
Proof. reflexivity. Qed.

Lemma wp_try_except {A} (body h : M S A) cls Q s :
  wp (try_except body cls h) Q s =
  wp body (fun r s' => match r with
                       | Raise e => if isinstance e cls then wp h Q s' else Q (Raise e) s'
                       | _ => Q r s'
                       end) s.
Proof.
  unfold wp, try_except. destruct (body s) as [[a|e|] s']; try reflexivity.
  simpl. destruct (isinstance e cls); reflexivity.
Qed.

Lemma wp_try_except_all {A} (body h : M S A) Q s :
  wp (try_except_all body h) Q s =
  wp body (fun r s' => match r with
                       | Raise e => wp h Q s'
                       | _ => Q r s'
                       end) s.
Proof. unfold wp, try_except_all. destruct (body s) as [[a|e|] s']; reflexivity. Qed.

Lemma wp_try_finally {A} (body : M S A) final Q s :
  wp (try_finally body final) Q s =
  wp body (fun r s' => match r with
                       | Pending => Q Pending s'
                       | _ => wp final (fun r' s'' => match r' with
                                                      | Return _ => Q r s''
                                                      | Raise e => Q (Raise e) s''
                                                      | Pending => Q Pending s''
                                                      end) s'
                       end) s.
Proof.
  unfold wp, try_finally. destruct (body s) as [[a|e|] s']; simpl; try reflexivity;
    destruct (final s') as [[?|?|] ?]; reflexivity.
Qed.

Lemma wp_suppress classes (body : M S unit) Q s :
  wp (suppress classes body) Q s =
  wp body (fun r s' => match r with
                       | Raise e => if existsb (isinstance e) classes then Q (Return tt) s'
                                    else Q (Raise e) s'
                       | _ => Q r s'
                       end) s.
Proof.
  unfold wp, suppress. destruct (body s) as [[a|e|] s']; try reflexivity.
  simpl. destruct (existsb _ _); reflexivity.
Qed.

Lemma wp_eq {A} (m : M S A) r s' Q s : m s = (r, s') -> wp m Q s = Q r s'.
Proof. unfold wp. intros ->. reflexivity. Qed.

End Wp.

Lemma wp_read {A} (f : WebRtcStream -> A) (Q : outcome A -> World -> Prop) w :
  wp (read f) Q w = Q (Return (f (self w))) w.
Proof. reflexivity. Qed.

Lemma wp_update f (Q : outcome unit -> World -> Prop) w :
  wp (update f) Q w = Q (Return tt) (mkWorld (f (self w)) (files w) (trace w) (_media_started w)).
Proof. reflexivity. Qed.

Lemma wp_perform e (Q : outcome unit -> World -> Prop) w :
  wp (perform e) Q w = Q (Return tt) (mkWorld (self w) (files w) (trace w ++ [e]) (_media_started w)).
Proof. reflexivity. Qed.

Lemma wp_set_files f (Q : outcome unit -> World -> Prop) w :
  wp (set_files f) Q w = Q (Return tt) (mkWorld (self w) (f (files w)) (trace w) (_media_started w)).
Proof. reflexivity. Qed.

Lemma wp_assign_state st (Q : outcome unit -> World -> Prop) w :
  wp (assign_state st) Q w =
  Q (Return tt) (mkWorld (set_state st (self w)) (files w) (trace w ++ [Assign st]) (_media_started w)).
Proof. reflexivity. Qed.

Ltac wp_step :=
  first
    [ rewrite wp_bind | rewrite wp_ret | rewrite wp_raise | rewrite wp_suspend
    | rewrite wp_read | rewrite wp_gets | rewrite wp_update | rewrite wp_perform
    | rewrite wp_set_files | rewrite wp_assign_state | rewrite wp_modify
    | rewrite wp_try_except | rewrite wp_try_except_all | rewrite wp_try_finally
    | rewrite wp_suppress ];
  cbn.

Ltac wp_run := repeat wp_step.

Lemma wp_elim {S A} (m : M S A) r s' s :
  wp m (fun r' s'' => r' = r ∧ s'' = s') s -> m s = (r, s').
Proof. unfold wp. destruct (m s). cbn. intros [-> ->]. reflexivity. Qed.


Lemma on_signaling_close_eq w c :
  signaling (self w) = Some c ->
  on_signaling Kvs.close w =
  (Return tt, mkWorld (set_signaling (Some (Kvs.set_ws None c)) (self w)) (files w)
                (trace w) (_media_started w)).
Proof.
  intros Hc. unfold on_signaling. rewrite Hc.
  destruct c as [u i [x|] a b r]; vm_compute Kvs.close; cbn; rewrite ?app_nil_r; reflexivity.
Qed.

Lemma remove_pipe_eq pipe w :
  remove_pipe pipe w =
  (Return tt, mkWorld (self w) (drop_pipe pipe (files w))
                (trace w ++ pipe_effects pipe (files w)) (_media_started w)).
Proof.
  apply wp_elim. unfold remove_pipe, drop_pipe, pipe_effects, when.
  destruct w as [s fs tr ms]. destruct pipe as [path|]; wp_run; cbn.
  - destruct (negb (path =? "") && bool_decide (path ∈ fs)); unfold os_remove; wp_run; cbn;
      rewrite ?app_nil_r; auto.
  - rewrite app_nil_r. auto.
Qed.

Ltac wp_case :=
  match goal with
  | |- wp (if ?b then _ else _) _ _ => first [is_var b; destruct b | destruct b eqn:?]
  | |- wp (match ?x with _ => _ end) _ _ => first [is_var x; destruct x | destruct x eqn:?]
  end.

Lemma cleanup_eq w : _cleanup w = (Return tt, cleaned w).
Proof.
  apply wp_elim. unfold _cleanup, when, cleaned, cleanup_effects, tidy.
  destruct w as [[cam u o st t0 t1 th lp p sg fp vp ap ev vt at_ n] fs tr ms].
  cbn.
  destruct p; cbn; wp_run;
  (destruct sg as [c|]; cbn; wp_run;
   [ erewrite (wp_eq (on_signaling Kvs.close)) by (apply on_signaling_close_eq; reflexivity);
     cbn; wp_run | ]);
  (destruct fp as [[cmd rc []]|]; cbn; unfold wait; cbn; wp_run);
  rewrite (wp_eq _ _ _ _ _ (remove_pipe_eq _ _)); cbn; wp_run;
  rewrite (wp_eq _ _ _ _ _ (remove_pipe_eq _ _)); cbn; wp_run.
  all: case_bool_decide; cbn; wp_run; cbn.
  all: split; [reflexivity|].
  all: f_equal; rewrite <- ?app_assoc; cbn; rewrite ?app_nil_r; reflexivity.
Qed.

(** ** Basic facts *)

Lemma new_effects_app (w w' : World) (suf : list effect) :
  trace w' = trace w ++ suf -> new_effects w w' = suf.
Proof. unfold new_effects. intros ->. apply drop_app_length. Qed.

Lemma new_effects_refl w : new_effects w w = [].
Proof. apply new_effects_app. symmetry. apply app_nil_r. Qed.

Lemma writes_app (l1 l2 : list effect) : writes (l1 ++ l2) = writes l1 ++ writes l2.
Proof. apply omap_app. Qed.

Lemma last_cons_default {A} (l : list A) (c a : A) :
  List.last (c :: l) a = List.last l c.
Proof.
  revert c a. induction l as [|d l IH]; intros c a; [reflexivity|].
  change (List.last (d :: l) a = List.last (d :: l) c). rewrite !IH. reflexivity.
Qed.

Lemma follows_app a b (l1 l2 : list StreamStatus.t) :
  follows a l1 = true -> List.last l1 a = b -> follows b l2 = true ->
  follows a (l1 ++ l2) = true.
Proof.
  revert a. induction l1 as [|c l1 IH]; intros a H1 Hb H2.
  - cbn in Hb. subst b. exact H2.
  - cbn [app follows] in *. apply andb_prop in H1 as [Hs H1].
    rewrite Hs. cbn. rewrite last_cons_default in Hb. exact (IH c H1 Hb H2).
Qed.

(** In a sequence that follows the table, Stopped is never written right
    after Connected. *)
Lemma follows_never_skips a l i :
  follows a l = true ->
  (a :: l) !! i = Some CONNECTED -> (a :: l) !! S i = Some STOPPED -> False.
Proof.
  revert a i. induction l as [|b l IH]; intros a i Hf Hi Hs.
  - destruct i; discriminate.
  - cbn [follows] in Hf. apply andb_prop in Hf as [Hab Hf].
    destruct i as [|i].
    + cbn in Hi, Hs. injection Hi as ->. injection Hs as ->. discriminate.
    + exact (IH b i Hf Hi Hs).
Qed.

(** ** [start] *)

Lemma start_eq w :
  start w =
  if bool_decide (state (self w) ∈ [STOPPED; INITIALIZING])
  then (Return true, started w) else (Return false, w).
Proof.
  destruct (bool_decide (state (self w) ∈ [STOPPED; INITIALIZING])) eqn:Hst;
    apply wp_elim; unfold start; wp_run; rewrite Hst; cbn; wp_run.
  - split; [reflexivity|]. unfold started. f_equal.
    rewrite <- app_assoc. reflexivity.
  - split; reflexivity.
Qed.

Lemma idle_states (st : StreamStatus.t) :
  st ∈ [STOPPED; INITIALIZING] <-> st = STOPPED \/ st = INITIALIZING.
Proof. rewrite !elem_of_cons, elem_of_nil. tauto. Qed.

(** C5. [start()] returns true exactly when the state is Stopped or
    Initializing at the call; then the state is Connecting, the stop flag
    is cleared and the worker thread is launched; from any other state it
    returns False and changes nothing. *)
Theorem start_only_from_stopped_or_initializing (w : World) :
  (fst (start w) = Return true <->
     state (self w) = STOPPED \/ state (self w) = INITIALIZING) /\
  (state (self w) = STOPPED \/ state (self w) = INITIALIZING ->
     fst (start w) = Return true /\
     state (self (snd (start w))) = CONNECTING /\
     _stop_event (self (snd (start w))) = false /\
     loop_thread (self (snd (start w))) = Some ("webrtc_" +:+ uri (self w)) /\
     new_effects w (snd (start w)) =
       [Assign CONNECTING; ThreadStart ("webrtc_" +:+ uri (self w))]) /\
  (~ (state (self w) = STOPPED \/ state (self w) = INITIALIZING) ->
     start w = (Return false, w)).
Proof.
  rewrite start_eq, <- idle_states.
  case_bool_decide as Hst; cbn [fst snd].
  - split; [tauto|]. split; [|tauto]. intros _.
    repeat split. apply new_effects_app. reflexivity.
  - split; [split; [discriminate|tauto]|]. split; [tauto|reflexivity].
Qed.

Lemma start_only_from_stopped_or_initializing_witness :
  fst (start fresh) = Return true /\
  state (self (snd (start fresh))) = CONNECTING /\
  start (snd (start fresh)) = (Return false, snd (start fresh)).
Proof.
  destruct (start_only_from_stopped_or_initializing fresh) as (_ & Hyes & _).
  destruct Hyes as (Hr & Hs & _); [left; reflexivity|].
  destruct (start_only_from_stopped_or_initializing (snd (start fresh))) as (_ & _ & Hno).
  split; [exact Hr|]. split; [exact Hs|].
  apply Hno. rewrite Hs. intros [?|?]; discriminate.
Defined.

(** ** The ICE handler *)

(** C4. When the ICE state of the live peer connection becomes connected,
    the session is Connected, its start time is the current time and its
    reconnect counter is 0, whatever the counter was. *)
Theorem ice_connected_resets_counter (now : Z) (w : World) :
  is_Some (pc (self w)) ->
  let w' := snd (ice_state_becomes "connected" now w) in
  fst (ice_state_becomes "connected" now w) = Return tt /\
  state (self w') = CONNECTED /\
  start_time (self w') = now /\
  _reconnect_count (self w') = 0 /\
  history w w' = [CONNECTED].
Proof.
  intros [conn Hpc]. cbn zeta.
  change (wp (ice_state_becomes "connected" now)
            (fun r w' => r = Return tt /\ state (self w') = CONNECTED /\
                         start_time (self w') = now /\ _reconnect_count (self w') = 0 /\
                         history w w' = [CONNECTED]) w).
  unfold ice_state_becomes. wp_run. rewrite Hpc. wp_run.
  unfold on_ice_state_change. wp_run.
  repeat split. unfold history.
  rewrite (new_effects_app _ _ [Assign CONNECTED]) by reflexivity. reflexivity.
Qed.

Lemma ice_connected_resets_counter_witness :
  state (self (after (ice_state_becomes "connected" 100) connecting)) = CONNECTED /\
  start_time (self (after (ice_state_becomes "connected" 100) connecting)) = 100 /\
  _reconnect_count (self (after (ice_state_becomes "connected" 100) connecting)) = 0.
Proof.
  assert (Hpc : is_Some (pc (self connecting))) by (vm_compute; eauto).
  destruct (ice_connected_resets_counter 100 connecting Hpc) as (_ & Hs & Ht & Hc & _).
  repeat split; assumption.
Defined.

(** ** [get_info] *)

Lemma info_get_other (now : Z) (s : WebRtcStream) (item : string) :
  item ∉ info_fields -> dict_get item (info now s) = None.
Proof.
  unfold info_fields, info. intros Hnot. cbn [dict_get].
  repeat match goal with
         | |- context [String.eqb item ?k] =>
             destruct (String.eqb_spec item k) as [->|_];
             [exfalso; apply Hnot; rewrite !elem_of_cons; tauto|]
         end.
  reflexivity.
Qed.

(** C10, as the code has it. [enabled] is true exactly when the state is
    not Disabled, [connected] exactly when it is Connected; [get_info]
    reports these two under its keys; for a non-empty name that is none of
    the eight keys it returns None, and for the empty name, as for no name,
    it returns the whole dictionary. *)
Theorem info_flags_and_lookup (now : Z) (s : WebRtcStream) :
  (enabled s = true <-> state s <> DISABLED) /\
  (connected s = true <-> state s = CONNECTED) /\
  (state s ∈ [OFFLINE; STOPPING; STOPPED; CONNECTING; INITIALIZING] -> enabled s = true) /\
  get_info now (Some "enabled") s = PBool (enabled s) /\
  get_info now (Some "connected") s = PBool (connected s) /\
  (forall item : string,
     item <> "" -> item ∉ info_fields -> get_info now (Some item) s = PNone) /\
  get_info now (Some "") s = PDict (info now s) /\
  get_info now None s = PDict (info now s) /\
  length (info now s) = 8%nat.
Proof.
  unfold enabled, connected.
  split; [|split; [|split; [|split; [|split; [|split; [|split; [|split]]]]]]];
    try reflexivity.
  - rewrite negb_true_iff, bool_decide_eq_false. reflexivity.
  - apply bool_decide_eq_true.
  - intros Hin. rewrite negb_true_iff, bool_decide_eq_false.
    intros Hd. rewrite Hd in Hin. rewrite !elem_of_cons, elem_of_nil in Hin.
    intuition discriminate.
  - intros item Hne Hnot. unfold get_info.
    destruct (String.eqb_spec item "") as [->|_]; [contradiction|].
    cbn [negb]. rewrite info_get_other by assumption. reflexivity.
Qed.

Lemma info_flags_and_lookup_witness :
  enabled (self fresh) = true /\
  get_info 160 (Some "bitrate") (self fresh) = PNone.
Proof.
  destruct (info_flags_and_lookup 160 (self fresh)) as (_ & _ & Hen & _ & _ & Hno & _).
  split.
  - apply Hen. cbn. rewrite !elem_of_cons. tauto.
  - apply Hno; [discriminate|]. unfold info_fields.
    rewrite !elem_of_cons, elem_of_nil. intuition discriminate.
Defined.

(** C10 as stated fails at the empty name: it is not one of the eight keys,
    yet [get_info] answers with the dictionary, not with None. *)
Lemma get_info_empty_name_is_not_none :
  ("" ∉ info_fields) /\ get_info 160 (Some "") (self streaming) <> PNone.
Proof.
  split.
  - unfold info_fields. rewrite !elem_of_cons, elem_of_nil. intuition discriminate.
  - unfold get_info. cbn [String.eqb negb]. discriminate.
Qed.

(** ** The signaling URL *)

Lemma append_cons (c : ascii) (a b : string) : String c a +:+ b = String c (a +:+ b).
Proof. reflexivity. Qed.

Lemma append_nil (b : string) : "" +:+ b = b.
Proof. reflexivity. Qed.

Lemma prefix_app (n h : string) :
  String.prefix n h = true <-> exists rest, h = n +:+ rest.
Proof.
  revert h. induction n as [|c n IH]; intros h; cbn [String.prefix].
  - split; [intros _; exists h; reflexivity|]. destruct h; reflexivity.
  - destruct h as [|d h].
    + split; [discriminate|]. intros [rest Hr]. rewrite append_cons in Hr. discriminate.
    + cbn [String.prefix]. destruct (Ascii.ascii_dec c d) as [->|Hne].
      * rewrite IH. split; intros [rest Hr]; exists rest.
        -- rewrite append_cons, Hr. reflexivity.
        -- rewrite append_cons in Hr. injection Hr as ->. reflexivity.
      * split; [discriminate|]. intros [rest Hr]. rewrite append_cons in Hr.
        injection Hr as -> _. contradiction.
Qed.

(** [contains] is the substring test. *)
Lemma contains_spec (n h : string) :
  contains n h = true <-> exists before rest, h = before +:+ n +:+ rest.
Proof.
  induction h as [|d h IH].
  - cbn [contains]. rewrite orb_false_r, prefix_app. split.
    + intros [rest ->]. exists "", rest. reflexivity.
    + intros ([|? ?] & rest & Hr).
      * exists rest. exact Hr.
      * rewrite append_cons in Hr. discriminate.
  - cbn [contains]. rewrite orb_true_iff, prefix_app, IH. split.
    + intros [[rest ->]|(before & rest & ->)].
      * exists "", rest. reflexivity.
      * exists (String d before), rest. reflexivity.
    + intros ([|c before] & rest & Hr).
      * left. exists rest. exact Hr.
      * right. rewrite append_cons in Hr. injection Hr as -> ->.
        exists before, rest. reflexivity.
Qed.

Lemma hex_digit_safe (k : nat) : Kvs.always_safe (Kvs.hex_digit k) = true.
Proof. do 16 (destruct k as [|k]; [reflexivity|]). reflexivity. Qed.

Lemma string_forall_app (p : ascii -> bool) (a b : string) :
  string_forall p (a +:+ b) = string_forall p a && string_forall p b.
Proof.
  induction a as [|c a IH]; [reflexivity|].
  rewrite append_cons. cbn [string_forall]. rewrite IH, andb_assoc. reflexivity.
Qed.

(** What [quote] returns is made of unreserved characters and percent
    escapes only. *)
Lemma quote_url_encoded (s : string) :
  string_forall url_encoded_char (Kvs.quote s) = true.
Proof.
  induction s as [|c s IH]; [reflexivity|].
  cbn [Kvs.quote]. rewrite string_forall_app, IH, andb_true_r.
  unfold Kvs.quote_byte, url_encoded_char.
  destruct (Kvs.always_safe c) eqn:Hc; cbn [string_forall].
  - rewrite Hc. reflexivity.
  - rewrite !hex_digit_safe. reflexivity.
Qed.

(** C9. A signaling URL that contains the marker of a pre-signed URL is
    used exactly as given; any other URL gets the client identifier and
    the token appended as URL-encoded query parameters, after [&] when the
    URL already has a [?] and after [?] otherwise. *)
Theorem presigned_url_passes_through (signaling_url client_id token : string) :
  let c := Kvs.__init__ signaling_url client_id token in
  (contains "X-Amz-" signaling_url = true -> Kvs.url c = signaling_url) /\
  (contains "X-Amz-" signaling_url = false ->
     Kvs.url c =
       signaling_url +:+ (if contains "?" signaling_url then "&" else "?")
         +:+ "ClientId=" +:+ Kvs.quote client_id
         +:+ "&signalToken=" +:+ Kvs.quote token) /\
  string_forall url_encoded_char (Kvs.quote client_id) = true /\
  string_forall url_encoded_char (Kvs.quote token) = true /\
  Kvs.client_id c = client_id /\
  Kvs.ws c = None.
Proof.
  cbn zeta. unfold Kvs.__init__. cbn [Kvs.url Kvs.client_id Kvs.ws].
  split; [intros ->; reflexivity|].
  split; [intros ->; destruct (contains "?" signaling_url); reflexivity|].
  split; [apply quote_url_encoded|]. split; [apply quote_url_encoded|].
  split; reflexivity.
Qed.

Lemma presigned_url_passes_through_witness :
  Kvs.url (Kvs.__init__ "wss://kvs.example/?X-Amz-Signature=ab" "phone 1" "t/k")
    = "wss://kvs.example/?X-Amz-Signature=ab" /\
  Kvs.url (Kvs.__init__ "wss://signal.example/v1" "phone 1" "t/k")
    = "wss://signal.example/v1?ClientId=phone%201&signalToken=t%2Fk" /\
  Kvs.url (Kvs.__init__ "wss://signal.example/v1?r=eu" "phone 1" "t/k")
    = "wss://signal.example/v1?r=eu&ClientId=phone%201&signalToken=t%2Fk".
Proof.
  split; [|split].
  - apply (presigned_url_passes_through "wss://kvs.example/?X-Amz-Signature=ab" "phone 1" "t/k").
    reflexivity.
  - apply (proj1 (proj2 (presigned_url_passes_through "wss://signal.example/v1" "phone 1" "t/k"))).
    reflexivity.
  - apply (proj1 (proj2 (presigned_url_passes_through "wss://signal.example/v1?r=eu" "phone 1" "t/k"))).
    reflexivity.
Defined.

(** ** The back-off delay *)

Lemma backoff_monotone (c d : Z) : 0 <= c <= d -> backoff c <= backoff d.
Proof.
  intros Hcd. unfold backoff.
  assert (2 ^ c <= 2 ^ d) by (apply Z.pow_le_mono_r; lia). lia.
Qed.

Lemma backoff_saturates (c : Z) : 6 <= c -> backoff c = 60.
Proof.
  intros Hc. unfold backoff.
  assert (2 ^ 6 <= 2 ^ c) by (apply Z.pow_le_mono_r; lia).
  change (2 ^ 6) with 64 in *. lia.
Qed.

Lemma backoff_bounds (c : Z) : 0 <= c -> 1 <= backoff c <= 60.
Proof.
  intros Hc. unfold backoff.
  assert (0 < 2 ^ c) by (apply Z.pow_pos_nonneg; lia). lia.
Qed.

(** ** The closed form of [stop] *)

Lemma wp_in_thread (m : M World unit) (Q : outcome unit -> World -> Prop) w :
  wp (in_thread m) Q w = Q (Return tt) (snd (m w)).
Proof. reflexivity. Qed.

(** The coroutine leaving its wait loop once the stop event is set. *)
Lemma unwind_eq w :
  _stop_event (self w) = true ->
  loop_frame (connect_frame wait_until_stopped) w =
  (Return tt, with_self (set_loop None) (cleaned w)).
Proof.
  intros Hev. apply wp_elim.
  unfold loop_frame, connect_frame, wait_until_stopped. wp_run.
  rewrite Hev. wp_run.
  rewrite (wp_eq _ _ _ _ _ (cleanup_eq _)). cbn. wp_run.
  split; reflexivity.
Qed.

Lemma loop_stopped_eq w :
  loop_frame (raise RuntimeError) w =
  (Return tt,
   with_self (set_loop None) (with_effects [Assign STOPPED] (with_self (set_state STOPPED) w))).
Proof.
  apply wp_elim. unfold loop_frame. wp_run. split; reflexivity.
Qed.

Lemma stop_eq wk w : stop wk w = (Return true, stopped wk w).
Proof.
  apply wp_elim. unfold stop, stopped, when. wp_run.
  case_bool_decide as Hst; wp_run; [split; reflexivity|].
  destruct w as [[cam u o st t0 t1 th lp p sg fp vp ap ev vt at_ n] fs tr ms].
  unfold loop_running, with_effects, with_self. cbn in *.
  destruct lp as [[[]]|]; cbn; wp_run;
    (destruct th as [name|]; cbn; wp_run;
     [ unfold join; wp_run; destruct wk; cbn; wp_run; rewrite ?wp_in_thread;
       rewrite ?unwind_eq by reflexivity; rewrite ?loop_stopped_eq; cbn; wp_run
     | ]);
    (split; [reflexivity|]);
    unfold with_effects, with_self; cbn; f_equal;
    rewrite <- ?app_assoc; reflexivity.
Qed.

Lemma pipe_effects_calm pipe fs : forallb calm (pipe_effects pipe fs) = true.
Proof.
  destruct pipe as [path|]; [|reflexivity]. cbn.
  destruct (negb (path =? "") && bool_decide (path ∈ fs)); reflexivity.
Qed.

Lemma pipe_effects_writes pipe fs : writes (pipe_effects pipe fs) = [].
Proof.
  destruct pipe as [path|]; [|reflexivity]. cbn.
  destruct (negb (path =? "") && bool_decide (path ∈ fs)); reflexivity.
Qed.

Lemma cleanup_effects_calm w : forallb calm (cleanup_effects w) = true.
Proof.
  unfold cleanup_effects. rewrite !forallb_app, !pipe_effects_calm.
  destruct (bool_decide (is_Some (pc (self w)))),
    (bool_decide (is_Some (signaling (self w)))),
    (ffmpeg_process (self w)) as [[? ? []]|],
    (bool_decide (state (self w) ∈ [STOPPED; STOPPING])); reflexivity.
Qed.

Lemma cleanup_effects_writes w :
  writes (cleanup_effects w) =
  if bool_decide (state (self w) ∈ [STOPPED; STOPPING]) then [] else [STOPPED].
Proof.
  unfold cleanup_effects. rewrite !writes_app, !pipe_effects_writes.
  destruct (bool_decide (is_Some (pc (self w)))),
    (bool_decide (is_Some (signaling (self w)))),
    (ffmpeg_process (self w)) as [[? ? []]|],
    (bool_decide (state (self w) ∈ [STOPPED; STOPPING])); reflexivity.
Qed.

Lemma drop_pipe_subseteq pipe (fs : gset string) : drop_pipe pipe fs ⊆ fs.
Proof.
  destruct pipe as [path|]; [|reflexivity]. cbn.
  destruct (negb (path =? "") && bool_decide (path ∈ fs)); [|reflexivity].
  apply subseteq_difference_l. reflexivity.
Qed.

Lemma drop_pipe_absent (path : string) (fs : gset string) :
  path <> "" -> path ∉ drop_pipe (Some path) fs.
Proof.
  intros Hne. cbn. destruct (String.eqb_spec path "") as [?|_]; [contradiction|].
  cbn. case_bool_decide as Hin; [|exact Hin].
  rewrite elem_of_difference, elem_of_singleton. tauto.
Qed.

Lemma cleaned_files_subseteq w : files (cleaned w) ⊆ files w.
Proof.
  cbn. etransitivity; apply drop_pipe_subseteq.
Qed.

(** After [_cleanup] neither pipe of the session is in the file system. *)
Lemma cleaned_pipes_absent w (path : string) :
  path <> "" ->
  video_pipe (self w) = Some path \/ audio_pipe (self w) = Some path ->
  path ∉ files (cleaned w).
Proof.
  intros Hne [Hv|Ha]; cbn.
  - rewrite Hv. intros Hin. apply drop_pipe_subseteq in Hin.
    exact (drop_pipe_absent path _ Hne Hin).
  - rewrite Ha. apply drop_pipe_absent. exact Hne.
Qed.

(** ** What [stop] guarantees *)

Lemma stopped_state wk w : state (self (stopped wk w)) = STOPPED.
Proof.
  unfold stopped. case_bool_decide as Hst; [exact Hst|]. reflexivity.
Qed.

Lemma stopped_idem wk w : state (self w) = STOPPED -> stopped wk w = w.
Proof.
  intros Hst. unfold stopped. rewrite bool_decide_eq_true_2 by exact Hst. reflexivity.
Qed.

Lemma joined_keeps wk w :
  camera (self (joined wk w)) = camera (self w) /\
  uri (self (joined wk w)) = uri (self w) /\
  options (self (joined wk w)) = options (self w) /\
  _reconnect_count (self (joined wk w)) = _reconnect_count (self w) /\
  start_time (self (joined wk w)) = start_time (self w) /\
  loop_thread (self (joined wk w)) = loop_thread (self w).
Proof. destruct wk; repeat split. Qed.

Lemma stopped_keeps wk w :
  camera (self (stopped wk w)) = camera (self w) /\
  uri (self (stopped wk w)) = uri (self w) /\
  options (self (stopped wk w)) = options (self w) /\
  _reconnect_count (self (stopped wk w)) = _reconnect_count (self w) /\
  start_time (self (stopped wk w)) = start_time (self w).
Proof.
  unfold stopped. case_bool_decide; [repeat split|].
  cbn. destruct (loop_thread (self w)); [|repeat split].
  destruct wk; repeat split.
Qed.

Lemma stopped_trace wk w :
  exists suf : list effect,
    trace (stopped wk w) = trace w ++ suf /\
    forallb calm suf = true /\
    writes suf = stop_writes wk (self w).
Proof.
  unfold stopped, stop_writes. case_bool_decide as Hst.
  - exists []. rewrite app_nil_r. repeat split.
  - unfold with_effects, with_self. cbn.
    destruct (loop_thread (self w)) as [name|]; cbn.
    + destruct wk; unfold joined, cleaned, with_effects, with_self; cbn;
        rewrite <- ?app_assoc; eexists; (split; [reflexivity|]);
        rewrite ?forallb_app, ?writes_app, ?cleanup_effects_calm, ?cleanup_effects_writes;
        destruct (loop_running (self w)); split; reflexivity.
    + rewrite <- ?app_assoc. eexists. split; [reflexivity|].
      destruct (loop_running (self w)); split; reflexivity.
Qed.

Lemma stop_writes_follow wk s : follows (state s) (stop_writes wk s) = true.
Proof.
  unfold stop_writes. case_bool_decide as Hst; [reflexivity|].
  destruct (state s), (loop_thread s), wk; try reflexivity; contradiction.
Qed.

Lemma stopped_files wk w : files (stopped wk w) ⊆ files w.
Proof.
  unfold stopped. case_bool_decide; [reflexivity|].
  cbn. destruct (loop_thread (self w)); [|reflexivity].
  destruct wk; try reflexivity. cbn. etransitivity; apply drop_pipe_subseteq.
Qed.

(** C8 fails on the code. [stop()] is called twice on a connected session
    whose worker waits in its loop. Both calls return [True] and the
    session is Stopped, but [loop.stop()] has ended the worker before its
    coroutine resumed, so [_cleanup] never ran: after the first call the
    transport, the socket, the subprocess and both pipes are still there,
    and the second call finds the session Stopped and returns at once. *)
Lemma stop_twice_leaves_resources :
  let w1 := snd (stop LoopStopped streaming) in
  let w2 := snd (stop LoopStopped w1) in
  fst (stop LoopStopped streaming) = Return true /\
  fst (stop LoopStopped w1) = Return true /\
  state (self w2) = STOPPED /\
  is_Some (pc (self w2)) /\
  is_Some (signaling (self w2)) /\
  is_Some (ffmpeg_process (self w2)) /\
  video_pipe (self w2) = Some "/tmp/front-door_video.pipe" /\
  bool_decide ("/tmp/front-door_video.pipe" ∈ files w2) = true /\
  bool_decide ("/tmp/front-door_audio.pipe" ∈ files w2) = true /\
  ~ released (self w2).
Proof.
  cbn zeta. repeat (rewrite stop_eq; cbn [fst snd]).
  split; [reflexivity|]. split; [reflexivity|]. split; [apply stopped_state|].
  split; [vm_compute; eauto|]. split; [vm_compute; eauto|]. split; [vm_compute; eauto|].
  split; [vm_compute; reflexivity|].
  split; [vm_compute; reflexivity|]. split; [vm_compute; reflexivity|].
  intros (Hpc & _). vm_compute in Hpc. discriminate.
Qed.

(** ** Failure handling *)

Lemma start_stopped w :
  state (self w) = STOPPED -> start w = (Return true, started w).
Proof.
  intros Hst. rewrite start_eq, bool_decide_eq_true_2; [reflexivity|].
  rewrite Hst, !elem_of_cons. tauto.
Qed.

Lemma handle_failure_eq wk w : _handle_failure wk w = (Return tt, failed wk w).
Proof.
  apply wp_elim. unfold _handle_failure, failed, when. wp_run.
  rewrite (wp_eq _ _ _ _ _ (stop_eq wk w)). wp_run.
  destruct (reconnect (options (self (stopped wk w)))); wp_run; [|split; reflexivity].
  destruct (Z.ltb (_reconnect_count (self (stopped wk w)) + 1) 10); wp_run.
  - erewrite (wp_eq start) by (apply start_stopped; cbn; apply stopped_state).
    wp_run. split; reflexivity.
  - split; reflexivity.
Qed.

(** C1. With reconnection enabled, handling a fatal failure stops the
    session and increments the reconnect counter; while the counter is
    below 10 it then sleeps [min(2^counter, 60)] and calls [start()] again,
    which leaves the session Connecting; once the counter has reached 10
    there is neither a sleep nor a restart and the session stays Stopped.
    The delay is 2, 4, 8, 16, 32 and then 60 for the counters 1 to 12: it
    never decreases and saturates at 60. *)
Theorem failure_backoff (wk : worker) (w : World) :
  reconnect (options (self w)) = true ->
  0 <= _reconnect_count (self w) ->
  let n := _reconnect_count (self w) + 1 in
  let w' := snd (_handle_failure wk w) in
  fst (_handle_failure wk w) = Return tt /\
  _reconnect_count (self w') = n /\
  (exists stopping : list effect,
     forallb calm stopping = true /\
     writes stopping = stop_writes wk (self w) /\
     new_effects w w' =
       stopping ++
       (if Z.ltb n 10
        then [Sleep (Z.min (2 ^ n) 60); Assign CONNECTING;
              ThreadStart ("webrtc_" +:+ uri (self w))]
        else [])) /\
  state (self w') = (if Z.ltb n 10 then CONNECTING else STOPPED) /\
  map backoff [1; 2; 3; 4; 5; 6; 7; 8; 9; 10; 11; 12] =
    [2; 4; 8; 16; 32; 60; 60; 60; 60; 60; 60; 60] /\
  (forall c d : Z, 0 <= c <= d -> backoff c <= backoff d) /\
  (forall c : Z, 6 <= c -> backoff c = 60).
Proof.
  intros Hre Hn. cbn zeta. rewrite handle_failure_eq. cbn [fst snd].
  destruct (stopped_keeps wk w) as (_ & Huri & Hopt & Hcnt & _).
  destruct (stopped_trace wk w) as (suf & Htr & Hcalm & Hwr).
  unfold failed. rewrite Hopt, Hre, Hcnt.
  split; [reflexivity|].
  destruct (Z.ltb (_reconnect_count (self w) + 1) 10) eqn:Hlt.
  - split; [reflexivity|]. split.
    + exists suf. split; [exact Hcalm|]. split; [exact Hwr|].
      apply new_effects_app. unfold started, with_effects, with_self. cbn.
      rewrite Htr, Huri, <- !app_assoc. reflexivity.
    + split; [reflexivity|]. split; [reflexivity|].
      split; [apply backoff_monotone|apply backoff_saturates].
  - split; [reflexivity|]. split.
    + exists suf. split; [exact Hcalm|]. split; [exact Hwr|].
      apply new_effects_app. cbn. rewrite Htr, app_nil_r. reflexivity.
    + split; [apply stopped_state|]. split; [reflexivity|].
      split; [apply backoff_monotone|apply backoff_saturates].
Qed.

Lemma failure_backoff_witness :
  _reconnect_count (self (snd (_handle_failure StillRunning streaming)))
    = _reconnect_count (self streaming) + 1 /\
  state (self (snd (_handle_failure StillRunning streaming)))
    = (if Z.ltb (_reconnect_count (self streaming) + 1) 10 then CONNECTING else STOPPED).
Proof.
  assert (Hre : reconnect (options (self streaming)) = true) by (vm_compute; reflexivity).
  assert (Hn : 0 <= _reconnect_count (self streaming)) by (vm_compute; discriminate).
  pose proof (failure_backoff StillRunning streaming Hre Hn) as H. cbn zeta in H.
  destruct H as (_ & Hc & _ & Hs & _).
  split; [exact Hc|exact Hs].
Defined.

(** ** The state machine *)

Lemma disable_eq wk w :
  disable wk w =
  (Return true, with_effects [Assign DISABLED] (with_self (set_state DISABLED) (stopped wk w))).
Proof.
  apply wp_elim. unfold disable. wp_run.
  rewrite (wp_eq _ _ _ _ _ (stop_eq wk w)). wp_run. split; reflexivity.
Qed.

Lemma enable_eq w :
  enable w =
  (Return true,
   if bool_decide (state (self w) = DISABLED)
   then with_effects [Assign STOPPED] (with_self (set_state STOPPED) w)
   else w).
Proof.
  apply wp_elim. unfold enable, when. wp_run.
  case_bool_decide; wp_run; split; reflexivity.
Qed.

Lemma last_app_cons {A} (l1 l : list A) (b a : A) :
  List.last (l1 ++ b :: l) a = List.last (b :: l) (List.last l1 a).
Proof.
  revert a. induction l1 as [|c l1 IH]; intros a; [reflexivity|].
  change (List.last (c :: (l1 ++ b :: l)) a = List.last (b :: l) (List.last (c :: l1) a)).
  rewrite !last_cons_default, IH. apply last_cons_default.
Qed.

Lemma walks_refl w : walks w w.
Proof. exists []. rewrite app_nil_r. repeat split. Qed.

Lemma walks_trans w1 w2 w3 : walks w1 w2 -> walks w2 w3 -> walks w1 w3.
Proof.
  intros (s1 & Ht1 & Hf1 & Hl1) (s2 & Ht2 & Hf2 & Hl2).
  exists (s1 ++ s2). rewrite Ht2, Ht1, app_assoc, writes_app.
  split; [reflexivity|]. split.
  - apply (follows_app _ (state (self w2))); assumption.
  - rewrite <- Hl2, <- Hl1. destruct (writes s2) as [|b l] eqn:Hw2.
    + rewrite app_nil_r. reflexivity.
    + apply last_app_cons.
Qed.

Lemma walks_assign w (st : StreamStatus.t) :
  bool_decide (state (self w) = st) || transition (state (self w)) st = true ->
  walks w (with_effects [Assign st] (with_self (set_state st) w)).
Proof.
  intros Hstep. exists [Assign st]. cbn. rewrite Hstep. repeat split.
Qed.

Lemma stop_writes_last wk s : List.last (stop_writes wk s) (state s) = STOPPED.
Proof.
  unfold stop_writes. case_bool_decide as Hst; [exact Hst|].
  destruct (loop_thread s), wk; reflexivity.
Qed.

Lemma walks_stopped wk w : walks w (stopped wk w).
Proof.
  destruct (stopped_trace wk w) as (suf & Htr & _ & Hwr).
  exists suf. rewrite Hwr, stop_writes_follow, stop_writes_last, stopped_state.
  repeat split. exact Htr.
Qed.

Lemma walks_started w :
  state (self w) ∈ [STOPPED; INITIALIZING] -> walks w (started w).
Proof.
  rewrite idle_states. intros Hst.
  exists [Assign CONNECTING; ThreadStart ("webrtc_" +:+ uri (self w))].
  cbn. destruct Hst as [-> | ->]; repeat split.
Qed.

Lemma walks_failed wk w : walks w (failed wk w).
Proof.
  unfold failed.
  apply (walks_trans _ (stopped wk w)); [apply walks_stopped|].
  destruct (reconnect (options (self (stopped wk w)))); [|apply walks_refl].
  set (n := _reconnect_count (self (stopped wk w)) + 1).
  assert (Hquiet : forall l : list effect, writes l = [] ->
            walks (stopped wk w)
              (with_effects l (with_self (set_reconnect_count n) (stopped wk w)))).
  { intros l Hl. exists l. cbn. rewrite Hl. repeat split. }
  destruct (Z.ltb n 10).
  - eapply walks_trans; [apply (Hquiet [Sleep (backoff n)]); reflexivity|].
    apply walks_started. cbn. rewrite stopped_state, !elem_of_cons. tauto.
  - specialize (Hquiet [] eq_refl). unfold with_effects in Hquiet. cbn in Hquiet.
    rewrite app_nil_r in Hquiet. exact Hquiet.
Qed.

(** [health_check] changes nothing or handles a failure. *)
Lemma health_check_cases now wk w :
  snd (health_check now wk w) = w \/ snd (health_check now wk w) = failed wk w.
Proof.
  change (wp (health_check now wk) (fun _ w' => w' = w \/ w' = failed wk w) w).
  unfold health_check.
  repeat (first [ rewrite (wp_eq _ _ _ _ _ (handle_failure_eq _ _)) | wp_step | wp_case ]);
    auto.
Qed.

Lemma walks_call c w : walks w (snd (perform_call c w)).
Proof.
  destruct c as [| |wk|wk| |now wk|wk]; cbn [perform_call].
  - cbn. apply walks_assign. apply orb_true_r.
  - unfold mbind, M_bind. rewrite start_eq.
    case_bool_decide as Hst; cbn; [apply walks_started; exact Hst|apply walks_refl].
  - unfold mbind, M_bind. rewrite stop_eq. cbn. apply walks_stopped.
  - unfold mbind, M_bind. rewrite disable_eq. cbn.
    apply (walks_trans _ (stopped wk w)); [apply walks_stopped|].
    apply walks_assign. rewrite stopped_state. reflexivity.
  - unfold mbind, M_bind. rewrite enable_eq. cbn.
    case_bool_decide as Hst; [|apply walks_refl].
    apply walks_assign. rewrite Hst. reflexivity.
  - assert (Hsnd : snd ((health_check now wk;; mret tt) w) = snd (health_check now wk w)).
    { unfold mbind, M_bind. destruct (health_check now wk w) as [[?|?|] ?]; reflexivity. }
    rewrite Hsnd. destruct (health_check_cases now wk w) as [-> | ->];
      [apply walks_refl|apply walks_failed].
  - rewrite handle_failure_eq. cbn [snd]. apply walks_failed.
Qed.

Lemma walks_run calls w : walks w (run_calls calls w).
Proof.
  revert w. induction calls as [|c calls IH]; intros w; cbn [run_calls].
  - apply walks_refl.
  - eapply walks_trans; [apply walks_call|apply IH].
Qed.

(** C2, as the code has it. Over any sequence of [init], [start], [stop],
    [disable], [enable] and [health_check] calls and failure handlings,
    from any state and whatever the worker does meanwhile, every value
    assigned to the state is the current one again or the target of a
    transition of section 4.2; in particular Stopped is never assigned
    right after Connected. The coroutine's own [_cleanup] is the exception:
    from any state but Stopped and Stopping it assigns Stopped directly. *)
Theorem calls_follow_state_machine (calls : list api_call) (w : World) :
  follows (state (self w)) (history w (run_calls calls w)) = true /\
  (forall i : nat,
     (state (self w) :: history w (run_calls calls w)) !! i = Some CONNECTED ->
     (state (self w) :: history w (run_calls calls w)) !! S i = Some STOPPED ->
     False) /\
  transition CONNECTED STOPPED = false /\
  (forall w0 : World,
     state (self w0) ∉ [STOPPED; STOPPING] -> history w0 (snd (_cleanup w0)) = [STOPPED]).
Proof.
  destruct (walks_run calls w) as (suf & Htr & Hf & _).
  unfold history. rewrite (new_effects_app _ _ _ Htr).
  split; [exact Hf|]. split; [intros i; apply follows_never_skips; exact Hf|].
  split; [reflexivity|].
  intros w0 Hst. rewrite cleanup_eq. cbn [snd].
  rewrite (new_effects_app _ _ (cleanup_effects w0)) by reflexivity.
  rewrite cleanup_effects_writes, bool_decide_eq_false_2 by exact Hst. reflexivity.
Qed.

Lemma calls_follow_state_machine_witness :
  follows (state (self streaming))
    (history streaming
       (run_calls [CallStop LoopStopped; CallStart; CallDisable StillRunning; CallEnable]
          streaming)) = true /\
  history (after init fresh) (snd (_cleanup (after init fresh))) = [STOPPED].
Proof.
  pose proof (calls_follow_state_machine
                [CallStop LoopStopped; CallStart; CallDisable StillRunning; CallEnable]
                streaming) as (Hf & _ & _ & Hc).
  split; [exact Hf|].
  apply Hc.
  change (state (self (after init fresh))) with INITIALIZING.
  rewrite !elem_of_cons, elem_of_nil. intuition discriminate.
Defined.

(** C2 as stated fails: when the transport reports the ICE state failed on
    a Connected session, the handler runs [_cleanup], which assigns Stopped
    at once; Stopping is never assigned. *)
Lemma ice_failure_skips_stopping :
  state (self streaming) = CONNECTED /\
  history streaming (snd (ice_state_becomes "failed" 200 streaming)) = [STOPPED] /\
  follows (state (self streaming))
    (history streaming (snd (ice_state_becomes "failed" 200 streaming))) = false.
Proof.
  split; [vm_compute; reflexivity|]. split; vm_compute; reflexivity.
Qed.

(** ** A connection attempt without credentials *)

Lemma calm_creates_no_pipe (l : list effect) :
  forallb calm l = true -> forallb (fun e => negb (creates_pipe e)) l = true.
Proof.
  induction l as [|e l IH]; [reflexivity|]. cbn [forallb].
  rewrite !andb_true_iff. intros [He Hl]. split; [|exact (IH Hl)].
  destruct e; try reflexivity; discriminate.
Qed.

Section Attempt.
Context `{Codecs}.

Lemma run_event_loop_refused (env : ConnectEnv) (w : World) :
  result (kvs_signal env) <> Some "ok" ->
  _run_event_loop env w = (Return tt, refused w).
Proof.
  intros Hres. apply wp_elim.
  unfold _run_event_loop, _connect_webrtc, loop_frame, connect_frame, connect_body.
  wp_run. rewrite bool_decide_eq_false_2 by exact Hres. cbn. wp_run.
  rewrite (wp_eq _ _ _ _ _ (cleanup_eq _)). cbn. wp_run.
  split; [reflexivity|].
  destruct w as [[cam u o st t0 t1 th lp p sg fp vp ap ev vt at_ n] fs tr ms].
  unfold refused, with_self, with_effects, cleaned, cleanup_effects. cbn.
  rewrite <- !app_assoc. reflexivity.
Qed.


End Attempt.



(** ** Cleanup and pipes *)

Lemma released_cleaned w : released (self (cleaned w)).
Proof. repeat split. Qed.

Lemma tmp_path_nonempty (u suffix : string) : "/tmp/" +:+ u +:+ suffix <> "".
Proof. discriminate. Qed.

Lemma mkfifo_eq (path : string) (w : World) :
  suppress [FileExistsError] (mkfifo_attr (Some path)) w =
  (Return tt,
   if bool_decide (path ∈ files w) then w
   else mkWorld (self w) (files w ∪ {[path]}) (trace w ++ [Mkfifo path]) (_media_started w)).
Proof.
  apply wp_elim. cbn [mkfifo_attr]. unfold os_mkfifo. wp_run.
  case_bool_decide; wp_run; split; reflexivity.
Qed.

Lemma mkfifo_present (path : string) (w : World) :
  path ∈ files (snd (suppress [FileExistsError] (mkfifo_attr (Some path)) w)).
Proof.
  rewrite mkfifo_eq. cbn [snd]. case_bool_decide as Hin; [exact Hin|].
  cbn. apply elem_of_union_r, elem_of_singleton. reflexivity.
Qed.

Lemma pipe_set_tmp (u suffix : string) : pipe_set (Some ("/tmp/" +:+ u +:+ suffix)) = true.
Proof. reflexivity. Qed.

Lemma tmp_eqb (u suffix : string) : ("/tmp/" +:+ u +:+ suffix =? "") = false.
Proof. reflexivity. Qed.

Lemma wp_mkfifo_tolerant (path : string) (Q : outcome unit -> World -> Prop) w :
  wp (mkfifo_tolerant (Some path)) Q w =
  Q (Return tt)
    (if bool_decide (path ∈ files w) then w
     else mkWorld (self w) (files w ∪ {[path]}) (trace w ++ [Mkfifo path]) (_media_started w)).
Proof. apply wp_eq, mkfifo_eq. Qed.

Lemma wp_start_ffmpeg (env : MediaEnv) (Q : outcome unit -> World -> Prop) w :
  popen_raises env = None ->
  wp (_start_ffmpeg env) Q w =
  Q (Return tt)
    (mkWorld (set_ffmpeg_process (Some (ffmpeg_of env (self w))) (self w)) (files w)
       (trace w ++ [Spawn (args (ffmpeg_of env (self w)))]) (_media_started w)).
Proof.
  intros Hpo. unfold _start_ffmpeg. wp_run. rewrite Hpo. wp_run. reflexivity.
Qed.

Ltac media_step :=
  first [ rewrite wp_mkfifo_tolerant
        | rewrite wp_start_ffmpeg by assumption
        | rewrite pipe_set_tmp
        | rewrite tmp_eqb
        | case_bool_decide
        | wp_step ].

(** What [_handle_media_tracks] has set up when the subprocess starts and
    the pumps run: the video pipe, and the audio pipe when audio is
    configured and its track was received. *)
Lemma media_set_up (env : MediaEnv) (wk : worker) (w : World) :
  popen_raises env = None -> pumps_raise env = None ->
  let w1 := snd (_handle_media_tracks env wk w) in
  video_pipe (self w1) = Some (video_path (self w)) /\
  video_path (self w) ∈ files w1 /\
  (audio (options (self w)) = true -> is_Some (_audio_track (self w)) ->
   audio_pipe (self w1) = Some (audio_path (self w)) /\
   audio_path (self w) ∈ files w1) /\
  pc (self w1) = pc (self w) /\
  is_Some (ffmpeg_process (self w1)).
Proof.
  intros Hpo Hpu. cbn zeta.
  change (wp (_handle_media_tracks env wk)
            (fun _ w1 =>
               video_pipe (self w1) = Some (video_path (self w)) /\
               video_path (self w) ∈ files w1 /\
               (audio (options (self w)) = true -> is_Some (_audio_track (self w)) ->
                audio_pipe (self w1) = Some (audio_path (self w)) /\
                audio_path (self w) ∈ files w1) /\
               pc (self w1) = pc (self w) /\
               is_Some (ffmpeg_process (self w1))) w).
  destruct w as [[cam u o st t0 t1 th lp p sg fp vp ap ev vt at_ n] fs tr ms].
  unfold _handle_media_tracks, video_path, audio_path, when, gather_pumps, wait_until_stopped.
  change (suppress [FileExistsError] (mkfifo_attr ?x)) with (mkfifo_tolerant x).
  rewrite Hpu. cbn. wp_run.
  destruct (audio o && bool_decide (is_Some at_)) eqn:Haud; wp_run.
  - repeat (first [media_step | wp_case]).
    all: wp_run; cbn in *.
    all: repeat split; try (intros; discriminate); eauto.
    all: rewrite ?elem_of_union, ?elem_of_singleton; try tauto.
  - assert (Hno : audio o = true -> is_Some at_ -> False).
    { intros Ha Hs. rewrite Ha, bool_decide_eq_true_2 in Haud by exact Hs. discriminate. }
    clear Haud.
    destruct ap as [path|].
    all: repeat (first [media_step | wp_case]).
    all: wp_run; cbn in *.
    all: repeat split; try (intros; discriminate); try (intros; exfalso; eauto; fail); eauto.
    all: rewrite ?elem_of_union, ?elem_of_singleton; try tauto.
Qed.

(** C7 fails on the code. A connected session with its pipes and its
    subprocess is stopped from outside while the worker waits in its loop:
    [stop()] returns [True] and the session is Stopped, but [loop.stop()]
    has ended the worker before its coroutine reached [_cleanup], so both
    pipe files are still in the file system and the session still holds
    both pipe paths and both tracks. It is the same after
    [_handle_failure], which stops the session that way before it
    restarts it. *)
Lemma stop_leaves_pipes_behind :
  let w1 := after (stop LoopStopped) streaming in
  let w2 := after (_handle_failure LoopStopped) streaming in
  state (self streaming) = CONNECTED /\
  fst (stop LoopStopped streaming) = Return true /\
  state (self w1) = STOPPED /\
  video_pipe (self w1) = Some "/tmp/front-door_video.pipe" /\
  audio_pipe (self w1) = Some "/tmp/front-door_audio.pipe" /\
  is_Some (_video_track (self w1)) /\
  is_Some (_audio_track (self w1)) /\
  bool_decide ("/tmp/front-door_video.pipe" ∈ files w1) = true /\
  bool_decide ("/tmp/front-door_audio.pipe" ∈ files w1) = true /\
  Forall (fun e => forall path, e <> Remove path) (new_effects streaming w1) /\
  state (self w2) = CONNECTING /\
  video_pipe (self w2) = Some "/tmp/front-door_video.pipe" /\
  bool_decide ("/tmp/front-door_video.pipe" ∈ files w2) = true /\
  bool_decide ("/tmp/front-door_audio.pipe" ∈ files w2) = true.
Proof.
  cbn zeta. unfold after. rewrite stop_eq, handle_failure_eq. cbn [fst snd].
  split; [vm_compute; reflexivity|]. split; [reflexivity|].
  split; [apply stopped_state|].
  split; [vm_compute; reflexivity|]. split; [vm_compute; reflexivity|].
  split; [vm_compute; eauto|]. split; [vm_compute; eauto|].
  split; [vm_compute; reflexivity|]. split; [vm_compute; reflexivity|].
  split.
  { assert (Hfx : new_effects streaming (stopped LoopStopped streaming)
                  = [Assign STOPPING; LoopStop; Join "webrtc_front-door";
                     Assign STOPPED; Assign STOPPED]) by (vm_compute; reflexivity).
    rewrite Hfx. repeat constructor; discriminate. }
  split; [vm_compute; reflexivity|]. split; [vm_compute; reflexivity|].
  split; vm_compute; reflexivity.
Qed.

(** ** Signaling messages the decoders reject *)

Section Signaling.
Context `{Codecs}.

Ltac wp_auto := repeat (first [wp_step | wp_case]).

Lemma handle_message_no_payload (d : list (string * pyval)) (ch : Kvs.Channel) :
  dict_get "messagePayload" d = None ->
  Kvs._handle_message (PDict d) ch = (Return tt, ch).
Proof.
  intros Hno. apply wp_elim. unfold Kvs._handle_message, Kvs.py_get.
  rewrite Hno. wp_auto; auto.
Qed.

Lemma decode_rejected_payload (encoded : string) (ch : Kvs.Channel) :
  rejected_payload encoded = true ->
  (decoded ← Kvs.decode_payload (PStr encoded); Kvs.loads decoded) ch
  = (Raise BinasciiError, ch) \/
  (decoded ← Kvs.decode_payload (PStr encoded); Kvs.loads decoded) ch
  = (Raise UnicodeDecodeError, ch) \/
  (decoded ← Kvs.decode_payload (PStr encoded); Kvs.loads decoded) ch
  = (Raise JSONDecodeError, ch).
Proof.
  unfold rejected_payload, Kvs.decode_payload, Kvs.loads, mbind, M_bind.
  destruct (b64decode encoded) as [bytes|]; [|left; reflexivity].
  destruct (utf8_decode bytes) as [text|]; [|right; left; reflexivity].
  cbn. destruct (json_loads text); [discriminate|]. right; right; reflexivity.
Qed.

Lemma handle_message_rejected_payload (d : list (string * pyval)) (encoded : string)
    (ch : Kvs.Channel) :
  dict_get "messagePayload" d = Some (PStr encoded) ->
  rejected_payload encoded = true ->
  Kvs._handle_message (PDict d) ch = (Return tt, ch).
Proof.
  intros Hp Hbad. apply wp_elim.
  unfold Kvs._handle_message, Kvs.py_get, Kvs.decode_payload, Kvs.loads.
  unfold rejected_payload in Hbad.
  rewrite Hp. cbn [default truthy id].
  wp_auto; auto.
  all: try (cbn in Hbad; discriminate Hbad).
  all: split; reflexivity.
Qed.

(** An undecodable frame leaves the channel as it was: nothing is raised and
    no callback is called. *)
Lemma receive_one_undecodable (m : Kvs.frame) (ch : Kvs.Channel) :
  undecodable m = true -> Kvs.receive_one m ch = (Return tt, ch).
Proof.
  unfold undecodable, frame_text. intros Hm. apply wp_elim. unfold Kvs.receive_one.
  rewrite !wp_try_except, wp_bind.
  destruct m as [s|b].
  - wp_run. destruct (_ || _); wp_run; [auto|].
    unfold Kvs.loads. destruct (json_loads s) as [[| | | | | |d]|]; try discriminate Hm.
    + rewrite wp_ret. cbv beta iota.
      destruct (dict_get "messagePayload" d) as [[| | | |encoded| |]|] eqn:Hp;
        try discriminate Hm.
      * rewrite (wp_eq _ _ _ _ _ (handle_message_rejected_payload d encoded ch Hp Hm)). auto.
      * rewrite (wp_eq _ _ _ _ _ (handle_message_no_payload d ch Hp)). auto.
    + rewrite wp_raise. split; reflexivity.
  - destruct (utf8_decode b) as [s|]; [|rewrite wp_raise; split; reflexivity].
    wp_run. destruct (_ || _); wp_run; [auto|].
    unfold Kvs.loads. destruct (json_loads s) as [[| | | | | |d]|]; try discriminate Hm.
    + rewrite wp_ret. cbv beta iota.
      destruct (dict_get "messagePayload" d) as [[| | | |encoded| |]|] eqn:Hp;
        try discriminate Hm.
      * rewrite (wp_eq _ _ _ _ _ (handle_message_rejected_payload d encoded ch Hp Hm)). auto.
      * rewrite (wp_eq _ _ _ _ _ (handle_message_no_payload d ch Hp)). auto.
    + rewrite wp_raise. split; reflexivity.
Qed.

Lemma receive_all_filter (frames : list Kvs.frame) (ch : Kvs.Channel) :
  Kvs.receive_all frames ch =
  Kvs.receive_all (List.filter (fun m => negb (undecodable m)) frames) ch.
Proof.
  revert ch. induction frames as [|m frames IH]; intros ch; [reflexivity|].
  cbn [List.filter Kvs.receive_all].
  destruct (undecodable m) eqn:Hm; cbn [negb].
  - unfold mbind, M_bind at 1. rewrite (receive_one_undecodable m ch Hm). apply IH.
  - cbn [Kvs.receive_all]. unfold mbind, M_bind.
    destruct (Kvs.receive_one m ch) as [[[]|e|] ch']; [apply IH|reflexivity|reflexivity].
Qed.
Lemma receive_all_undecodable (frames : list Kvs.frame) (ch : Kvs.Channel) :
  forallb undecodable frames = true -> Kvs.receive_all frames ch = (Return tt, ch).
Proof.
  induction frames as [|m frames IH]; [reflexivity|].
  cbn [forallb Kvs.receive_all]. rewrite andb_true_iff. intros [Hm Hrest].
  unfold mbind, M_bind. rewrite (receive_one_undecodable m ch Hm). exact (IH Hrest).
Qed.


End Signaling.



(** A well-formed answer does reach the callback. *)
Lemma well_formed_answer_is_delivered :
  @undecodable toy_codecs (Kvs.Text "answer") = false /\
  Kvs.calls (snd (@Kvs.receive_one toy_codecs (Kvs.Text "answer") listening))
    = [Kvs.AnswerCall PNone].
Proof. split; reflexivity. Qed.

(** * Further properties of the code *)

(** ** The receive loop, whatever arrives *)

Lemma only_calls_refl n ch : only_calls n ch ch.
Proof. repeat split. exists []. rewrite app_nil_r. split; [reflexivity|cbn; lia]. Qed.

Lemma only_calls_trans n m ch1 ch2 ch3 :
  only_calls n ch1 ch2 -> only_calls m ch2 ch3 -> only_calls (n + m) ch1 ch3.
Proof.
  intros (Hc1 & Hs1 & s1 & Hl1 & Hn1) (Hc2 & Hs2 & s2 & Hl2 & Hn2).
  split; [congruence|]. split; [congruence|].
  exists (s1 ++ s2). rewrite Hl2, Hl1, app_assoc, length_app. split; [reflexivity|lia].
Qed.

Lemma only_calls_invoke c ch :
  only_calls 1 ch (Kvs.mkChannel (Kvs.client ch) (Kvs.sent ch) (Kvs.calls ch ++ [c])).
Proof. repeat split. exists [c]. split; [reflexivity|cbn; lia]. Qed.

Section Robust.
Context `{Codecs}.

Lemma wp_invoke (c : Kvs.call) (r : option pyexn) (Q : outcome unit -> Kvs.Channel -> Prop) ch :
  wp (Kvs.invoke c r) Q ch =
  Q (match r with None => Return tt | Some e => Raise e end)
    (Kvs.mkChannel (Kvs.client ch) (Kvs.sent ch) (Kvs.calls ch ++ [c])).
Proof. unfold wp, Kvs.invoke. destruct r; reflexivity. Qed.

(** [_handle_message] calls at most one callback; it raises only when the
    message is not a dictionary or when the callback raises what
    [except Exception] does not catch. *)
Lemma handle_message_post (data : pyval) (ch : Kvs.Channel) :
  only_calls 1 ch (snd (Kvs._handle_message data ch)) /\
  match fst (Kvs._handle_message data ch) with
  | Return _ => True
  | Raise e => isinstance e Exception_ = false \/ (e = AttributeError /\ forall d, data <> PDict d)
  | Pending => False
  end.
Proof.
  change (wp (Kvs._handle_message data)
            (fun r ch' => only_calls 1 ch ch' /\
               match r with
               | Return _ => True
               | Raise e => isinstance e Exception_ = false \/
                            (e = AttributeError /\ forall d, data <> PDict d)
               | Pending => False
               end) ch).
  unfold Kvs._handle_message, Kvs.py_get, Kvs.decode_payload, Kvs.loads.
  destruct data as [| | | | | |d];
    try (rewrite wp_bind, wp_raise; split; [apply only_calls_refl|];
         right; split; [reflexivity|discriminate]).
  repeat (first [ rewrite wp_invoke | wp_step | wp_case ]).
  all: try (split; [apply only_calls_refl|exact I]).
  all: try (split; [apply only_calls_invoke|exact I]).
  all: match goal with |- context [match ?f ?x with Some _ => _ | None => _ end] =>
         destruct (f x) as [e|]; cbn; [destruct (isinstance e Exception_) eqn:?|] end.
  all: split; [apply only_calls_invoke|auto].
Qed.

End Robust.

(** An [except] clause that only logs: the state is the body's, and the
    exceptions of the class become a plain return. *)
Lemma try_except_log {S} (body : M S unit) (cls : pyexn) (s : S) :
  snd (try_except body cls (mret tt) s) = snd (body s) /\
  fst (try_except body cls (mret tt) s) =
    match fst (body s) with
    | Raise e => if isinstance e cls then Return tt else Raise e
    | r => r
    end.
Proof.
  unfold try_except. destruct (body s) as [[[]|e|] s']; cbn; auto.
  destruct (isinstance e cls); auto.
Qed.

Section Robust2.
Context `{Codecs}.

(** One frame: whatever it holds, at most one callback is called and only
    an exception outside [Exception] gets out. *)
Lemma receive_one_post (message : Kvs.frame) (ch : Kvs.Channel) :
  only_calls 1 ch (snd (Kvs.receive_one message ch)) /\
  returns_or_cancelled (fst (Kvs.receive_one message ch)).
Proof.
  unfold Kvs.receive_one.
  match goal with |- context [try_except (try_except ?b _ _) _ _] => set (body := b) end.
  destruct (try_except_log (try_except body JSONDecodeError (mret tt)) Exception_ ch) as [-> ->].
  destruct (try_except_log body JSONDecodeError ch) as [-> ->].
  assert (Hbody : only_calls 1 ch (snd (body ch)) /\
                  match fst (body ch) with
                  | Return _ => True
                  | Raise e => isinstance e Exception_ = false \/ isinstance e Exception_ = true
                  | Pending => False
                  end /\
                  (forall e, fst (body ch) = Raise e -> isinstance e Exception_ = false ->
                             isinstance e JSONDecodeError = false)).
  { assert (Hrest : forall s,
      let m : M Kvs.Channel unit :=
        if String.eqb s "" || String.eqb (str_strip s) "" then mret tt
        else data ← Kvs.loads s; Kvs._handle_message data in
      only_calls 1 ch (snd (m ch)) /\
      match fst (m ch) with
      | Return _ => True
      | Raise e => isinstance e Exception_ = false \/ isinstance e Exception_ = true
      | Pending => False
      end /\
      (forall e, fst (m ch) = Raise e -> isinstance e Exception_ = false ->
                 isinstance e JSONDecodeError = false)).
    { intros s. cbv zeta.
      destruct (String.eqb s "" || String.eqb (str_strip s) "").
      - cbn. split; [apply only_calls_refl|]. split; [exact I|discriminate].
      - unfold Kvs.loads. destruct (json_loads s) as [v|].
        + change ((data ← mret v; Kvs._handle_message data) ch)
            with (Kvs._handle_message v ch).
          destruct (handle_message_post v ch) as [Hc Hr].
          split; [exact Hc|].
          destruct (fst (Kvs._handle_message v ch)) as [[]|e|]; try contradiction.
          * split; [exact I|discriminate].
          * split.
            -- destruct (isinstance e Exception_); auto.
            -- intros e' [= <-] He. destruct e; try reflexivity; discriminate He.
        + cbn. split; [apply only_calls_refl|]. split; [right; reflexivity|].
          intros e [= <-]. discriminate. }
    subst body. destruct message as [s|b].
    - exact (Hrest s).
    - destruct (utf8_decode b) as [s|].
      + exact (Hrest s).
      + cbn. split; [apply only_calls_refl|]. split; [right; reflexivity|].
        intros e [= <-]. discriminate. }
  destruct Hbody as (Hc & Hr & Hj). split; [exact Hc|].
  destruct (fst (body ch)) as [[]|e|]; try contradiction; cbn; auto.
  destruct (isinstance e Exception_) eqn:He.
  - destruct (isinstance e JSONDecodeError); cbn; auto. rewrite He. exact I.
  - rewrite (Hj e eq_refl He). rewrite He. cbn. exact He.
Qed.

Lemma receive_all_post (frames : list Kvs.frame) (ch : Kvs.Channel) :
  only_calls (length frames) ch (snd (Kvs.receive_all frames ch)) /\
  returns_or_cancelled (fst (Kvs.receive_all frames ch)).
Proof.
  revert ch. induction frames as [|m rest IH]; intros ch.
  - cbn. split; [apply only_calls_refl|exact I].
  - destruct (receive_one_post m ch) as [Hc Hr].
    change (Kvs.receive_all (m :: rest) ch)
      with (match Kvs.receive_one m ch with
            | (Return a, s') => Kvs.receive_all rest s'
            | (Raise e, s') => (Raise e, s')
            | (Pending, s') => (Pending, s')
            end).
    destruct (Kvs.receive_one m ch) as [[[]|e|] ch1]; cbn in Hc, Hr; try contradiction.
    + destruct (IH ch1) as [Hc' Hr']. split; [|exact Hr'].
      change (length (m :: rest)) with (1 + length rest)%nat.
      eapply only_calls_trans; eassumption.
    + split; [|exact Hr]. cbn [snd].
      destruct Hc as (? & ? & suf & ? & ?). repeat split; auto.
      exists suf. split; [assumption|cbn; lia].
Qed.

(** X1. Whatever frames the socket delivers, however it ends and whatever
    the callbacks do, [_receive_loop] returns or lets a [CancelledError]
    through, never an [Exception]; it sends nothing, leaves the client as
    it was, and calls at most one callback per frame. *)
Theorem receive_loop_survives_any_input
    (frames : list Kvs.frame) (ending : option pyexn) (ch : Kvs.Channel) :
  returns_or_cancelled (fst (Kvs._receive_loop frames ending ch)) /\
  only_calls (length frames) ch (snd (Kvs._receive_loop frames ending ch)).
Proof.
  unfold Kvs._receive_loop.
  match goal with |- context [try_except (try_except ?b _ _) _ _] => set (body := b) end.
  destruct (try_except_log (try_except body ConnectionClosed (mret tt)) Exception_ ch) as [-> ->].
  destruct (try_except_log body ConnectionClosed ch) as [-> ->].
  destruct (receive_all_post frames ch) as [Hc Hr].
  assert (Hbody : only_calls (length frames) ch (snd (body ch)) /\
                  match fst (body ch) with Pending => False | _ => True end).
  { subst body.
    change ((Kvs.receive_all frames;; match ending with Some e => raise e | None => mret tt end) ch)
      with (match Kvs.receive_all frames ch with
            | (Return a, s') => (match ending with Some e => raise e | None => mret tt end) s'
            | (Raise e, s') => (Raise e, s')
            | (Pending, s') => (Pending, s')
            end).
    destruct (Kvs.receive_all frames ch) as [[[]|e|] ch1]; cbn in Hc, Hr; try contradiction.
    - destruct ending; cbn; auto.
    - cbn. auto. }
  destruct Hbody as [Hc' Hr']. split; [|exact Hc'].
  destruct (fst (body ch)) as [[]|e|]; try contradiction; cbn; auto.
  destruct (isinstance e ConnectionClosed) eqn:Hcc; cbn; auto.
  destruct (isinstance e Exception_) eqn:He; cbn; auto.
Qed.
End Robust2.

(** ** Well-formed messages reach their callback *)

Section Delivery.
Context `{Codecs}.

Lemma frame_text_body (m : Kvs.frame) (message : string) (k : string -> M Kvs.Channel unit) ch :
  frame_text m = Some message ->
  (message ← match m with
             | Kvs.Binary b =>
                 match utf8_decode b with
                 | None => raise UnicodeDecodeError
                 | Some s => mret s
                 end
             | Kvs.Text s => mret s
             end; k message) ch = k message ch.
Proof.
  destruct m as [s|b]; cbn.
  - intros [= ->]. reflexivity.
  - intros ->. reflexivity.
Qed.

Lemma eqb_false (s t : string) : s <> t -> String.eqb s t = false.
Proof. intros Hne. apply String.eqb_neq. exact Hne. Qed.

(** X2. A frame that carries an [ICE_CANDIDATE] envelope whose payload
    decodes is handed to [on_ice_candidate] exactly once, with the decoded
    candidate; nothing is sent, and unless the callback is cancelled the
    loop goes on. *)
Theorem candidate_reaches_callback
    (m : Kvs.frame) (message encoded bytes text : string)
    (d : list (string * pyval)) (candidate : pyval) (f : Kvs.callback) (ch : Kvs.Channel)
    (Hframe : frame_text m = Some message)
    (Hmsg : message <> "" /\ str_strip message <> "")
    (Hjson : json_loads message = Some (PDict d))
    (Htype : dict_get "messageType" d = Some (PStr "ICE_CANDIDATE"))
    (Hpayload : dict_get "messagePayload" d = Some (PStr encoded) /\ encoded <> "")
    (Hb64 : b64decode encoded = Some bytes)
    (Hutf8 : utf8_decode bytes = Some text)
    (Hinner : json_loads text = Some candidate)
    (Hcb : Kvs.on_ice_candidate (Kvs.client ch) = Some f)
    (Hf : well_behaved (f candidate)) :
  Kvs.receive_one m ch =
    (Return tt,
     Kvs.mkChannel (Kvs.client ch) (Kvs.sent ch)
       (Kvs.calls ch ++ [Kvs.CandidateCall candidate])).
Proof.
  destruct Hmsg as [Hne Hstrip]. destruct Hpayload as [Hpayload Henc].
  assert (Hh : Kvs._handle_message (PDict d) ch =
               (Return tt, Kvs.mkChannel (Kvs.client ch) (Kvs.sent ch)
                             (Kvs.calls ch ++ [Kvs.CandidateCall candidate]))).
  { apply wp_elim. unfold Kvs._handle_message, Kvs.py_get, Kvs.decode_payload, Kvs.loads.
    rewrite Htype, Hpayload.
    repeat (first [ rewrite Hcb | rewrite Hb64 | rewrite Hutf8 | rewrite Hinner
                  | rewrite (eqb_false _ _ Henc) | progress cbn [negb] | wp_step ]).
    rewrite wp_invoke. destruct (f candidate) as [e|] eqn:Hr; [|auto].
    rewrite (Hf e eq_refl). wp_run. auto. }
  unfold Kvs.receive_one, try_except at 1 2.
  rewrite (frame_text_body m message _ ch Hframe).
  rewrite (eqb_false _ _ Hne), (eqb_false _ _ Hstrip). cbn [orb].
  unfold Kvs.loads. rewrite Hjson.
  change ((mret (PDict d) ≫= λ data : pyval, Kvs._handle_message data) ch)
    with (Kvs._handle_message (PDict d) ch).
  rewrite Hh. reflexivity.
Qed.

(** X3. A frame that carries an [SDP_ANSWER] envelope whose payload decodes
    is handed to [on_answer] exactly once: with the [sdp] entry when the
    payload is an object ([None] when the entry is missing), with the
    decoded text itself when it is any other JSON value. *)
Theorem answer_reaches_callback
    (m : Kvs.frame) (message encoded bytes text : string)
    (d : list (string * pyval)) (payload : pyval) (f : Kvs.callback) (ch : Kvs.Channel)
    (Hframe : frame_text m = Some message)
    (Hmsg : message <> "" /\ str_strip message <> "")
    (Hjson : json_loads message = Some (PDict d))
    (Htype : dict_get "messageType" d = Some (PStr "SDP_ANSWER"))
    (Hpayload : dict_get "messagePayload" d = Some (PStr encoded) /\ encoded <> "")
    (Hb64 : b64decode encoded = Some bytes)
    (Hutf8 : utf8_decode bytes = Some text)
    (Hinner : json_loads text = Some payload)
    (Hcb : Kvs.on_answer (Kvs.client ch) = Some f)
    (Hf : well_behaved (f (answer_argument payload text))) :
  Kvs.receive_one m ch =
    (Return tt,
     Kvs.mkChannel (Kvs.client ch) (Kvs.sent ch)
       (Kvs.calls ch ++ [Kvs.AnswerCall (answer_argument payload text)])).
Proof.
  destruct Hmsg as [Hne Hstrip]. destruct Hpayload as [Hpayload Henc].
  assert (Hh : Kvs._handle_message (PDict d) ch =
               (Return tt, Kvs.mkChannel (Kvs.client ch) (Kvs.sent ch)
                             (Kvs.calls ch ++ [Kvs.AnswerCall (answer_argument payload text)]))).
  { apply wp_elim. unfold Kvs._handle_message, Kvs.py_get, Kvs.decode_payload, Kvs.loads.
    rewrite Htype, Hpayload.
    repeat (first [ rewrite Hcb | rewrite Hb64 | rewrite Hutf8 | rewrite Hinner
                  | rewrite (eqb_false _ _ Henc) | progress cbn [negb] | wp_step ]).
    fold (answer_argument payload text).
    rewrite wp_invoke. destruct (f (answer_argument payload text)) as [e|] eqn:Hr; [|auto].
    rewrite (Hf e eq_refl). wp_run. auto. }
  unfold Kvs.receive_one, try_except at 1 2.
  rewrite (frame_text_body m message _ ch Hframe).
  rewrite (eqb_false _ _ Hne), (eqb_false _ _ Hstrip). cbn [orb].
  unfold Kvs.loads. rewrite Hjson.
  change ((mret (PDict d) ≫= λ data : pyval, Kvs._handle_message data) ch)
    with (Kvs._handle_message (PDict d) ch).
  rewrite Hh. reflexivity.
Qed.

End Delivery.

Lemma candidate_reaches_callback_witness :
  Kvs.calls (snd (@Kvs.receive_one trickle_codecs (Kvs.Binary "candidate") listening))
    = [Kvs.CandidateCall (PDict [])].
Proof.
  rewrite (@candidate_reaches_callback trickle_codecs (Kvs.Binary "candidate") "candidate"
             "e30=" "{}" "{}"
             [("messageType", PStr "ICE_CANDIDATE"); ("messagePayload", PStr "e30=")]
             (PDict []) (fun _ => None) listening).
  - reflexivity.
  - reflexivity.
  - split; discriminate.
  - reflexivity.
  - reflexivity.
  - split; [reflexivity|discriminate].
  - reflexivity.
  - reflexivity.
  - reflexivity.
  - reflexivity.
  - intros e; discriminate.
Defined.

Lemma answer_reaches_callback_witness :
  Kvs.calls (snd (@Kvs.receive_one trickle_codecs (Kvs.Text "text-answer") listening))
    = [Kvs.AnswerCall (PStr "7")].
Proof.
  rewrite (@answer_reaches_callback trickle_codecs (Kvs.Text "text-answer") "text-answer"
             "dj0w" "7" "7"
             [("messageType", PStr "SDP_ANSWER"); ("messagePayload", PStr "dj0w")]
             (PInt 7) (fun _ => None) listening).
  - reflexivity.
  - reflexivity.
  - split; discriminate.
  - reflexivity.
  - reflexivity.
  - split; [reflexivity|discriminate].
  - reflexivity.
  - reflexivity.
  - reflexivity.
  - reflexivity.
  - intros e; discriminate.
Defined.

(** ** Stopping, disabling and enabling *)

(** X4. [stop] only winds down: it returns [True] and leaves the session
    Stopped; on the way it starts no thread, sleeps for no delay, creates no
    pipe, spawns nothing and asks for no credentials; no file appears; the
    reconnect counter, the start time and the options are untouched. *)
Theorem stop_only_winds_down (wk : worker) (w : World) :
  fst (stop wk w) = Return true /\
  state (self (after (stop wk) w)) = STOPPED /\
  forallb calm (new_effects w (after (stop wk) w)) = true /\
  files (after (stop wk) w) ⊆ files w /\
  _reconnect_count (self (after (stop wk) w)) = _reconnect_count (self w) /\
  start_time (self (after (stop wk) w)) = start_time (self w) /\
  options (self (after (stop wk) w)) = options (self w).
Proof.
  unfold after. rewrite stop_eq. cbn [fst snd].
  destruct (stopped_keeps wk w) as (_ & _ & Ho & Hn & Ht).
  destruct (stopped_trace wk w) as (suf & Htr & Hcalm & _).
  split; [reflexivity|]. split; [apply stopped_state|].
  split; [unfold new_effects; rewrite Htr, drop_app_length; exact Hcalm|].
  split; [apply stopped_files|]. auto.
Qed.

(** X5. After [stop], whatever the state before and whatever the worker
    did meanwhile, [start] is accepted: it returns [True], clears the stop
    event and starts the thread [webrtc_<uri>], leaving the session
    Connecting. *)
Theorem start_accepted_after_stop (wk : worker) (w : World) :
  let w1 := after (stop wk) w in
  fst (start w1) = Return true /\
  state (self (after start w1)) = CONNECTING /\
  _stop_event (self (after start w1)) = false /\
  new_effects w1 (after start w1) =
    [Assign CONNECTING; ThreadStart ("webrtc_" +:+ uri (self w))].
Proof.
  cbn zeta. unfold after. rewrite stop_eq. cbn [fst snd].
  rewrite (start_stopped _ (stopped_state wk w)). cbn [fst snd].
  destruct (stopped_keeps wk w) as (_ & Hu & _).
  repeat split. unfold new_effects. cbn [started trace]. rewrite drop_app_length, Hu.
  reflexivity.
Qed.

Lemma health_check_idle (now : Z) (wk : worker) (w : World) :
  state (self w) <> CONNECTED -> health_check now wk w = (Return (state (self w)), w).
Proof.
  intros Hst. apply wp_elim. unfold health_check. wp_run.
  rewrite bool_decide_eq_false_2 by exact Hst. wp_run. auto.
Qed.

(** X6. A disabled session stays down. After [disable], whatever the state
    before, the session is Disabled and reports not enabled; [start]
    returns [False] and [health_check] returns Disabled, and neither changes
    anything. Only [enable] reopens it: then the session is Stopped and
    [start] returns [True]. *)
Theorem disabled_until_enabled (wk wk' : worker) (now : Z) (w : World) :
  let w1 := after (disable wk) w in
  state (self w1) = DISABLED /\
  enabled (self w1) = false /\
  start w1 = (Return false, w1) /\
  health_check now wk' w1 = (Return DISABLED, w1) /\
  state (self (after enable w1)) = STOPPED /\
  enabled (self (after enable w1)) = true /\
  fst (start (after enable w1)) = Return true.
Proof.
  cbn zeta. unfold after. rewrite disable_eq. cbn [fst snd].
  set (w1 := with_effects [Assign DISABLED] (with_self (set_state DISABLED) (stopped wk w))).
  assert (Hst : state (self w1) = DISABLED) by reflexivity.
  split; [exact Hst|]. split; [reflexivity|].
  split.
  { rewrite start_eq. rewrite bool_decide_eq_false_2; [reflexivity|].
    rewrite Hst, idle_states. intros [?|?]; discriminate. }
  split.
  { rewrite health_check_idle by (rewrite Hst; discriminate). rewrite Hst. reflexivity. }
  rewrite enable_eq. cbn [fst snd]. rewrite bool_decide_eq_true_2 by exact Hst.
  split; [reflexivity|]. split; [reflexivity|].
  rewrite start_stopped by reflexivity. reflexivity.
Qed.

(** ** The health check *)

Lemma health_check_eq (now : Z) (wk : worker) (w : World) :
  health_check now wk w =
  if bool_decide (state (self w) = CONNECTED) && negb (healthy (self w))
  then (Return (state (self (failed wk w))), failed wk w)
  else (Return (state (self w)), w).
Proof.
  destruct (decide (state (self w) = CONNECTED)) as [Hst|Hst].
  - rewrite (bool_decide_eq_true_2 _ Hst). cbn [andb].
    assert (Hfail : wp (_handle_failure wk ≫= λ _ : (), read state)
                      (fun r w' => r = Return (state (self (failed wk w))) /\ w' = failed wk w) w).
    { wp_run. rewrite (wp_eq _ _ _ _ _ (handle_failure_eq wk w)). wp_run. auto. }
    unfold healthy.
    destruct (ffmpeg_process (self w)) as [proc|] eqn:Hfp.
    + destruct (bool_decide (is_Some (returncode proc))) eqn:Hrc; cbn [negb andb].
      * apply wp_elim. unfold health_check. wp_run.
        rewrite (bool_decide_eq_true_2 _ Hst). wp_run. rewrite Hfp, Hrc. exact Hfail.
      * destruct (pc (self w)) as [conn|] eqn:Hpc.
        -- destruct (String.eqb (iceConnectionState conn) "failed"
                     || String.eqb (iceConnectionState conn) "closed") eqn:Hice; cbn [negb].
           ++ apply wp_elim. unfold health_check. wp_run.
              rewrite (bool_decide_eq_true_2 _ Hst). wp_run. rewrite Hfp, Hrc. wp_run.
              rewrite Hpc, Hice. exact Hfail.
           ++ apply wp_elim. unfold health_check. wp_run.
              rewrite (bool_decide_eq_true_2 _ Hst). wp_run. rewrite Hfp, Hrc. wp_run.
              rewrite Hpc, Hice. wp_run. auto.
        -- apply wp_elim. unfold health_check. wp_run.
           rewrite (bool_decide_eq_true_2 _ Hst). wp_run. rewrite Hfp, Hrc. wp_run.
           rewrite Hpc. wp_run. auto.
    + cbn [andb]. destruct (pc (self w)) as [conn|] eqn:Hpc.
      * destruct (String.eqb (iceConnectionState conn) "failed"
                  || String.eqb (iceConnectionState conn) "closed") eqn:Hice; cbn [negb].
        -- apply wp_elim. unfold health_check. wp_run.
           rewrite (bool_decide_eq_true_2 _ Hst). wp_run. rewrite Hfp. wp_run.
           rewrite Hpc, Hice. exact Hfail.
        -- apply wp_elim. unfold health_check. wp_run.
           rewrite (bool_decide_eq_true_2 _ Hst). wp_run. rewrite Hfp. wp_run.
           rewrite Hpc, Hice. wp_run. auto.
      * apply wp_elim. unfold health_check. wp_run.
        rewrite (bool_decide_eq_true_2 _ Hst). wp_run. rewrite Hfp. wp_run.
        rewrite Hpc. wp_run. auto.
  - rewrite (bool_decide_eq_false_2 _ Hst). cbn [andb]. apply health_check_idle, Hst.
Qed.

Lemma failed_state (wk : worker) (w : World) :
  state (self (failed wk w)) = STOPPED \/ state (self (failed wk w)) = CONNECTING.
Proof.
  unfold failed. cbn zeta.
  destruct (reconnect (options (self (stopped wk w)))).
  - destruct (Z.ltb _ 10).
    + right. reflexivity.
    + left. cbn. apply stopped_state.
  - left. apply stopped_state.
Qed.

(** X7. [health_check] returns the state it leaves the session in, and
    that is Connected exactly when the session was Connected and healthy:
    its subprocess, if any, still runs and its transport, if any, reports
    neither [failed] nor [closed]. Such a session is left untouched,
    whatever the time: a transport that stays [disconnected] is never
    treated as stale. *)
Theorem health_check_connected_iff_healthy (now : Z) (wk : worker) (w : World) :
  fst (health_check now wk w) = Return (state (self (after (health_check now wk) w))) /\
  (fst (health_check now wk w) = Return CONNECTED <->
   state (self w) = CONNECTED /\ healthy (self w) = true) /\
  (healthy (self w) = true -> after (health_check now wk) w = w).
Proof.
  unfold after. rewrite health_check_eq.
  destruct (decide (state (self w) = CONNECTED)) as [Hst|Hst].
  - rewrite (bool_decide_eq_true_2 _ Hst). cbn [andb].
    destruct (healthy (self w)); cbn [negb fst snd].
    + rewrite Hst. repeat split; auto.
    + split; [reflexivity|]. split; [|discriminate].
      split; [|intros [_ ?]; discriminate].
      intros [= Hc]. destruct (failed_state wk w) as [Hs|Hs]; rewrite Hs in Hc; discriminate.
  - rewrite (bool_decide_eq_false_2 _ Hst). cbn [andb fst snd].
    split; [reflexivity|]. split; [|reflexivity].
    split; [intros [= Hc]; contradiction|intros [Hc _]; contradiction].
Qed.

Lemma health_check_connected_iff_healthy_witness :
  healthy (self streaming) = true /\
  after (health_check 100000 StillRunning) streaming = streaming.
Proof.
  assert (Hh : healthy (self streaming) = true) by (vm_compute; reflexivity).
  split; [exact Hh|].
  exact (proj2 (proj2 (health_check_connected_iff_healthy 100000 StillRunning streaming)) Hh).
Defined.

(** ** The ICE handler *)

Lemma cleaned_state (w : World) :
  state (self (cleaned w)) = STOPPED \/ state (self (cleaned w)) = STOPPING.
Proof.
  cbn. case_bool_decide as Hin; [|left; reflexivity].
  rewrite !elem_of_cons, elem_of_nil in Hin. tauto.
Qed.

Lemma ice_fatal_eq (ice_state : string) (now : Z) (conn : RTCPeerConnection) (w : World) :
  pc (self w) = Some conn ->
  ice_state = "failed" \/ ice_state = "closed" ->
  ice_state_becomes ice_state now w =
  (Return tt, cleaned (with_self (set_pc (Some (with_ice_state ice_state conn))) w)).
Proof.
  intros Hpc Hice. apply wp_elim. unfold ice_state_becomes, on_ice_state_change.
  wp_run. rewrite Hpc. wp_run.
  destruct Hice as [-> | ->]; cbn; rewrite (wp_eq _ _ _ _ _ (cleanup_eq _)); auto.
Qed.

Lemma ice_transient_eq (ice_state : string) (now : Z) (conn : RTCPeerConnection) (w : World) :
  pc (self w) = Some conn ->
  ice_state <> "connected" -> ice_state <> "failed" -> ice_state <> "closed" ->
  ice_state_becomes ice_state now w =
  (Return tt, with_self (set_pc (Some (with_ice_state ice_state conn))) w).
Proof.
  intros Hpc H1 H2 H3. apply wp_elim. unfold ice_state_becomes, on_ice_state_change.
  wp_run. rewrite Hpc. wp_run.
  rewrite (eqb_false _ _ H1), (eqb_false _ _ H2), (eqb_false _ _ H3).
  destruct (String.eqb ice_state "checking"); [wp_run; auto|].
  destruct (String.eqb ice_state "disconnected"); cbn [orb]; wp_run; auto.
Qed.

(** X8. Once the handler has seen the transport report [failed] or
    [closed], the session has released everything and is no longer
    Connected, yet nothing was restarted: no delay, no new thread, the
    reconnect counter as before. A later [health_check] finds nothing to do
    either: it returns the state and changes nothing. *)
Theorem ice_failure_is_not_retried
    (ice_state : string) (now now' : Z) (wk : worker) (conn : RTCPeerConnection) (w : World) :
  pc (self w) = Some conn ->
  ice_state = "failed" \/ ice_state = "closed" ->
  let w1 := after (ice_state_becomes ice_state now) w in
  released (self w1) /\
  state (self w1) <> CONNECTED /\
  forallb calm (new_effects w w1) = true /\
  _reconnect_count (self w1) = _reconnect_count (self w) /\
  loop_thread (self w1) = loop_thread (self w) /\
  health_check now' wk w1 = (Return (state (self w1)), w1).
Proof.
  intros Hpc Hice. cbn zeta. unfold after.
  rewrite (ice_fatal_eq _ now _ _ Hpc Hice). cbn [snd].
  set (w0 := with_self (set_pc (Some (with_ice_state ice_state conn))) w).
  assert (Hst : state (self (cleaned w0)) <> CONNECTED).
  { destruct (cleaned_state w0) as [Hs|Hs]; rewrite Hs; discriminate. }
  split; [apply released_cleaned|]. split; [exact Hst|].
  split.
  { unfold new_effects. cbn [cleaned trace]. change (trace w0) with (trace w).
    rewrite drop_app_length. apply cleanup_effects_calm. }
  split; [reflexivity|]. split; [reflexivity|].
  apply health_check_idle, Hst.
Qed.

Lemma ice_failure_is_not_retried_witness :
  state (self (after (ice_state_becomes "failed" 200) streaming)) = STOPPED /\
  health_check 300 StillRunning (after (ice_state_becomes "failed" 200) streaming)
    = (Return STOPPED, after (ice_state_becomes "failed" 200) streaming).
Proof.
  assert (Hpc : pc (self streaming)
                = Some (mkPc [{| urls := PStr "stun:stun.l.google.com:19302";
                                 username := None; credential := None |}]
                          [("video", "sendrecv"); ("audio", "sendrecv")]
                          "connected" "new" (Some "v=0")))
    by (vm_compute; reflexivity).
  assert (Hst : state (self (after (ice_state_becomes "failed" 200) streaming)) = STOPPED)
    by (vm_compute; reflexivity).
  split; [exact Hst|].
  rewrite <- Hst at 1.
  exact (proj2 (proj2 (proj2 (proj2 (proj2
    (ice_failure_is_not_retried "failed" 200 300 StillRunning _ streaming Hpc
       (or_introl eq_refl))))))).
Defined.

(** X9. Any other report but [connected], [failed] or [closed], so
    [checking] and [disconnected] in particular, changes nothing but the
    ICE state itself: same session state, no effect, same files. A
    Connected session whose subprocess runs is then still reported
    Connected by [health_check], at any later time. *)
Theorem transient_ice_state_keeps_session
    (ice_state : string) (now now' : Z) (wk : worker) (conn : RTCPeerConnection) (w : World) :
  pc (self w) = Some conn ->
  ice_state <> "connected" /\ ice_state <> "failed" /\ ice_state <> "closed" ->
  let w1 := after (ice_state_becomes ice_state now) w in
  w1 = with_self (set_pc (Some (with_ice_state ice_state conn))) w /\
  (state (self w) = CONNECTED ->
   healthy (self w) = true ->
   health_check now' wk w1 = (Return CONNECTED, w1)).
Proof.
  intros Hpc (H1 & H2 & H3). cbn zeta. unfold after.
  rewrite (ice_transient_eq _ now _ _ Hpc H1 H2 H3). cbn [snd].
  split; [reflexivity|]. intros Hst Hh.
  rewrite health_check_eq.
  set (w1 := with_self _ w).
  assert (Hh1 : healthy (self w1) = true).
  { unfold healthy in *. cbn. apply andb_true_iff in Hh as [Hf _]. rewrite Hf. cbn.
    rewrite (eqb_false _ _ H2), (eqb_false _ _ H3). reflexivity. }
  rewrite Hh1, andb_false_r. change (state (self w1)) with (state (self w)).
  rewrite Hst. reflexivity.
Qed.

Lemma transient_ice_state_keeps_session_witness :
  health_check 100000 StillRunning (after (ice_state_becomes "disconnected" 200) streaming)
    = (Return CONNECTED, after (ice_state_becomes "disconnected" 200) streaming).
Proof.
  assert (Hpc : pc (self streaming)
                = Some (mkPc [{| urls := PStr "stun:stun.l.google.com:19302";
                                 username := None; credential := None |}]
                          [("video", "sendrecv"); ("audio", "sendrecv")]
                          "connected" "new" (Some "v=0")))
    by (vm_compute; reflexivity).
  assert (Hst : state (self streaming) = CONNECTED) by (vm_compute; reflexivity).
  assert (Hh : healthy (self streaming) = true) by (vm_compute; reflexivity).
  assert (Hne : "disconnected" <> "connected" /\ "disconnected" <> "failed"
                /\ "disconnected" <> "closed") by (repeat split; discriminate).
  exact (proj2 (transient_ice_state_keeps_session "disconnected" 200 100000 StillRunning
                  _ streaming Hpc Hne) Hst Hh).
Defined.

(** ** [_cleanup] twice *)

(** X10. [_cleanup] is idempotent: run again on what it left behind, it
    performs no effect, removes no file and changes no attribute. *)
Theorem cleanup_twice_is_cleanup_once (w : World) :
  _cleanup (after _cleanup w) = (Return tt, after _cleanup w).
Proof.
  unfold after. rewrite !cleanup_eq. cbn [snd]. f_equal.
  destruct w as [[cam u o st t0 t1 th lp p sg fp vp ap ev vt at_ n] fs tr ms].
  unfold cleaned, cleanup_effects, tidy. cbn.
  assert (Hin : bool_decide
                  ((if bool_decide (st ∈ [STOPPED; STOPPING]) then st else STOPPED)
                   ∈ [STOPPED; STOPPING]) = true).
  { apply bool_decide_eq_true_2. case_bool_decide as Hin; [exact Hin|].
    rewrite !elem_of_cons. auto. }
  rewrite Hin. cbn. rewrite app_nil_r.
  destruct (bool_decide (st ∈ [STOPPED; STOPPING])); reflexivity.
Qed.

(** ** Tracks *)

Lemma on_track_step (track : MediaStreamTrack) (w0 w : World) :
  tracks_seen w0 w -> tracks_seen w0 (after (on_track track) w).
Proof.
  unfold after.
  change (tracks_seen w0 w -> wp (on_track track) (fun _ w' => tracks_seen w0 w') w).
  destruct w as [[cam u o st t0 t1 th lp p sg fp vp ap ev vt at_ n] fs tr ms].
  unfold tracks_seen. cbn. intros (Ho & Htr & Hst & Hau). subst o.
  unfold on_track, set_media_started. wp_run.
  destruct (String.eqb (kind track) "video").
  - wp_run. destruct ms; cbn.
    + wp_run. split; [reflexivity|]. split; [exact Htr|]. split; [|exact Hau].
      intros _. split; [eauto|]. intros Ha. exact (proj2 (Hst eq_refl) Ha).
    + destruct (audio (options (self w0))) eqn:Ha; cbn.
      * destruct at_ as [a|]; cbn; wp_run.
        -- split; [reflexivity|]. split; [rewrite Htr, app_nil_r; reflexivity|].
           split; [|exact Hau]. intros _. split; eauto.
        -- split; [reflexivity|]. split; [exact Htr|]. split; [intros; congruence|exact Hau].
      * wp_run. split; [reflexivity|]. split; [rewrite Htr, app_nil_r; reflexivity|].
        split; [|exact Hau]. intros _. split; [eauto|intros; congruence].
  - destruct (String.eqb (kind track) "audio" && audio (options (self w0))) eqn:Hk; wp_run.
    + apply andb_true_iff in Hk as [_ Ha]. rewrite Ha in *. cbn.
      destruct ms; cbn.
      * wp_run. split; [reflexivity|]. split; [exact Htr|]. split; [|intros; congruence].
        intros _. split; [exact (proj1 (Hst eq_refl))|eauto].
      * destruct vt as [v|]; cbn; wp_run.
        -- split; [reflexivity|]. split; [rewrite Htr, app_nil_r; reflexivity|].
           split; [|intros; congruence]. intros _. split; eauto.
        -- split; [reflexivity|]. split; [exact Htr|]. split; [intros; congruence|intros; congruence].
    + destruct ms; cbn.
      * wp_run. split; [reflexivity|]. split; [exact Htr|]. split; [exact Hst|exact Hau].
      * destruct (bool_decide (is_Some vt)
                  && (negb (audio (options (self w0))) || bool_decide (is_Some at_))) eqn:Hc;
          cbn; wp_run.
        -- apply andb_true_iff in Hc as [Hv Hc]. apply bool_decide_eq_true_1 in Hv.
           split; [reflexivity|]. split; [rewrite Htr, app_nil_r; reflexivity|].
           split; [|exact Hau]. intros _. split; [exact Hv|]. intros Ha.
           rewrite Ha in Hc. cbn in Hc. apply bool_decide_eq_true_1 in Hc. exact Hc.
        -- split; [reflexivity|]. split; [exact Htr|]. split; [intros; congruence|exact Hau].
Qed.

Lemma receive_tracks_seen (tracks : list MediaStreamTrack) (w0 w : World) :
  tracks_seen w0 w -> tracks_seen w0 (receive_tracks tracks w).
Proof.
  revert w. induction tracks as [|track rest IH]; intros w Hw; [exact Hw|].
  cbn. apply IH, on_track_step, Hw.
Qed.

(** What one run of [on_track] does to the fields it touches. *)
Lemma on_track_fields (track : MediaStreamTrack) (w : World) :
  let w' := after (on_track track) w in
  options (self w') = options (self w) /\
  _video_track (self w') =
    (if String.eqb (kind track) "video" then Some track else _video_track (self w)) /\
  _audio_track (self w') =
    (if negb (String.eqb (kind track) "video")
        && String.eqb (kind track) "audio" && audio (options (self w))
     then Some track else _audio_track (self w)) /\
  _media_started w' = _media_started w || holds_required_tracks w'.
Proof.
  cbn zeta. unfold after.
  change (wp (on_track track)
            (fun _ w' =>
               options (self w') = options (self w) /\
               _video_track (self w') =
                 (if String.eqb (kind track) "video" then Some track
                  else _video_track (self w)) /\
               _audio_track (self w') =
                 (if negb (String.eqb (kind track) "video")
                     && String.eqb (kind track) "audio" && audio (options (self w))
                  then Some track else _audio_track (self w)) /\
               _media_started w' = _media_started w || holds_required_tracks w') w).
  destruct w as [[cam u o st t0 t1 th lp p sg fp vp ap ev vt at_ n] fs tr ms].
  unfold holds_required_tracks. cbn.
  unfold on_track, set_media_started. wp_run.
  destruct (String.eqb (kind track) "video"); cbn [negb andb].
  - wp_run. destruct ms; cbn.
    + wp_run. repeat split.
    + destruct (negb (audio o) || bool_decide (is_Some at_)) eqn:Hc; cbn; wp_run;
        cbn; rewrite ?Hc; repeat split.
  - destruct (String.eqb (kind track) "audio" && audio o) eqn:Hk; wp_run.
    + apply andb_true_iff in Hk as [_ Ha]. rewrite Ha. cbn.
      destruct ms; cbn.
      * wp_run. repeat split.
      * destruct (bool_decide (is_Some vt)) eqn:Hc; cbn; wp_run;
          cbn; rewrite ?Hc, ?orb_true_r; repeat split.
    + destruct ms; cbn.
      * wp_run. repeat split.
      * destruct (bool_decide (is_Some vt) && (negb (audio o) || bool_decide (is_Some at_)))
          eqn:Hc; cbn; wp_run; cbn; rewrite ?Hc; repeat split.
Qed.

Lemma receive_tracks_snoc (tracks : list MediaStreamTrack) (track : MediaStreamTrack)
    (w : World) :
  receive_tracks (tracks ++ [track]) w = after (on_track track) (receive_tracks tracks w).
Proof. unfold receive_tracks. rewrite foldl_app. reflexivity. Qed.

Lemma has_kind_snoc (k : string) (tracks : list MediaStreamTrack) (track : MediaStreamTrack) :
  has_kind k (tracks ++ [track]) = has_kind k tracks || String.eqb (kind track) k.
Proof. unfold has_kind. rewrite existsb_app. cbn. rewrite orb_false_r. reflexivity. Qed.

(** The tracks the session holds after [tracks] arrived are the ones it
    held before and the ones that arrived; the task has been created as
    soon as, a track arriving, the session held the tracks required. *)
Lemma receive_tracks_held (tracks : list MediaStreamTrack) (w : World) :
  _media_started w = false ->
  let w' := receive_tracks tracks w in
  options (self w') = options (self w) /\
  bool_decide (is_Some (_video_track (self w'))) =
    bool_decide (is_Some (_video_track (self w))) || has_kind "video" tracks /\
  (audio (options (self w)) = true ->
   bool_decide (is_Some (_audio_track (self w'))) =
     bool_decide (is_Some (_audio_track (self w))) || has_kind "audio" tracks) /\
  _media_started w' = match tracks with [] => false | _ => holds_required_tracks w' end.
Proof.
  intros Hms. cbn zeta. induction tracks as [|track tracks IH] using rev_ind.
  - cbn. rewrite !orb_false_r. repeat split. exact Hms.
  - rewrite receive_tracks_snoc, !has_kind_snoc.
    destruct IH as (Ho & Hv & Ha & Hst).
    destruct (on_track_fields track (receive_tracks tracks w)) as (Ho' & Hv' & Ha' & Hst').
    cbn zeta in *.
    assert (Hnil : match tracks ++ [track] with [] => false | _ => true end = true)
      by (destruct tracks; reflexivity).
    split; [congruence|]. split; [|split].
    + rewrite Hv'. destruct (String.eqb (kind track) "video").
      * rewrite !orb_true_r. apply bool_decide_eq_true_2. eauto.
      * rewrite orb_false_r. exact Hv.
    + intros Hau. rewrite Ha', Ho, Hau.
      destruct (String.eqb (kind track) "video") eqn:Hkv; cbn [negb andb].
      * assert (Hka : String.eqb (kind track) "audio" = false).
        { apply String.eqb_eq in Hkv. rewrite Hkv. reflexivity. }
        rewrite Hka, orb_false_r. exact (Ha Hau).
      * rewrite andb_true_r. destruct (String.eqb (kind track) "audio").
        -- rewrite !orb_true_r. apply bool_decide_eq_true_2. eauto.
        -- rewrite orb_false_r. exact (Ha Hau).
    + destruct (tracks ++ [track]) eqn:Hl; [discriminate|]. rewrite Hst'.
      destruct (holds_required_tracks (after (on_track track) (receive_tracks tracks w)))
        eqn:Hreq; [apply orb_true_r|]. rewrite orb_false_r.
      rewrite Hst. destruct tracks; [reflexivity|].
      (* the tracks held before are still held: the condition cannot have
         held then and fail now *)
      unfold holds_required_tracks in *. rewrite Ho' in Hreq.
      apply andb_false_iff in Hreq as [Hreq|Hreq].
      * rewrite Hv' in Hreq. destruct (String.eqb (kind track) "video").
        -- rewrite bool_decide_eq_true_2 in Hreq by eauto. discriminate.
        -- rewrite Hreq. reflexivity.
      * apply orb_false_iff in Hreq as [Hau Hreq]. rewrite Hau. cbn [orb].
        rewrite Ha' in Hreq.
        match type of Hreq with context [if ?c then _ else _] => destruct c end.
        -- rewrite bool_decide_eq_true_2 in Hreq by eauto. discriminate.
        -- rewrite Hreq. apply andb_false_r.
Qed.

(** X11. Over any sequence of tracks arriving after [_media_started] was
    reset, the media task is created at most once and nothing else is
    performed. It has been created exactly when a track has arrived and
    the session holds a video track and, with audio configured, an audio
    track; a track it holds is one that arrived or one it held before
    (a stopped session keeps its tracks). So a session that held no video
    track has the task only once a video track has arrived, and one with
    audio configured that held no audio track only once an audio track
    has arrived too. With audio not configured an audio track is never
    stored. *)
Theorem media_task_created_once (tracks : list MediaStreamTrack) (w : World) :
  _media_started w = false ->
  let w' := receive_tracks tracks w in
  new_effects w w' = (if _media_started w' then [CreateTask] else []) /\
  (_media_started w' = true ->
   is_Some (_video_track (self w')) /\
   (audio (options (self w')) = true -> is_Some (_audio_track (self w')))) /\
  (audio (options (self w)) = false -> _audio_track (self w') = _audio_track (self w)) /\
  (_media_started w' = true <->
   tracks <> [] /\
   (is_Some (_video_track (self w)) \/ has_kind "video" tracks = true) /\
   (audio (options (self w)) = true ->
    is_Some (_audio_track (self w)) \/ has_kind "audio" tracks = true)) /\
  (_video_track (self w) = None -> _media_started w' = true ->
   has_kind "video" tracks = true) /\
  (audio (options (self w)) = true -> _audio_track (self w) = None ->
   _media_started w' = true -> has_kind "audio" tracks = true).
Proof.
  intros Hms. cbn zeta.
  assert (H0 : tracks_seen w w).
  { unfold tracks_seen. rewrite Hms, app_nil_r. repeat split; discriminate. }
  destruct (receive_tracks_seen tracks w w H0) as (_ & Htr & Hst & Hau).
  destruct (receive_tracks_held tracks w Hms) as (Ho & Hv & Ha & Hstarted).
  cbn zeta in *.
  assert (Hiff : _media_started (receive_tracks tracks w) = true <->
                 tracks <> [] /\
                 (is_Some (_video_track (self w)) \/ has_kind "video" tracks = true) /\
                 (audio (options (self w)) = true ->
                  is_Some (_audio_track (self w)) \/ has_kind "audio" tracks = true)).
  { rewrite Hstarted. unfold holds_required_tracks. rewrite Ho, Hv.
    destruct tracks as [|track rest]; [split; [discriminate|intros ([] & _); reflexivity]|].
    rewrite andb_true_iff, !orb_true_iff, bool_decide_eq_true, negb_true_iff.
    split.
    - intros (Hvid & Haud). split; [discriminate|]. split; [exact Hvid|].
      intros Hon. destruct Haud as [Haud|Haud]; [congruence|].
      rewrite (Ha Hon) in Haud. apply orb_true_iff in Haud.
      rewrite bool_decide_eq_true in Haud. exact Haud.
    - intros (_ & Hvid & Haud). split; [exact Hvid|].
      destruct (audio (options (self w))) eqn:Hon; [right|left; reflexivity].
      rewrite (Ha eq_refl). apply orb_true_iff. rewrite bool_decide_eq_true.
      exact (Haud eq_refl). }
  split; [apply new_effects_app, Htr|]. split; [assumption|]. split; [assumption|].
  split; [exact Hiff|]. split.
  - intros Hnone Hon. apply Hiff in Hon as (_ & [Hvid|Hvid] & _); [|exact Hvid].
    rewrite Hnone in Hvid. destruct Hvid as [? [=]].
  - intros Hau' Hnone Hon. apply Hiff in Hon as (_ & _ & Haud).
    destruct (Haud Hau') as [Hheld|Hk]; [|exact Hk].
    rewrite Hnone in Hheld. destruct Hheld as [? [=]].
Qed.

Lemma media_task_created_once_witness :
  new_effects connecting
    (receive_tracks [{| kind := "audio" |}; {| kind := "video" |}; {| kind := "video" |}]
       connecting) = [CreateTask].
Proof.
  assert (Hms : _media_started connecting = false) by (vm_compute; reflexivity).
  rewrite (proj1 (media_task_created_once
                    [{| kind := "audio" |}; {| kind := "video" |}; {| kind := "video" |}]
                    connecting Hms)).
  vm_compute. reflexivity.
Defined.

(** ** Failure after failure *)

Lemma restarts_app (l1 l2 : list effect) : restarts (l1 ++ l2) = (restarts l1 + restarts l2)%nat.
Proof. unfold restarts. rewrite omap_app, length_app. reflexivity. Qed.

Lemma restarts_calm (l : list effect) : forallb calm l = true -> restarts l = 0%nat.
Proof.
  induction l as [|e l IH]; [reflexivity|].
  cbn [forallb]. intros [He Hl]%andb_true_iff.
  change (e :: l) with ([e] ++ l). rewrite restarts_app, (IH Hl).
  destruct e; try discriminate; reflexivity.
Qed.

Lemma failed_counts (wk : worker) (w : World) :
  reconnect (options (self w)) = true ->
  let n := _reconnect_count (self w) + 1 in
  reconnect (options (self (failed wk w))) = true /\
  _reconnect_count (self (failed wk w)) = n /\
  state (self (failed wk w)) = (if Z.ltb n 10 then CONNECTING else STOPPED) /\
  exists suf : list effect,
    trace (failed wk w) = trace w ++ suf /\
    restarts suf = (if Z.ltb n 10 then 1 else 0)%nat.
Proof.
  intros Hre. cbn zeta. unfold failed. cbn zeta.
  destruct (stopped_keeps wk w) as (_ & _ & Ho & Hn & _).
  destruct (stopped_trace wk w) as (suf & Htr & Hcalm & _).
  rewrite Ho, Hre, Hn.
  destruct (Z.ltb (_reconnect_count (self w) + 1) 10).
  - cbn. rewrite ?Ho, ?Hn. repeat split; [exact Hre|].
    exists (suf ++ [Sleep (backoff (_reconnect_count (self w) + 1));
                    Assign CONNECTING; ThreadStart ("webrtc_" +:+ uri (self (stopped wk w)))]).
    rewrite Htr, <- !app_assoc. split; [reflexivity|].
    rewrite restarts_app, (restarts_calm _ Hcalm). reflexivity.
  - cbn. rewrite ?Ho, ?Hn. split; [exact Hre|]. split; [reflexivity|].
    split; [apply stopped_state|].
    exists suf. split; [exact Htr|apply restarts_calm, Hcalm].
Qed.

(** X12. With reconnection enabled, [k] failures handled in a row from a
    counter [c] leave the counter at [c + k]; the session is restarted
    after each of them that finds the counter below 10, which makes
    [min(k, 9 - c)] restarts in all, never more than nine from a fresh
    counter; after the last one the session is Connecting if the counter
    is still below 10 and Stopped if it is not. *)
Theorem restarts_are_bounded (wk : worker) (k : nat) (w : World) :
  reconnect (options (self w)) = true ->
  let c := _reconnect_count (self w) in
  let w' := run_calls (replicate k (HandleFailure wk)) w in
  _reconnect_count (self w') = c + Z.of_nat k /\
  restarts (new_effects w w') = Z.to_nat (Z.min (Z.of_nat k) (9 - c)) /\
  ((0 < k)%nat ->
   state (self w') = (if Z.ltb (c + Z.of_nat k) 10 then CONNECTING else STOPPED)).
Proof.
  cbn zeta. revert w. induction k as [|k IH]; intros w Hre.
  - cbn. rewrite new_effects_refl. split; [lia|]. split; [cbn; lia|lia].
  - cbn [replicate run_calls perform_call]. rewrite handle_failure_eq. cbn [snd].
    destruct (failed_counts wk w Hre) as (Hre' & Hn & Hst & suf & Htr & Hrs).
    destruct (IH (failed wk w) Hre') as (Hn' & Hrs' & Hst').
    destruct (walks_run (replicate k (HandleFailure wk)) (failed wk w)) as (suf' & Htr' & _).
    rewrite Hn in *.
    split; [rewrite Hn'; lia|]. split.
    + rewrite (new_effects_app _ _ suf') in Hrs' by exact Htr'.
      rewrite (new_effects_app _ _ (suf ++ suf')) by (rewrite Htr', Htr, app_assoc; reflexivity).
      rewrite restarts_app, Hrs, Hrs'.
      destruct (Z.ltb_spec (_reconnect_count (self w) + 1) 10); lia.
    + intros _. destruct k as [|k'].
      * cbn [replicate run_calls]. rewrite Hst. reflexivity.
      * rewrite Hst' by lia.
        replace (_reconnect_count (self w) + Z.of_nat (S (S k')))
          with (_reconnect_count (self w) + 1 + Z.of_nat (S k')) by lia.
        reflexivity.
Qed.

Lemma restarts_are_bounded_witness :
  restarts (new_effects fresh (run_calls (replicate 25 (HandleFailure StillRunning)) fresh))
    = 9%nat /\
  state (self (run_calls (replicate 25 (HandleFailure StillRunning)) fresh)) = STOPPED.
Proof.
  destruct (restarts_are_bounded StillRunning 25 fresh eq_refl) as (_ & Hrs & Hst).
  split; [exact Hrs|]. apply Hst. cbn. lia.
Defined.

(** ** The connection attempt of the worker *)

Lemma ice_servers_of_eq (entries : list IceServerEntry) (w : World) :
  ice_servers_of entries w =
  (match ice_config entries with Some l => Return l | None => Raise TypeError end, w).
Proof.
  induction entries as [|e rest IH]; [reflexivity|].
  cbn [ice_servers_of ice_config]. unfold ice_server.
  destruct (entry_urls e) as [u|]; [|reflexivity].
  unfold mbind, M_bind. cbn. rewrite IH.
  destruct (ice_config rest); reflexivity.
Qed.

Lemma wp_on_signaling {A} (m : M Kvs.Channel A) (Q : outcome A -> World -> Prop)
    (w : World) (c : Kvs.KvsSignalingClient) :
  signaling (self w) = Some c ->
  wp (on_signaling m) Q w =
  Q (fst (m (Kvs.mkChannel c [] [])))
    (mkWorld (set_signaling (Some (Kvs.client (snd (m (Kvs.mkChannel c [] []))))) (self w))
       (files w)
       (trace w ++ map WsSend (Kvs.sent (snd (m (Kvs.mkChannel c [] [])))))
       (_media_started w)).
Proof.
  intros Hc. unfold wp, on_signaling. rewrite Hc.
  destruct (m (Kvs.mkChannel c [] [])); reflexivity.
Qed.

Section Setup.
Context `{Codecs}.

Lemma run_event_loop_waits (env : ConnectEnv) (w : World)
    (signaling_url client_id token sdp : string) (ice_servers : list RTCIceServer) :
  result (kvs_signal env) = Some "ok" ->
  signalingUrl (kvs_signal env) = Some signaling_url ->
  ClientId (kvs_signal env) = Some client_id ->
  signalToken (kvs_signal env) = Some token ->
  ws_refused env = None ->
  ice_config (default [] (servers (kvs_signal env))) = Some ice_servers ->
  offer env = Some sdp ->
  _stop_event (self w) = false ->
  _run_event_loop env w =
  (Pending, offering env signaling_url client_id token sdp ice_servers w).
Proof.
  intros Hres Hurl Hid Htok Hws Hice Hoffer Hev. apply wp_elim.
  unfold _run_event_loop, _connect_webrtc, loop_frame, connect_frame, connect_body.
  wp_run. rewrite bool_decide_eq_true_2 by exact Hres. cbn.
  rewrite Hurl, Hid, Htok. unfold subscript. wp_run.
  erewrite wp_on_signaling by reflexivity. rewrite Hws. cbn.
  rewrite wp_bind. rewrite (wp_eq _ _ _ _ _ (ice_servers_of_eq _ _)). rewrite Hice.
  unfold add_transceiver, set_local_description, set_media_started. wp_run.
  erewrite wp_on_signaling by reflexivity. cbn. rewrite Hoffer. wp_run.
  erewrite wp_on_signaling by reflexivity. cbn.
  unfold wait_until_stopped. wp_run. rewrite Hev. wp_run.
  split; [reflexivity|].
  destruct w as [[cam u o st t0 t1 th lp p sg fp vp ap ev vt at_ n] fs tr ms].
  unfold offering, listening_client, offer_frame. cbn.
  rewrite ?app_nil_r, <- ?app_assoc. reflexivity.
Qed.
End Setup.

Lemma frames_eq (body : M World unit) (w : World) :
  loop_frame (connect_frame body) w =
  match body w with
  | (Pending, w') => (Pending, w')
  | (Return _, w') => (Return tt, with_self (set_loop None) (cleaned w'))
  | (Raise e, w') =>
      if isinstance e Exception_
      then (Return tt,
            with_self (set_loop None)
              (cleaned (with_effects [Assign STOPPED] (with_self (set_state STOPPED) w'))))
      else (Raise e, with_self (set_loop None) (cleaned w'))
  end.
Proof.
  destruct (body w) as [[[]|e|] w'] eqn:Hb.
  - apply wp_elim. unfold loop_frame, connect_frame. wp_run.
    rewrite (wp_eq _ _ _ _ _ Hb). rewrite (wp_eq _ _ _ _ _ (cleanup_eq _)). wp_run. auto.
  - destruct (isinstance e Exception_) eqn:He.
    + apply wp_elim. unfold loop_frame, connect_frame. wp_run.
      rewrite (wp_eq _ _ _ _ _ Hb). rewrite He. wp_run.
      rewrite (wp_eq _ _ _ _ _ (cleanup_eq _)). wp_run. auto.
    + apply wp_elim. unfold loop_frame, connect_frame. wp_run.
      rewrite (wp_eq _ _ _ _ _ Hb). rewrite He.
      rewrite (wp_eq _ _ _ _ _ (cleanup_eq _)). wp_run. auto.
  - apply wp_elim. unfold loop_frame, connect_frame. wp_run.
    rewrite (wp_eq _ _ _ _ _ Hb). auto.
Qed.

Lemma kvs_connect_eq (refused : option pyexn) (ch : Kvs.Channel) :
  Kvs.connect refused ch =
  match refused with
  | Some e => (Raise e, ch)
  | None =>
      (Return tt,
       Kvs.mkChannel
         (Kvs.set_receive_task true
            (Kvs.set_ws (Some {| Kvs.remote := Kvs.url (Kvs.client ch) |}) (Kvs.client ch)))
         (Kvs.sent ch) (Kvs.calls ch))
  end.
Proof. destruct refused, ch; reflexivity. Qed.

Lemma kvs_on_client_eq (f : Kvs.KvsSignalingClient -> Kvs.KvsSignalingClient)
    (ch : Kvs.Channel) :
  Kvs.on_client f ch = (Return tt, Kvs.mkChannel (f (Kvs.client ch)) (Kvs.sent ch) (Kvs.calls ch)).
Proof. reflexivity. Qed.

Section Outcomes.
Context `{Codecs}.

Lemma kvs_send_offer_eq (sdp : string) (ch : Kvs.Channel) :
  Kvs.send_offer sdp ch =
  match Kvs.ws (Kvs.client ch) with
  | None => (Raise RuntimeError, ch)
  | Some _ =>
      (Return tt,
       Kvs.mkChannel (Kvs.client ch)
         (Kvs.sent ch ++ [offer_frame sdp (Kvs.client_id (Kvs.client ch))]) (Kvs.calls ch))
  end.
Proof.
  unfold Kvs.send_offer, mbind, M_bind, gets. cbn.
  destruct (Kvs.ws (Kvs.client ch)); reflexivity.
Qed.

Lemma connect_body_pending (env : ConnectEnv) (w : World) :
  loop (self (snd (connect_body env w))) = loop (self w) /\
  (fst (connect_body env w) = Pending ->
   is_Some (pc (self (snd (connect_body env w)))) /\
   is_Some (signaling (self (snd (connect_body env w))))).
Proof.
  change (wp (connect_body env)
            (fun r w' => loop (self w') = loop (self w) /\
                         (r = Pending -> is_Some (pc (self w')) /\ is_Some (signaling (self w'))))
            w).
  destruct env as [[res surl cid tok srvs] wsr off ah ch].
  unfold connect_body, subscript, add_transceiver, set_local_description,
    set_media_started, wait_until_stopped.
  cbn [kvs_signal WebRtc.result signalingUrl ClientId signalToken servers ws_refused offer
       answer_handler candidate_handler].
  destruct wsr as [e|], off as [sdp|].
  all: repeat first [ erewrite wp_on_signaling by reflexivity;
                      rewrite ?kvs_connect_eq, ?kvs_on_client_eq, ?kvs_send_offer_eq; cbn
                    | rewrite (wp_eq _ _ _ _ _ (ice_servers_of_eq _ _));
                      destruct (ice_config (default [] srvs))
                    | wp_step | wp_case ].
  all: split; [reflexivity|]; first [discriminate | intros _; split; eauto].
Qed.

End Outcomes.

Section Offer.
Context `{Codecs}.

(** X14. When the credentials are granted, the socket opens, every ICE
    server entry has its [urls] and the offer can be made, the worker is
    left waiting with a peer connection that has a video and an audio
    transceiver, both [sendrecv], whether or not audio is configured;
    its ICE servers are those of the signal data, or the public STUN
    server when there are none. The signaling client is connected on the
    URL built from the signal data, with both callbacks registered. One
    frame went out, the offer addressed to the client id, after the one
    credential request; the session state and the files are as before. *)
Theorem worker_offers_both_media (env : ConnectEnv) (w : World)
    (signaling_url client_id token sdp : string) (ice_servers : list RTCIceServer) :
  result (kvs_signal env) = Some "ok" ->
  signalingUrl (kvs_signal env) = Some signaling_url ->
  ClientId (kvs_signal env) = Some client_id ->
  signalToken (kvs_signal env) = Some token ->
  ws_refused env = None ->
  ice_config (default [] (servers (kvs_signal env))) = Some ice_servers ->
  offer env = Some sdp ->
  _stop_event (self w) = false ->
  let w' := after (_run_event_loop env) w in
  fst (_run_event_loop env w) = Pending /\
  pc (self w') =
    Some (mkPc (stun_fallback ice_servers) [("video", "sendrecv"); ("audio", "sendrecv")]
            "new" "new" (Some sdp)) /\
  signaling (self w') = Some (listening_client env signaling_url client_id token) /\
  new_effects w w' = [GetKvsSignal (uri (self w)); WsSend (offer_frame sdp client_id)] /\
  state (self w') = state (self w) /\
  files w' = files w.
Proof.
  intros Hres Hurl Hid Htok Hws Hice Hoffer Hev. cbn zeta. unfold after.
  rewrite (run_event_loop_waits env w _ _ _ _ _ Hres Hurl Hid Htok Hws Hice Hoffer Hev).
  cbn [fst snd]. repeat split.
  apply new_effects_app. reflexivity.
Qed.
End Offer.

Lemma worker_offers_both_media_witness :
  fst (@_run_event_loop toy_codecs credentials_ok (after start fresh)) = Pending /\
  pc (self connecting) =
    Some (mkPc [{| urls := PStr "stun:stun.l.google.com:19302";
                   username := None; credential := None |}]
            [("video", "sendrecv"); ("audio", "sendrecv")] "new" "new" (Some "v=0")) /\
  new_effects (after start fresh) connecting
    = [GetKvsSignal "front-door"; WsSend "{}"].
Proof.
  destruct (@worker_offers_both_media toy_codecs credentials_ok (after start fresh)
              "wss://signal.example/v1" "phone 1" "t/k" "v=0" []
              eq_refl eq_refl eq_refl eq_refl eq_refl eq_refl eq_refl eq_refl)
    as (Hp & Hpc & _ & Hfx & _).
  split; [exact Hp|]. split; [exact Hpc|exact Hfx].
Defined.

(** ** Setting up media *)

Lemma spawn_last (pre : list effect) (cmd : list string) (tr : list effect) :
  forallb creates_pipe pre = true ->
  exists pre' : list effect,
    drop (length tr) (tr ++ pre ++ [Spawn cmd]) = pre' ++ [Spawn cmd] /\
    forallb creates_pipe pre' = true.
Proof. intros Hpre. exists pre. rewrite drop_app_length. split; [reflexivity|exact Hpre]. Qed.

(** X15. When the subprocess starts and the pumps run, [_handle_media_tracks]
    is left waiting; all it did before spawning FFmpeg was to create pipes,
    and the spawn comes last. The command is the one of
    [get_webrtc_ffmpeg_cmd] for the camera's URI, with the audio input
    exactly when audio is configured and its track was received; the pipes
    that command reads are then present in the file system. *)
Theorem ffmpeg_spawned_after_its_pipes (env : MediaEnv) (wk : worker) (w : World) :
  popen_raises env = None -> pumps_raise env = None ->
  _stop_event (self w) = false -> audio_pipe (self w) = None ->
  let w1 := after (_handle_media_tracks env wk) w in
  let has_audio := audio (options (self w)) && bool_decide (is_Some (_audio_track (self w))) in
  fst (_handle_media_tracks env wk w) = Pending /\
  (exists pre : list effect,
     new_effects w w1 =
       pre ++ [Spawn (get_webrtc_ffmpeg_cmd (rtsp_transport env) (log_level env)
                        (uri (self w)) has_audio)] /\
     forallb creates_pipe pre = true) /\
  video_path (self w) ∈ files w1 /\
  (has_audio = true -> audio_path (self w) ∈ files w1).
Proof.
  intros Hpo Hpu Hev Hap. cbn zeta. unfold after.
  change (wp (_handle_media_tracks env wk)
            (fun r w1 =>
               r = Pending /\
               (exists pre : list effect,
                  new_effects w w1 =
                    pre ++ [Spawn (get_webrtc_ffmpeg_cmd (rtsp_transport env) (log_level env)
                                     (uri (self w))
                                     (audio (options (self w))
                                      && bool_decide (is_Some (_audio_track (self w)))))] /\
                  forallb creates_pipe pre = true) /\
               video_path (self w) ∈ files w1 /\
               (audio (options (self w)) && bool_decide (is_Some (_audio_track (self w))) = true ->
                audio_path (self w) ∈ files w1)) w).
  destruct w as [[cam u o st t0 t1 th lp p sg fp vp ap ev vt at_ n] fs tr ms].
  cbn in Hev, Hap. subst ev ap.
  unfold _handle_media_tracks, video_path, audio_path, when, gather_pumps, wait_until_stopped,
    new_effects.
  change (suppress [FileExistsError] (mkfifo_attr ?x)) with (mkfifo_tolerant x).
  rewrite Hpu. cbn. wp_run.
  destruct (audio o && bool_decide (is_Some at_)) eqn:Haud; wp_run.
  all: repeat (first [media_step | wp_case]).
  all: wp_run; cbn in *.
  all: unfold ffmpeg_of; cbn; rewrite ?pipe_set_tmp.
  all: split; [reflexivity|].
  all: split; [|split; [|intros; try discriminate];
                 rewrite ?elem_of_union, ?elem_of_singleton in *; intuition auto].
  all: rewrite <- ?app_assoc.
  all: match goal with
       | |- exists pre, drop _ (?tr ++ [Spawn ?c]) = _ /\ _ =>
           exact (spawn_last [] c tr eq_refl)
       | |- exists pre, drop _ (?tr ++ [?a] ++ [Spawn ?c]) = _ /\ _ =>
           exact (spawn_last [a] c tr eq_refl)
       | |- exists pre, drop _ (?tr ++ [?a] ++ [?b] ++ [Spawn ?c]) = _ /\ _ =>
           exact (spawn_last [a; b] c tr eq_refl)
       end.
Qed.

Lemma ffmpeg_spawned_after_its_pipes_witness :
  fst (_handle_media_tracks ffmpeg_runs CurrentThread with_tracks) = Pending /\
  video_path (self with_tracks) ∈ files streaming.
Proof.
  assert (Hev : _stop_event (self with_tracks) = false) by (vm_compute; reflexivity).
  assert (Hap : audio_pipe (self with_tracks) = None) by (vm_compute; reflexivity).
  destruct (ffmpeg_spawned_after_its_pipes ffmpeg_runs CurrentThread with_tracks
              eq_refl eq_refl Hev Hap) as (Hp & _ & Hv & _).
  split; [exact Hp|exact Hv].
Defined.

Lemma failed_count (wk : worker) (w : World) :
  _reconnect_count (self (failed wk w)) =
  _reconnect_count (self w) + (if reconnect (options (self w)) then 1 else 0).
Proof.
  unfold failed. cbn zeta.
  destruct (stopped_keeps wk w) as (_ & _ & Ho & Hn & _).
  rewrite Ho. destruct (reconnect (options (self w))).
  - destruct (Z.ltb _ 10); cbn; rewrite Hn; reflexivity.
  - rewrite Hn. lia.
Qed.

(** X16. No [Exception] leaves [_handle_media_tracks]: whatever fails while
    media is set up is handed to [_handle_failure]. When it is [Popen] that
    fails, the call returns, the session is left Stopped or, restarted,
    Connecting, and the reconnect counter has grown by one if reconnection
    is enabled and not at all if it is not. *)
Theorem media_failure_is_handled (env : MediaEnv) (wk : worker) (w : World) :
  let w1 := after (_handle_media_tracks env wk) w in
  match fst (_handle_media_tracks env wk w) with
  | Raise e => isinstance e Exception_ = false
  | _ => True
  end /\
  (forall e : pyexn,
     popen_raises env = Some e -> isinstance e Exception_ = true ->
     fst (_handle_media_tracks env wk w) = Return tt /\
     (state (self w1) = STOPPED \/ state (self w1) = CONNECTING) /\
     _reconnect_count (self w1) =
       _reconnect_count (self w) + (if reconnect (options (self w)) then 1 else 0)).
Proof.
  cbn zeta. unfold after. split.
  - unfold _handle_media_tracks, try_except.
    match goal with |- context [match ?b w with _ => _ end] => destruct (b w) as [[[]|e|] w'] end;
      cbn [fst]; auto.
    destruct (isinstance e Exception_) eqn:He; [|exact He].
    rewrite handle_failure_eq. exact I.
  - intros e Hpo He.
    change (wp (_handle_media_tracks env wk)
              (fun r w1 =>
                 r = Return tt /\
                 (state (self w1) = STOPPED \/ state (self w1) = CONNECTING) /\
                 _reconnect_count (self w1) =
                   _reconnect_count (self w)
                   + (if reconnect (options (self w)) then 1 else 0)) w).
    destruct w as [[cam u o st t0 t1 th lp p sg fp vp ap ev vt at_ n] fs tr ms].
    unfold _handle_media_tracks, when, _start_ffmpeg.
    change (suppress [FileExistsError] (mkfifo_attr ?x)) with (mkfifo_tolerant x).
    rewrite Hpo. cbn. wp_run. destruct ap as [path|].
    all: repeat (first [media_step | wp_case]).
    all: rewrite ?He; rewrite ?(wp_eq _ _ _ _ _ (handle_failure_eq _ _)).
    all: split; [reflexivity|]; split; [apply failed_state|]; rewrite failed_count; reflexivity.
Qed.

Lemma media_failure_is_handled_witness :
  fst (_handle_media_tracks
         {| rtsp_transport := "tcp"; log_level := "fatal"; popen_raises := Some OSError;
            obedient := true; pumps_raise := None |} CurrentThread with_tracks)
    = Return tt.
Proof.
  exact (proj1 (proj2 (media_failure_is_handled
                         {| rtsp_transport := "tcp"; log_level := "fatal";
                            popen_raises := Some OSError;
                            obedient := true; pumps_raise := None |}
                         CurrentThread with_tracks) OSError eq_refl eq_refl)).
Defined.

(** ** The socket of the signaling client *)

Section Socket.
Context `{Codecs}.

Lemma kvs_send_ice_candidate_eq (candidate : pyval) (ch : Kvs.Channel) :
  Kvs.send_ice_candidate candidate ch =
  match Kvs.ws (Kvs.client ch) with
  | None => (Raise RuntimeError, ch)
  | Some _ =>
      (Return tt,
       Kvs.mkChannel (Kvs.client ch)
         (Kvs.sent ch ++
            [json_dumps (Kvs.envelope "ICE_CANDIDATE" (b64encode (json_dumps candidate))
                           (Kvs.client_id (Kvs.client ch)))])
         (Kvs.calls ch))
  end.
Proof.
  unfold Kvs.send_ice_candidate, mbind, M_bind, gets. cbn.
  destruct (Kvs.ws (Kvs.client ch)); reflexivity.
Qed.

Lemma kvs_close_eq (ch : Kvs.Channel) :
  Kvs.close ch =
  (Return tt, Kvs.mkChannel (Kvs.set_ws None (Kvs.client ch)) (Kvs.sent ch) (Kvs.calls ch)).
Proof.
  destruct ch as [[u i [x|] a b r] s c]; reflexivity.
Qed.

(** X17. A client sends only between [connect] and [close]. Freshly
    constructed, it answers [send_offer] and [send_ice_candidate] with
    [RuntimeError] and sends nothing. Once [connect] has succeeded, its
    socket is open on the URL of the client and each send puts exactly one
    frame on it, addressed to the client id. After [close] both raise
    [RuntimeError] again and nothing more goes out, while the callbacks
    stay registered; a second [close] changes nothing. *)
Theorem sends_only_while_connected
    (signaling_url client_id token sdp : string) (candidate : pyval) (ch : Kvs.Channel) :
  let new := Kvs.mkChannel (Kvs.__init__ signaling_url client_id token) [] [] in
  let opened := snd (Kvs.connect None ch) in
  let closed := snd (Kvs.close ch) in
  Kvs.send_offer sdp new = (Raise RuntimeError, new) /\
  Kvs.send_ice_candidate candidate new = (Raise RuntimeError, new) /\
  Kvs.ws (Kvs.client opened) = Some {| Kvs.remote := Kvs.url (Kvs.client ch) |} /\
  Kvs.send_offer sdp opened =
    (Return tt,
     Kvs.mkChannel (Kvs.client opened)
       (Kvs.sent ch ++ [offer_frame sdp (Kvs.client_id (Kvs.client ch))]) (Kvs.calls ch)) /\
  Kvs.send_offer sdp closed = (Raise RuntimeError, closed) /\
  Kvs.send_ice_candidate candidate closed = (Raise RuntimeError, closed) /\
  Kvs.sent closed = Kvs.sent ch /\
  Kvs.on_answer (Kvs.client closed) = Kvs.on_answer (Kvs.client ch) /\
  Kvs.on_ice_candidate (Kvs.client closed) = Kvs.on_ice_candidate (Kvs.client ch) /\
  Kvs.close closed = (Return tt, closed).
Proof.
  cbn zeta. rewrite kvs_connect_eq, !kvs_close_eq. cbn [snd].
  rewrite !kvs_send_offer_eq, !kvs_send_ice_candidate_eq. cbn.
  repeat split.
Qed.
End Socket.

(** ** Percent-encoding *)

Lemma length_append (a b : string) :
  String.length (a +:+ b) = (String.length a + String.length b)%nat.
Proof.
  induction a as [|c a IH]; [reflexivity|].
  rewrite append_cons. cbn [String.length]. rewrite IH. reflexivity.
Qed.

Lemma quote_length (s : string) :
  String.length (Kvs.quote s) = (String.length s + 2 * reserved s)%nat.
Proof.
  induction s as [|c s IH]; [reflexivity|].
  cbn [Kvs.quote reserved String.length]. rewrite length_append, IH.
  unfold Kvs.quote_byte. destruct (Kvs.always_safe c); cbn [String.length]; lia.
Qed.

Lemma reserved_none (s : string) :
  reserved s = 0%nat <-> string_forall Kvs.always_safe s = true.
Proof.
  induction s as [|c s IH]; [cbn; tauto|].
  cbn [reserved string_forall]. destruct (Kvs.always_safe c); cbn [andb].
  - rewrite <- IH. lia.
  - split; [lia|discriminate].
Qed.


(** ** What no event changes *)

Lemma kept_refl b w : kept b w w.
Proof. unfold kept. tauto. Qed.

Lemma kept_trans b w1 w2 w3 : kept b w1 w2 -> kept b w2 w3 -> kept b w1 w3.
Proof.
  unfold kept. intros (A1 & A2 & A3 & A4 & A5 & A6) (B1 & B2 & B3 & B4 & B5 & B6).
  repeat split; try congruence; auto.
  intros Hb. rewrite B6, A6; auto.
Qed.

Lemma kept_flag (b b' : bool) w w' : kept b w w' -> (b' = true -> b = true) -> kept b' w w'.
Proof. unfold kept. intuition. Qed.

Lemma kept_cleaned w : kept true w (cleaned w).
Proof. unfold kept. cbn. tauto. Qed.

Lemma kept_started w : kept true w (started w).
Proof. unfold kept. cbn. tauto. Qed.

Lemma kept_stopped wk w : kept true w (stopped wk w).
Proof.
  unfold stopped. case_bool_decide; [apply kept_refl|].
  cbn zeta. cbn [loop_thread self with_effects with_self set_stop_event set_state].
  destruct (loop_thread (self w)) as [name|]; [|unfold kept; cbn; tauto].
  destruct wk; unfold kept; cbn; tauto.
Qed.

Lemma kept_failed wk w : kept true w (failed wk w).
Proof.
  eapply kept_trans; [apply (kept_stopped wk)|].
  unfold failed. cbn zeta.
  generalize (stopped wk w). intros w1.
  destruct (reconnect (options (self w1))); [|apply kept_refl].
  destruct (Z.ltb _ 10); unfold kept; cbn; repeat split; intros; lia.
Qed.

Lemma kept_call (c : api_call) (w : World) : kept true w (snd (perform_call c w)).
Proof.
  destruct c as [| |wk|wk| |now wk|wk]; cbn [perform_call].
  - unfold kept. cbn. tauto.
  - change (kept true w (snd (match start w with
                               | (Return a, s') => (mret tt : M World unit) s'
                               | (Raise e, s') => (Raise e, s')
                               | (Pending, s') => (Pending, s')
                               end))).
    rewrite start_eq. case_bool_decide; cbn; [apply kept_started|apply kept_refl].
  - change (kept true w (snd (match stop wk w with
                               | (Return a, s') => (mret tt : M World unit) s'
                               | (Raise e, s') => (Raise e, s')
                               | (Pending, s') => (Pending, s')
                               end))).
    rewrite stop_eq. cbn. apply kept_stopped.
  - change (kept true w (snd (match disable wk w with
                               | (Return a, s') => (mret tt : M World unit) s'
                               | (Raise e, s') => (Raise e, s')
                               | (Pending, s') => (Pending, s')
                               end))).
    rewrite disable_eq. cbn [snd mret M_ret].
    eapply kept_trans; [apply (kept_stopped wk)|]. unfold kept. cbn. tauto.
  - change (kept true w (snd (match enable w with
                               | (Return a, s') => (mret tt : M World unit) s'
                               | (Raise e, s') => (Raise e, s')
                               | (Pending, s') => (Pending, s')
                               end))).
    rewrite enable_eq. cbn [snd mret M_ret].
    case_bool_decide; [unfold kept; cbn; tauto|apply kept_refl].
  - change (kept true w (snd (match health_check now wk w with
                               | (Return a, s') => (mret tt : M World unit) s'
                               | (Raise e, s') => (Raise e, s')
                               | (Pending, s') => (Pending, s')
                               end))).
    rewrite health_check_eq.
    destruct (bool_decide (state (self w) = CONNECTED) && negb (healthy (self w))); cbn.
    + apply kept_failed.
    + apply kept_refl.
  - rewrite handle_failure_eq. apply kept_failed.
Qed.

Lemma wp_mono {S A} (m : M S A) (Q Q' : outcome A -> S -> Prop) (s : S) :
  (forall r s', Q r s' -> Q' r s') -> wp m Q s -> wp m Q' s.
Proof. unfold wp. auto. Qed.

Lemma kept_ice (ice_state : string) (now : Z) (w : World) :
  kept (negb (String.eqb ice_state "connected")) w (snd (ice_state_becomes ice_state now w)).
Proof.
  change (wp (ice_state_becomes ice_state now)
            (fun _ w' => kept (negb (String.eqb ice_state "connected")) w w') w).
  unfold ice_state_becomes, on_ice_state_change. wp_run.
  destruct (pc (self w)) as [conn|]; [|wp_run; apply kept_refl].
  wp_run. destruct (String.eqb ice_state "connected"); cbn [negb].
  - wp_run. unfold kept. cbn. repeat split; try discriminate; intros; lia.
  - repeat (first [wp_case | rewrite (wp_eq _ _ _ _ _ (cleanup_eq _)) | wp_step]).
    all: unfold kept; cbn; tauto.
Qed.

Lemma kept_track (track : MediaStreamTrack) (w : World) : kept true w (snd (on_track track w)).
Proof.
  change (wp (on_track track) (fun _ w' => kept true w w') w).
  unfold on_track, set_media_started, when. repeat (first [wp_step | wp_case]).
  all: unfold kept; cbn; tauto.
Qed.

Lemma kept_media (env : MediaEnv) (wk : worker) (w : World) :
  kept true w (snd (_handle_media_tracks env wk w)).
Proof.
  change (wp (_handle_media_tracks env wk) (fun _ w' => kept true w w') w).
  unfold _handle_media_tracks. rewrite wp_try_except.
  apply (wp_mono _ (fun _ w' => kept true w w')).
  { intros r w' Hk. destruct r as [[]|e|]; auto.
    destruct (isinstance e Exception_); auto.
    rewrite (wp_eq _ _ _ _ _ (handle_failure_eq _ _)).
    eapply kept_trans; [exact Hk|apply kept_failed]. }
  destruct w as [[cam u o st t0 t1 th lp p sg fp vp ap ev vt at_ n] fs tr ms].
  unfold when, _start_ffmpeg, gather_pumps, wait_until_stopped.
  change (suppress [FileExistsError] (mkfifo_attr ?x)) with (mkfifo_tolerant x).
  cbn. wp_run. destruct ap as [path|].
  all: repeat (first [media_step | wp_case]).
  all: unfold kept; cbn; tauto.
Qed.

Section Events.
Context `{Codecs}.

Lemma kept_connect_body (env : ConnectEnv) (w : World) :
  kept true w (snd (connect_body env w)).
Proof.
  change (wp (connect_body env) (fun _ w' => kept true w w') w).
  destruct env as [[res surl cid tok srvs] wsr off ah ch].
  unfold connect_body, subscript, add_transceiver, set_local_description,
    set_media_started, wait_until_stopped.
  cbn [kvs_signal WebRtc.result signalingUrl ClientId signalToken servers ws_refused offer
       answer_handler candidate_handler].
  destruct wsr as [e|], off as [sdp|].
  all: repeat first [ erewrite wp_on_signaling by reflexivity;
                      rewrite ?kvs_connect_eq, ?kvs_on_client_eq, ?kvs_send_offer_eq; cbn
                    | rewrite (wp_eq _ _ _ _ _ (ice_servers_of_eq _ _));
                      destruct (ice_config (default [] srvs))
                    | wp_step | wp_case ].
  all: unfold kept; cbn; tauto.
Qed.

Lemma kept_worker (env : ConnectEnv) (w : World) :
  kept true w (snd (_run_event_loop env w)).
Proof.
  unfold _run_event_loop, _connect_webrtc.
  set (w1 := with_self (set_loop (Some {| is_running := true |})) w).
  change ((update (set_loop (Some {| is_running := false |}));;
           update (set_loop (Some {| is_running := true |}));;
           loop_frame (connect_frame (connect_body env))) w)
    with (loop_frame (connect_frame (connect_body env)) w1).
  rewrite frames_eq.
  pose proof (kept_connect_body env w1) as Hk.
  assert (H1 : kept true w w1) by (unfold kept; cbn; tauto).
  destruct (connect_body env w1) as [[[]|e|] w2]; cbn [fst snd] in *.
  - eapply kept_trans; [exact H1|]. eapply kept_trans; [exact Hk|]. unfold kept; cbn; tauto.
  - eapply kept_trans; [exact H1|]. eapply kept_trans; [exact Hk|].
    destruct (isinstance e Exception_); unfold kept; cbn; tauto.
  - eapply kept_trans; [exact H1|exact Hk].
Qed.

Lemma kept_event (e : event) (w : World) :
  kept (negb (reports_connected e)) w (after (happen e) w).
Proof.
  unfold after. destruct e as [c|env|ice_state now|track|env wk]; cbn [happen reports_connected negb].
  - apply kept_call.
  - apply kept_worker.
  - apply kept_ice.
  - apply kept_track.
  - apply kept_media.
Qed.

Lemma kept_events (events : list event) (w : World) :
  kept (negb (existsb reports_connected events)) w (run_events events w).
Proof.
  revert w. induction events as [|e rest IH]; intros w; [apply kept_refl|].
  change (run_events (e :: rest) w) with (run_events rest (after (happen e) w)).
  cbn [existsb].
  apply (kept_trans _ _ (after (happen e) w)).
  - apply (kept_flag (negb (reports_connected e))); [apply kept_event|].
    destruct (reports_connected e); [discriminate|reflexivity].
  - apply (kept_flag (negb (existsb reports_connected rest))); [apply IH|].
    destruct (reports_connected e); [discriminate|]. cbn. auto.
Qed.

(** X19. Whatever happens to a session after its construction, in whatever
    order (calls of the interface, attempts of the worker, reports and
    tracks from the transport, runs of the media task), it keeps its
    camera, its URI and its options, its reconnect counter is never
    negative, and it never reports motion, the motion time stamp being
    assigned by the constructor only. Until the transport has reported
    [connected] for the first time, the uptime it reports is zero. *)
Theorem session_identity_is_stable
    (cam : WyzeCamera) (opts : WyzeStreamOptions) (fs : gset string)
    (events : list event) (now : Z) :
  let w := run_events events (mkWorld (__init__ cam opts) fs [] false) in
  camera (self w) = cam /\
  uri (self w) = name_uri cam /\
  options (self w) = opts /\
  0 <= _reconnect_count (self w) /\
  motion now (self w) = false /\
  get_info now (Some "motion") (self w) = PBool false /\
  get_info now (Some "uri") (self w) = PStr (name_uri cam) /\
  get_info now (Some "nickname") (self w) = PStr (nickname cam) /\
  (existsb reports_connected events = false ->
   get_info now (Some "uptime") (self w) = PInt 0).
Proof.
  cbn zeta.
  destruct (kept_events events (mkWorld (__init__ cam opts) fs [] false))
    as (Hc & Hu & Ho & Hm & Hn & Ht).
  cbn in Hc, Hu, Ho, Hm, Hn, Ht.
  assert (Hmotion : forall s, motion_ts s = 0 -> motion now s = false).
  { intros s Hs. unfold motion. rewrite Hs. reflexivity. }
  split; [exact Hc|]. split; [exact Hu|]. split; [exact Ho|].
  split; [apply Hn; lia|]. split; [apply Hmotion, Hm|].
  split; [cbn; rewrite (Hmotion _ Hm); reflexivity|].
  split; [cbn; rewrite Hu; reflexivity|].
  split; [cbn; rewrite Hc; reflexivity|].
  intros Hno. rewrite Hno in Ht. cbn. rewrite (Ht eq_refl). reflexivity.
Qed.
End Events.

(** ** [ffmpeg.py]: the command of the remux subprocess *)

Lemma get_log_level_known (level : string) :
  existsb (String.eqb (get_log_level level)) ffmpeg_loglevels = true.
Proof.
  unfold get_log_level.
  destruct (existsb (String.eqb level) ffmpeg_loglevels) eqn:Hin; [exact Hin|].
  vm_compute. reflexivity.
Qed.

Lemma loglevel_is_no_flag (level : string) :
  existsb (String.eqb level) ffmpeg_loglevels = true -> String.eqb level "-i" = false.
Proof.
  unfold ffmpeg_loglevels. cbn [existsb]. rewrite !orb_true_iff, !String.eqb_eq.
  intros [->|[->|[->|[->|[->|[->|[->|[->|H]]]]]]]]; try (vm_compute; reflexivity).
  discriminate.
Qed.

Lemma inputs_skip (flag : string) (rest : list string) :
  String.eqb flag "-i" = false -> inputs (flag :: rest) = inputs rest.
Proof. intros Hf. cbn [inputs]. rewrite Hf. reflexivity. Qed.

Lemma inputs_take (path : string) (rest : list string) :
  inputs ("-i" :: path :: rest) = path :: inputs rest.
Proof. reflexivity. Qed.

Lemma get_log_level_in (level : string) :
  In level ffmpeg_loglevels -> get_log_level level = level.
Proof.
  intros Hin. unfold get_log_level.
  replace (existsb (String.eqb level) ffmpeg_loglevels) with true; [reflexivity|].
  symmetry. apply existsb_exists. exists level. split; [exact Hin|apply String.eqb_refl].
Qed.

Lemma get_log_level_out (level : string) :
  ~ In level ffmpeg_loglevels -> get_log_level level = "warning".
Proof.
  intros Hout. unfold get_log_level.
  destruct (existsb (String.eqb level) ffmpeg_loglevels) eqn:Hex; [|reflexivity].
  apply existsb_exists in Hex as (known & Hin & Heq).
  apply String.eqb_eq in Heq. subst known. contradiction.
Qed.

(** X20. Whatever the environment holds, the command for the remux
    subprocess starts with [ffmpeg]; after [-loglevel] it passes the
    configured level when that is one FFmpeg knows and [warning] when it is
    not; after [-rtsp_transport], its last option, it passes [udp] when
    [MTX_RTSPTRANSPORTS] contains [udp] and [tcp] when it does not; it
    reads the video pipe of the camera and, exactly when audio is asked
    for, its audio pipe, and nothing else; and it ends with the RTSP URL
    of the camera on the local server. *)
Theorem ffmpeg_command_shape (level mtx_rtsptransports uri : string) (has_audio : bool) :
  let cmd := get_webrtc_ffmpeg_cmd (webrtc_rtsp_transport mtx_rtsptransports)
               (get_log_level level) uri has_audio in
  cmd !! 0%nat = Some "ffmpeg" /\
  cmd !! 3%nat = Some (get_log_level level) /\
  existsb (String.eqb (get_log_level level)) ffmpeg_loglevels = true /\
  (get_log_level level = level \/ get_log_level level = "warning") /\
  (webrtc_rtsp_transport mtx_rtsptransports = "udp" \/
   webrtc_rtsp_transport mtx_rtsptransports = "tcp") /\
  inputs cmd =
    ("/tmp/" +:+ uri +:+ "_video.pipe")
      :: (if has_audio then ["/tmp/" +:+ uri +:+ "_audio.pipe"] else []) /\
  List.last cmd "" = "rtsp://127.0.0.1:8554/" +:+ uri /\
  cmd !! 2%nat = Some "-loglevel" /\
  (In level ffmpeg_loglevels -> cmd !! 3%nat = Some level) /\
  (~ In level ffmpeg_loglevels -> cmd !! 3%nat = Some "warning") /\
  rev cmd !! 2%nat = Some "-rtsp_transport" /\
  (contains "udp" mtx_rtsptransports = true -> rev cmd !! 1%nat = Some "udp") /\
  (contains "udp" mtx_rtsptransports = false -> rev cmd !! 1%nat = Some "tcp").
Proof.
  cbn zeta.
  pose proof (loglevel_is_no_flag _ (get_log_level_known level)) as Hl.
  pose proof (get_log_level_known level) as Hk.
  pose proof (get_log_level_in level) as Hin.
  pose proof (get_log_level_out level) as Hout.
  assert (Hd : get_log_level level = level \/ get_log_level level = "warning").
  { unfold get_log_level.
    destruct (existsb (String.eqb level) ffmpeg_loglevels); [left|right]; reflexivity. }
  assert (Ht : webrtc_rtsp_transport mtx_rtsptransports = "udp" \/
               webrtc_rtsp_transport mtx_rtsptransports = "tcp").
  { unfold webrtc_rtsp_transport.
    destruct (contains "udp" mtx_rtsptransports); [left|right]; reflexivity. }
  assert (Hudp : contains "udp" mtx_rtsptransports = true ->
                 webrtc_rtsp_transport mtx_rtsptransports = "udp").
  { unfold webrtc_rtsp_transport. intros ->. reflexivity. }
  assert (Htcp : contains "udp" mtx_rtsptransports = false ->
                 webrtc_rtsp_transport mtx_rtsptransports = "tcp").
  { unfold webrtc_rtsp_transport. intros ->. reflexivity. }
  revert Hl Hk Hin Hout Hd Ht Hudp Htcp.
  generalize (get_log_level level) as lvl.
  generalize (webrtc_rtsp_transport mtx_rtsptransports) as tr.
  intros tr lvl Hl Hk Hin Hout Hd Ht Hudp Htcp.
  unfold get_webrtc_ffmpeg_cmd.
  split; [destruct has_audio; reflexivity|].
  split; [destruct has_audio; reflexivity|].
  split; [exact Hk|]. split; [exact Hd|]. split; [exact Ht|].
  split; [|split; [destruct has_audio; reflexivity|]].
  - destruct has_audio; cbn [app].
    all: destruct Ht as [-> | ->].
    all: repeat first [ rewrite inputs_take
                      | rewrite inputs_skip by first [exact Hl | vm_compute; reflexivity] ].
    all: reflexivity.
  - split; [destruct has_audio; reflexivity|].
    split; [intros Hknown; rewrite <- (Hin Hknown); destruct has_audio; reflexivity|].
    split; [intros Hunknown; rewrite <- (Hout Hunknown); destruct has_audio; reflexivity|].
    split; [destruct has_audio; reflexivity|].
    split; [intros Hc; rewrite <- (Hudp Hc)|intros Hc; rewrite <- (Htcp Hc)];
      destruct has_audio; reflexivity.
Qed.

(** ** The pumps *)

Section Pumps.
Context {Frame Packet E : Type}.

Section Grows.
Variable encode : option Frame -> E -> (list Packet + pyexn) * E.
Local Abbreviation Sink := (@Pump.Sink Packet E).
Local Abbreviation grows := (@grows Packet E).
Local Abbreviation steady := (@steady Packet E).
Local Abbreviation guarded := (@guarded Packet E).
Implicit Types s : Sink.

Lemma grows_refl s : grows s s.
Proof. exists []. rewrite app_nil_r. reflexivity. Qed.

Lemma grows_same s s' : Pump.written s' = Pump.written s -> grows s s'.
Proof. intros Hw. exists []. rewrite app_nil_r. exact Hw. Qed.

Lemma grows_trans s1 s2 s3 : grows s1 s2 -> grows s2 s3 -> grows s1 s3.
Proof.
  intros [a Ha] [b Hb]. exists (a ++ b). rewrite Hb, Ha, app_assoc. reflexivity.
Qed.

Lemma steady_ret : steady (mret tt).
Proof. intros s. split; [discriminate|apply grows_refl]. Qed.

Lemma steady_raise e : steady (raise e).
Proof. intros s. split; [discriminate|apply grows_refl]. Qed.

Lemma steady_bind (m k : M (@Pump.Sink Packet E) unit) :
  steady m -> steady k -> steady (m;; k).
Proof.
  intros Hm Hk s. unfold mbind, M_bind. destruct (Hm s) as [Hp Hg].
  destruct (m s) as [[[]|e|] s1]; cbn [fst snd] in *.
  - destruct (Hk s1) as [Hp' Hg']. split; [exact Hp'|]. eapply grows_trans; eassumption.
  - split; [discriminate|exact Hg].
  - contradiction.
Qed.

Lemma steady_try_except (m h : M (@Pump.Sink Packet E) unit) cls :
  steady m -> steady h -> steady (try_except m cls h).
Proof.
  intros Hm Hh s. unfold try_except. destruct (Hm s) as [Hp Hg].
  destruct (m s) as [[[]|e|] s1]; cbn [fst snd] in *.
  - split; [discriminate|exact Hg].
  - destruct (isinstance e cls).
    + destruct (Hh s1) as [Hp' Hg']. split; [exact Hp'|]. eapply grows_trans; eassumption.
    + split; [discriminate|exact Hg].
  - contradiction.
Qed.

Lemma steady_write (packet : Packet) : steady (Pump.pipe_write packet).
Proof.
  intros s. unfold Pump.pipe_write. destruct (Pump.room s) as [[|n]|]; cbn.
  - split; [discriminate|apply grows_refl].
  - split; [discriminate|]. exists [packet]. reflexivity.
  - split; [discriminate|]. exists [packet]. reflexivity.
Qed.

Lemma steady_write_all (packets : list Packet) : steady (Pump.write_all packets).
Proof.
  induction packets as [|p rest IH]; [apply steady_ret|].
  cbn [Pump.write_all]. apply steady_bind; [apply steady_write|exact IH].
Qed.

Lemma steady_encode_and_write (frame : option Frame) :
  steady (Pump.encode_and_write encode frame).
Proof.
  intros s. unfold Pump.encode_and_write, Pump.codec_encode, mbind, M_bind.
  destruct (Pump.codec s) as [e|]; [|split; [discriminate|apply grows_refl]].
  destruct (fst (encode frame e)) as [ps|ex].
  - destruct (steady_write_all ps (Pump.mkSink (Some (snd (encode frame e))) (Pump.written s)
                                     (Pump.room s) (Pump.frame_count s))) as [Hp Hg].
    split; [exact Hp|]. exact Hg.
  - split; [discriminate|apply grows_same; reflexivity].
Qed.

Lemma steady_count : steady Pump.count_frame.
Proof. intros s. split; [discriminate|apply grows_same; reflexivity]. Qed.

Lemma steady_create env : steady (Pump.create_codec env).
Proof.
  unfold Pump.create_codec. destruct (Pump.codec_create env); [|apply steady_raise].
  intros s. split; [discriminate|apply grows_same; reflexivity].
Qed.

Lemma steady_open env : steady (@Pump.open_pipe Packet E env).
Proof.
  unfold Pump.open_pipe. destruct (Pump.open_raises env); [apply steady_raise|apply steady_ret].
Qed.

Lemma video_loop_steady (feed : list (Pump.recv Frame)) :
  steady (Pump.video_loop encode feed) /\ guarded (Pump.video_loop encode feed).
Proof.
  induction feed as [|[frame| |e] rest [IHs IHg]].
  - split; [apply steady_ret|intros s; exact I].
  - cbn [Pump.video_loop].
    assert (Hturn : steady (Pump.count_frame;; Pump.encode_and_write encode (Some frame)))
      by (apply steady_bind; [apply steady_count|apply steady_encode_and_write]).
    split; intros s; destruct (Hturn s) as [Hp Hg];
      destruct ((Pump.count_frame;; Pump.encode_and_write encode (Some frame)) s)
        as [[[]|ex|] s1]; cbn [fst snd] in *; try contradiction.
    + destruct (IHs s1) as [Hp' Hg']. split; [exact Hp'|]. eapply grows_trans; eassumption.
    + destruct (isinstance ex Exception_); cbn; split; try discriminate; exact Hg.
    + apply IHg.
    + destruct (isinstance ex Exception_) eqn:Hex; cbn; auto.
  - cbn [Pump.video_loop]. split; assumption.
  - cbn [Pump.video_loop]. destruct (isinstance e Exception_) eqn:He.
    + split; [apply steady_ret|intros s; exact I].
    + split; [apply steady_raise|intros s; exact He].
Qed.

Lemma audio_loop_steady (feed : list (Pump.recv Frame)) :
  steady (Pump.audio_loop encode feed) /\ guarded (Pump.audio_loop encode feed).
Proof.
  induction feed as [|[frame| |e] rest [IHs IHg]].
  - split; [apply steady_ret|intros s; exact I].
  - cbn [Pump.audio_loop].
    pose proof (steady_encode_and_write (Some frame)) as Hturn.
    split; intros s; destruct (Hturn s) as [Hp Hg];
      destruct (Pump.encode_and_write encode (Some frame) s)
        as [[[]|ex|] s1]; cbn [fst snd] in *; try contradiction.
    + destruct (IHs s1) as [Hp' Hg']. split; [exact Hp'|]. eapply grows_trans; eassumption.
    + destruct (isinstance ex Exception_); cbn; split; try discriminate; exact Hg.
    + apply IHg.
    + destruct (isinstance ex Exception_) eqn:Hex; cbn; auto.
  - cbn [Pump.audio_loop]. split; assumption.
  - cbn [Pump.audio_loop]. destruct (isinstance e Exception_) eqn:He.
    + split; [apply steady_ret|intros s; exact I].
    + split; [apply steady_raise|intros s; exact He].
Qed.

Lemma guarded_try_except (m : M (@Pump.Sink Packet E) unit) :
  steady m -> guarded (try_except m Exception_ (mret tt)).
Proof.
  intros Hm s. destruct (try_except_log m Exception_ s) as [_ ->].
  destruct (Hm s) as [Hp _].
  destruct (fst (m s)) as [[]|e|]; cbn; auto.
  destruct (isinstance e Exception_) eqn:He; cbn; auto.
Qed.

Lemma video_body_steady env (first_frame : Frame) (feed : list (Pump.recv Frame)) :
  steady (Pump.create_codec env;; Pump.open_pipe env;; Pump.count_frame;;
          Pump.encode_and_write encode (Some first_frame);;
          Pump.video_loop encode feed;; Pump.encode_and_write encode None).
Proof.
  repeat first [ apply steady_bind | apply steady_create | apply steady_open
               | apply steady_count | apply steady_encode_and_write
               | apply video_loop_steady ].
Qed.



End Grows.
End Pumps.

Section Order.
Context {Frame Packet E : Type}.

Variable enc : option Frame -> E -> list Packet * E.

Lemma write_all_open (packets : list Packet) (s : @Pump.Sink Packet E) :
  Pump.room s = None ->
  Pump.write_all packets s =
  (Return tt, Pump.mkSink (Pump.codec s) (Pump.written s ++ packets) None (Pump.frame_count s)).
Proof.
  revert s. induction packets as [|p rest IH]; intros s Hroom.
  - cbn. rewrite app_nil_r. destruct s; cbn in *; subst; reflexivity.
  - cbn [Pump.write_all]. unfold mbind, M_bind, Pump.pipe_write. rewrite Hroom.
    rewrite IH by reflexivity. cbn. rewrite <- app_assoc. reflexivity.
Qed.

Lemma encode_and_write_open (frame : option Frame) (e : E) (w : list Packet) (n : nat) :
  Pump.encode_and_write (reliable enc) frame (Pump.mkSink (Some e) w None n) =
  (Return tt, Pump.mkSink (Some (snd (enc frame e))) (w ++ fst (enc frame e)) None n).
Proof.
  unfold Pump.encode_and_write, Pump.codec_encode, mbind, M_bind, reliable. cbn.
  rewrite write_all_open by reflexivity. reflexivity.
Qed.

Lemma video_loop_open (feed : list (Pump.recv Frame)) (e : E) (w : list Packet) (n : nat) :
  uncancelled feed = true ->
  Pump.video_loop (reliable enc) feed (Pump.mkSink (Some e) w None n) =
  (Return tt,
   Pump.mkSink (Some (snd (encode_all enc (frames_received feed) e)))
     (w ++ fst (encode_all enc (frames_received feed) e)) None
     (n + length (frames_received feed))).
Proof.
  revert e w n. induction feed as [|[frame| |ex] rest IH]; intros e w n Hun.
  - cbn. rewrite app_nil_r, Nat.add_0_r. reflexivity.
  - cbn [Pump.video_loop frames_received encode_all].
    change ((Pump.count_frame;; Pump.encode_and_write (reliable enc) (Some frame))
              (Pump.mkSink (Some e) w None n))
      with (Pump.encode_and_write (reliable enc) (Some frame) (Pump.mkSink (Some e) w None (S n))).
    rewrite encode_and_write_open. rewrite IH by exact Hun.
    destruct (enc (Some frame) e) as [ps e1]. cbn [fst snd].
    destruct (encode_all enc (frames_received rest) e1) as [qs e2]. cbn [fst snd length].
    rewrite app_assoc. do 2 f_equal. lia.
  - cbn [Pump.video_loop frames_received]. apply IH. exact Hun.
  - cbn [uncancelled forallb] in Hun. apply andb_true_iff in Hun as [Hex _].
    cbn [Pump.video_loop frames_received encode_all]. rewrite Hex.
    cbn. rewrite app_nil_r, Nat.add_0_r. reflexivity.
Qed.

Lemma audio_loop_open (feed : list (Pump.recv Frame)) (e : E) (w : list Packet) (n : nat) :
  uncancelled feed = true ->
  Pump.audio_loop (reliable enc) feed (Pump.mkSink (Some e) w None n) =
  (Return tt,
   Pump.mkSink (Some (snd (encode_all enc (frames_received feed) e)))
     (w ++ fst (encode_all enc (frames_received feed) e)) None n).
Proof.
  revert e w. induction feed as [|[frame| |ex] rest IH]; intros e w Hun.
  - cbn. rewrite app_nil_r. reflexivity.
  - cbn [Pump.audio_loop frames_received encode_all].
    rewrite encode_and_write_open. rewrite IH by exact Hun.
    destruct (enc (Some frame) e) as [ps e1]. cbn [fst snd].
    destruct (encode_all enc (frames_received rest) e1) as [qs e2]. cbn [fst snd].
    rewrite app_assoc. reflexivity.
  - cbn [Pump.audio_loop frames_received]. apply IH. exact Hun.
  - cbn [uncancelled forallb] in Hun. apply andb_true_iff in Hun as [Hex _].
    cbn [Pump.audio_loop frames_received encode_all]. rewrite Hex.
    cbn. rewrite app_nil_r. reflexivity.
Qed.

(** X23. With the encoder and the pipe in order and no cancellation, each
    pump writes the packets of its frames in the order the frames arrived,
    followed by what the flush of the encoder gives, and nothing else:
    timeouts leave no trace, and the frames are those received before the
    first failure of [recv], after which the flush still happens. The
    video pump has then counted every frame it encoded. *)
Theorem pumps_write_in_arrival_order
    (env : Pump.PumpEnv) (e0 : E) (track : MediaStreamTrack)
    (first_frame : Frame) (feed : list (Pump.recv Frame)) :
  Pump.codec_create env = inl e0 ->
  Pump.open_raises env = None ->
  uncancelled feed = true ->
  let video := Pump._write_video_track (reliable enc) env (Some track) (Pump.Got first_frame) feed
                 (Pump.idle None) in
  let audio := Pump._write_audio_track (reliable enc) env feed (Pump.idle None) in
  fst video = Return tt /\
  Pump.written (snd video) = encoded_stream enc (first_frame :: frames_received feed) e0 /\
  Pump.frame_count (snd video) = S (length (frames_received feed)) /\
  fst audio = Return tt /\
  Pump.written (snd audio) = encoded_stream enc (frames_received feed) e0.
Proof.
  intros Hc Ho Hun. cbn zeta. unfold Pump.idle, encoded_stream.
  assert (Hv : (modify (fun s : @Pump.Sink Packet E =>
                          Pump.mkSink (Some e0) (Pump.written s) (Pump.room s)
                            (Pump.frame_count s));;
                mret tt;; Pump.count_frame;;
                Pump.encode_and_write (reliable enc) (Some first_frame);;
                Pump.video_loop (reliable enc) feed;; Pump.encode_and_write (reliable enc) None)
               (Pump.mkSink None [] None 0)
             = (Return tt,
                Pump.mkSink
                  (Some (snd (enc None (snd (encode_all enc (first_frame :: frames_received feed) e0)))))
                  (fst (encode_all enc (first_frame :: frames_received feed) e0)
                     ++ fst (enc None (snd (encode_all enc (first_frame :: frames_received feed) e0))))
                  None (S (length (frames_received feed))))).
  { apply wp_elim.
    rewrite wp_bind, wp_modify. cbn [Pump.written Pump.room Pump.frame_count].
    rewrite wp_bind, wp_ret.
    rewrite wp_bind. unfold Pump.count_frame. rewrite wp_modify.
    cbn [Pump.written Pump.room Pump.frame_count Pump.codec].
    rewrite wp_bind, (wp_eq _ _ _ _ _ (encode_and_write_open _ _ _ _)).
    rewrite wp_bind, (wp_eq _ _ _ _ _ (video_loop_open _ _ _ _ Hun)).
    rewrite (wp_eq _ _ _ _ _ (encode_and_write_open _ _ _ _)). cbn [encode_all].
    destruct (enc (Some first_frame) e0) as [ps e1]. cbn [fst snd app].
    destruct (encode_all enc (frames_received feed) e1) as [qs e2]. cbn [fst snd Nat.add].
    split; reflexivity. }
  assert (Ha : (mret tt;; Pump.audio_loop (reliable enc) feed;; Pump.encode_and_write (reliable enc) None)
               (Pump.mkSink (Some e0) [] None 0)
             = (Return tt,
                Pump.mkSink
                  (Some (snd (enc None (snd (encode_all enc (frames_received feed) e0)))))
                  (fst (encode_all enc (frames_received feed) e0)
                     ++ fst (enc None (snd (encode_all enc (frames_received feed) e0))))
                  None 0)).
  { apply wp_elim.
    rewrite wp_bind, wp_ret.
    rewrite wp_bind, (wp_eq _ _ _ _ _ (audio_loop_open _ _ _ _ Hun)).
    rewrite (wp_eq _ _ _ _ _ (encode_and_write_open _ _ _ _)).
    split; reflexivity. }
  assert (Haudio : Pump._write_audio_track (reliable enc) env feed (Pump.mkSink None [] None 0)
                   = (Return tt,
                      Pump.mkSink
                        (Some (snd (enc None (snd (encode_all enc (frames_received feed) e0)))))
                        (fst (encode_all enc (frames_received feed) e0)
                           ++ fst (enc None (snd (encode_all enc (frames_received feed) e0))))
                        None 0)).
  { apply wp_elim. unfold Pump._write_audio_track, Pump.create_codec, Pump.open_pipe.
    rewrite Hc, Ho. rewrite wp_bind, wp_modify. cbn [Pump.written Pump.room Pump.frame_count].
    rewrite wp_try_except, (wp_eq _ _ _ _ _ Ha). split; reflexivity. }
  assert (Hvideo : Pump._write_video_track (reliable enc) env (Some track) (Pump.Got first_frame) feed
                     (Pump.mkSink None [] None 0)
                   = (Return tt,
                      Pump.mkSink
                        (Some (snd (enc None
                                 (snd (encode_all enc (first_frame :: frames_received feed) e0)))))
                        (fst (encode_all enc (first_frame :: frames_received feed) e0)
                           ++ fst (enc None
                                 (snd (encode_all enc (first_frame :: frames_received feed) e0))))
                        None (S (length (frames_received feed))))).
  { apply wp_elim. unfold Pump._write_video_track, Pump.create_codec, Pump.open_pipe.
    rewrite Hc, Ho. rewrite wp_try_except, (wp_eq _ _ _ _ _ Hv). split; reflexivity. }
  rewrite Hvideo, Haudio. cbn [fst snd Pump.written Pump.frame_count]. repeat split.
Qed.

End Order.

Lemma pumps_write_in_arrival_order_witness :
  Pump.written (snd (Pump._write_video_track (reliable toy_enc) pump_env
                       (Some {| kind := "video" |}) (Pump.Got 10%nat) toy_feed
                       (Pump.idle None)))
    = [10; 21; 32; 3]%nat /\
  Pump.written (snd (Pump._write_audio_track (reliable toy_enc) pump_env toy_feed
                       (Pump.idle None)))
    = [20; 31; 2]%nat.
Proof.
  destruct (pumps_write_in_arrival_order toy_enc pump_env 0%nat {| kind := "video" |}
              10%nat toy_feed eq_refl eq_refl eq_refl) as (_ & Hv & _ & _ & Ha).
  split; [exact Hv|exact Ha].
Defined.



(** ** The three views of the state *)

(** X24. The status string, the two flags and the numeric code agree: the
    status is [connected] exactly when [connected] holds and [disabled]
    exactly when [enabled] does not; two sessions have the same status
    string, or the same code under the key [state] of [get_info], exactly
    when they are in the same state. *)
Theorem status_agrees_with_flags (now : Z) (s1 s2 : WebRtcStream) :
  (status s1 = "connected" <-> connected s1 = true) /\
  (status s1 = "disabled" <-> enabled s1 = false) /\
  (status s1 = status s2 <-> state s1 = state s2) /\
  (get_info now (Some "state") s1 = get_info now (Some "state") s2 <-> state s1 = state s2).
Proof.
  split.
  { unfold status, connected. rewrite bool_decide_eq_true.
    destruct (state s1); split; intros; congruence. }
  split.
  { unfold status, enabled. rewrite negb_false_iff, bool_decide_eq_true.
    destruct (state s1); split; intros; congruence. }
  split.
  { unfold status. destruct (state s1), (state s2); split; intros; congruence. }
  assert (Hget : forall s, get_info now (Some "state") s = PInt (value (state s)))
    by reflexivity.
  rewrite !Hget.
  destruct (state s1), (state s2); cbn [value]; split; intros; congruence.
Qed.

Lemma status_agrees_with_flags_witness :
  status (self streaming) = "connected" /\ status (self fresh) <> "disabled".
Proof.
  assert (Hc : connected (self streaming) = true) by (vm_compute; reflexivity).
  assert (He : enabled (self fresh) <> false) by (vm_compute; discriminate).
  split.
  - exact (proj2 (proj1 (status_agrees_with_flags 0 (self streaming) (self fresh))) Hc).
  - intros Hd. apply He.
    exact (proj1 (proj1 (proj2 (status_agrees_with_flags 0 (self fresh) (self fresh)))) Hd).
Defined.

Lemma session_identity_is_stable_witness :
  get_info 500 (Some "uptime")
    (self (@run_events toy_codecs
             [Called CallStart; WorkerRuns credentials_ok;
              TrackArrives {| kind := "video" |}; Called (CallStop Unwinds)]
             fresh))
    = PInt 0.
Proof.
  destruct (@session_identity_is_stable toy_codecs front_door with_audio ∅
              [Called CallStart; WorkerRuns credentials_ok;
               TrackArrives {| kind := "video" |}; Called (CallStop Unwinds)] 500)
    as (_ & _ & _ & _ & _ & _ & _ & _ & Hup).
  apply Hup. reflexivity.
Defined.
